(** * Career Pilot backend: application tracker, analytics and dashboard

    A shallow embedding of the tracker controller ([getApplications],
    [updateApplicationStatus], [createApplication], [deleteApplication]),
    of the analytics controller ([getAnalytics]), of the dashboard
    controller ([getDashboardData], [getQuickStats]) and of the listing and
    creation of the applications route, together with the Mongoose schema
    of [Application] and the Express error middleware of [server.js].

    Conventions of the embedding.
    - A [Date] is its time value: milliseconds since the epoch, in [Z].
      Calendar fields are read in UTC (the server's time zone is taken to be
      UTC).
    - A JavaScript [Number] is a double: an arithmetic operation gives the
      exact result rounded to the nearest double, ties to even
      ([F64.round]).  A finite number is held as the rational it denotes
      ([Q]); a count, being the length of an array, is an integer below
      [2^32], held exactly in [Z].  [NaN] and the sign of zero do not arise
      in what the controllers compute; [Infinity] arises only from
      [parseInt] ([JS.Number]).
    - A [Date] that is stored is a valid one: its time value is at most
      [8.64e15] in magnitude, so that a difference of two dates is far from
      the overflow threshold of a double.
    - A Mongoose collection is the list of its documents, in natural order.
    - A handler runs in a small monad that threads the store and may throw;
      [Date.now()] and [new Date()] read the successive values of a clock. *)

From Stdlib Require Import ZArith QArith Qround Qabs Qpower Qreduction.
From Stdlib Require Import List String Ascii Bool Lia Lqa.
From Stdlib Require Import Permutation Sorted.
Import ListNotations.

Local Open Scope Z_scope.
Local Open Scope string_scope.

(* ===================================================================== *)
(** ** Double precision numbers *)
(* ===================================================================== *)

(** IEEE 754 binary64, on the rationals: 53 significant bits, the least
    exponent of a unit in the last place being [-1074] (subnormal numbers
    included).  [round x] is the double nearest to [x] as long as [x] is
    below the overflow threshold, which [overflows] tests. *)
Module F64.

Definition pow2 (e : Z) : Q := (2 ^ e)%Q.

(** The integer part of the binary logarithm of a positive rational. *)
Definition ilog2 (x : Q) : Z :=
  let k := Z.log2 (Qnum x) - Z.log2 (Zpos (Qden x)) in
  if Qle_bool (pow2 k) x then k else k - 1.

Definition emin : Z := -1074.

(** The exponent of the unit in the last place of the doubles around [x]. *)
Definition ulp_exponent (x : Q) : Z := Z.max (ilog2 (Qabs x) - 52) emin.

(** The nearest integer, the even one on a tie. *)
Definition rne (x : Q) : Z :=
  let f := Qfloor x in
  match (x - inject_Z f ?= 1 # 2)%Q with
  | Lt => f
  | Gt => f + 1
  | Eq => if Z.even f then f else f + 1
  end.

Definition nearest (x : Q) : Q :=
  let e := ulp_exponent x in (inject_Z (rne (x / pow2 e)) * pow2 e)%Q.

(** The result is in lowest terms, so that equal numbers round to the same
    term. *)
Definition round (x : Q) : Q :=
  let x := Qred x in
  if Qeq_bool x 0 then 0%Q else Qred (nearest x).

(** The rounded magnitude reaches [2^1024]: the operation gives an
    infinity. *)
Definition overflows (x : Q) : bool := Qle_bool (pow2 1024) (Qabs (round x)).

End F64.

(* ===================================================================== *)
(** ** JavaScript values used by the controllers *)
(* ===================================================================== *)

Module JS.

(** Truthiness of a string: only the empty string is falsy. *)
Definition truthy (s : string) : bool :=
  match s with EmptyString => false | String _ _ => true end.

(** Truthiness of a possibly undefined string. *)
Definition truthy_opt (o : option string) : bool :=
  match o with None => false | Some s => truthy s end.

(** [Array.prototype.includes] on an array of strings. *)
Fixpoint includes (l : list string) (x : string) : bool :=
  match l with
  | [] => false
  | y :: l' => String.eqb y x || includes l' x
  end.

(** [String.prototype.includes] for a one-character needle. *)
Fixpoint str_includes (s : string) (c : ascii) : bool :=
  match s with
  | EmptyString => false
  | String d s' => Ascii.eqb d c || str_includes s' c
  end.

(** The character class [\d]. *)
Definition isDigit (c : ascii) : bool :=
  let n := nat_of_ascii c in (48 <=? n)%nat && (n <=? 57)%nat.

Definition digitValue (c : ascii) : Z := Z.of_nat (nat_of_ascii c) - 48.

(** The integer that a string of decimal digits writes: the value of the
    longest prefix of digits. *)
Fixpoint digitsValue_from (acc : Z) (s : string) : Z :=
  match s with
  | EmptyString => acc
  | String c s' =>
      if isDigit c then digitsValue_from (10 * acc + digitValue c) s' else acc
  end.

Definition digitsValue (s : string) : Z := digitsValue_from 0 s.

(** The numbers that the salary arithmetic goes through: finite doubles
    and [Infinity]. *)
Inductive Number :=
| Finite (q : Q)
| Infinity.

(** The Number for the real [x]: the nearest double, [Infinity] past the
    overflow threshold ([x] is never negative where this is used). *)
Definition number (x : Q) : Number :=
  if F64.overflows x then Infinity else Finite (F64.round x).

(** [parseInt] on a string that starts with decimal digits.  It is only
    ever applied to a match of [\d+], so the result is never [NaN]; it is
    the double nearest to the integer written (V8 reads every digit; the
    standard lets an implementation read the digits after the twentieth
    as zeros). *)
Definition parseInt (s : string) : Number := number (inject_Z (digitsValue s)).

(** [a + b]. *)
Definition plus (a b : Number) : Number :=
  match a, b with
  | Finite x, Finite y => number (x + y)
  | _, _ => Infinity
  end.

(** [a / n] for a positive count [n]. *)
Definition over (a : Number) (n : Z) : Number :=
  match a with
  | Finite x => number (x / inject_Z n)
  | Infinity => Infinity
  end.

(** [a > 0]. *)
Definition positive (a : Number) : bool :=
  match a with
  | Finite x => negb (Qle_bool x 0)
  | Infinity => true
  end.

(** All matches of [/\d+/g], left to right: the maximal runs of digits.
    [cur] is the run being read, in reverse. *)
Definition rev_string (l : list ascii) : string :=
  fold_left (fun acc c => String c acc) l EmptyString.

Fixpoint digit_runs (cur : list ascii) (s : string) : list string :=
  match s with
  | EmptyString =>
      match cur with [] => [] | _ => [rev_string cur] end
  | String c s' =>
      if isDigit c then digit_runs (c :: cur) s'
      else match cur with
           | [] => digit_runs [] s'
           | _ => rev_string cur :: digit_runs [] s'
           end
  end.

(** [s.match(/\d+/g)]: [null] when nothing matches. *)
Definition match_digits (s : string) : option (list string) :=
  match digit_runs [] s with
  | [] => None
  | l => Some l
  end.

(** [Math.round]: nearest integer, a half rounds up. *)
Definition Math_round (x : Q) : Z := Qfloor (x + (1 # 2))%Q.

(** [Math.round] on a Number; the result is an integer, hence a double. *)
Definition Math_round_number (a : Number) : Number :=
  match a with
  | Finite x => Finite (inject_Z (Math_round x))
  | Infinity => Infinity
  end.

(** [x.toFixed(1)] for a double [x] below [10^21] in magnitude, as the
    number of tenths it prints: the integer [n] with [n / 10] nearest to
    the exact value of [x], the larger one on a tie; a negative [x] prints
    as the negation of [(-x).toFixed(1)]. *)
Definition toFixed1 (x : Q) : Z :=
  if Qle_bool 0 x then Qfloor (x * 10 + (1 # 2))%Q
  else - Qfloor ((- x) * 10 + (1 # 2))%Q.

(** *** Own property order of an object used as a table

    [Object.entries] lists the keys that are array indices first, in
    ascending numeric order, then the other string keys in the order they
    were created.  The table holds the own properties; a key that names
    a member of [Object.prototype] is found there when the table has no
    own property of that name ([inherited]). *)

Definition canonical_numeric (s : string) : bool :=
  match s with
  | EmptyString => false
  | String c EmptyString => isDigit c
  | String c s' =>
      isDigit c && negb (Ascii.eqb c "0") &&
      (fix all_digits (t : string) : bool :=
         match t with
         | EmptyString => true
         | String d t' => isDigit d && all_digits t'
         end) s'
  end.

(** An array index is a canonical numeric string below [2^32 - 1]. *)
Definition isArrayIndex (s : string) : bool :=
  canonical_numeric s && Z.ltb (digitsValue s) 4294967295.

(** The property names of [Object.prototype]. *)
Definition Object_prototype_names : list string :=
  ["constructor"; "__defineGetter__"; "__defineSetter__"; "hasOwnProperty";
   "__lookupGetter__"; "__lookupSetter__"; "isPrototypeOf";
   "propertyIsEnumerable"; "toString"; "valueOf"; "__proto__";
   "toLocaleString"].

(** [k] names a member that every plain object inherits. *)
Definition inherited (k : string) : bool := includes Object_prototype_names k.

Section Table.
Context {V : Type}.

(** The own properties, in order of creation. *)
Definition table := list (string * V).

Fixpoint get (t : table) (k : string) : option V :=
  match t with
  | [] => None
  | (k', v) :: t' => if String.eqb k' k then Some v else get t' k
  end.

(** Assignment [t[k] = v]: overwrites in place, or creates last. *)
Fixpoint set (t : table) (k : string) (v : V) : table :=
  match t with
  | [] => [(k, v)]
  | (k', v') :: t' =>
      if String.eqb k' k then (k', v) :: t' else (k', v') :: set t' k v
  end.

Fixpoint insert_index (e : string * V) (l : table) : table :=
  match l with
  | [] => [e]
  | e' :: l' =>
      if Z.ltb (digitsValue (fst e)) (digitsValue (fst e')) then e :: l
      else e' :: insert_index e l'
  end.

Definition Object_entries (t : table) : table :=
  (fold_right insert_index [] (filter (fun e => isArrayIndex (fst e)) t)
   ++ filter (fun e => negb (isArrayIndex (fst e))) t)%list.
End Table.
Arguments table : clear implicits.

(** *** [Array.prototype.sort] with a comparator

    The sort is stable; [cmp a b > 0] means that [b] goes first. *)
Section Sort.
Context {A : Type} (cmp : A -> A -> Z).

Fixpoint sort_insert (x : A) (l : list A) : list A :=
  match l with
  | [] => [x]
  | y :: l' => if Z.ltb 0 (cmp x y) then y :: sort_insert x l' else x :: l
  end.

Definition sort (l : list A) : list A := fold_right sort_insert [] l.
End Sort.

(** [a.slice(0, n)]. *)
Definition slice0 {A : Type} (n : nat) (l : list A) : list A := firstn n l.

End JS.

(* ===================================================================== *)
(** ** Dates *)
(* ===================================================================== *)

Module JSDate.

Definition msPerDay : Z := 86400000.

Definition Day (t : Z) : Z := t / msPerDay.
Definition TimeWithinDay (t : Z) : Z := t mod msPerDay.

(** Day number of day [d] of month [m] (0 = January) of year [y], counted
    from 1970-01-01, in the proleptic Gregorian calendar. *)
Definition days_from_civil (y m d : Z) : Z :=
  let y' := if Z.leb m 1 then y - 1 else y in
  let era := y' / 400 in
  let yoe := y' - era * 400 in
  let mp := if Z.leb m 1 then m + 10 else m - 2 in
  let doy := (153 * mp + 2) / 5 + d - 1 in
  let doe := yoe * 365 + yoe / 4 - yoe / 100 + doy in
  era * 146097 + doe - 719468.

(** Year, month (0 = January) and day of the month of a day number. *)
Definition civil_from_days (z : Z) : Z * Z * Z :=
  let z' := z + 719468 in
  let era := z' / 146097 in
  let doe := z' - era * 146097 in
  let yoe := (doe - doe / 1460 + doe / 36524 - doe / 146096) / 365 in
  let doy := doe - (365 * yoe + yoe / 4 - yoe / 100) in
  let mp := (5 * doy + 2) / 153 in
  let d := doy - (153 * mp + 2) / 5 + 1 in
  let m := if Z.ltb mp 10 then mp + 2 else mp - 10 in
  let y := yoe + era * 400 + (if Z.leb m 1 then 1 else 0) in
  (y, m, d).

Definition getFullYear (t : Z) : Z := fst (fst (civil_from_days (Day t))).
Definition getMonth (t : Z) : Z := snd (fst (civil_from_days (Day t))).
Definition getDate (t : Z) : Z := snd (civil_from_days (Day t)).

(** [MakeDay]: the month may lie outside 0..11 and the day outside the
    month; both carry over. *)
Definition MakeDay (year month date : Z) : Z :=
  days_from_civil (year + month / 12) (month mod 12) 1 + date - 1.

(** [new Date(year, month, date)]: midnight at the start of that day. *)
Definition Date_ymd (year month date : Z) : Z :=
  MakeDay year month date * msPerDay.

(** [d.setDate(date)]: same year, month and time of day. *)
Definition setDate (t date : Z) : Z :=
  MakeDay (getFullYear t) (getMonth t) date * msPerDay + TimeWithinDay t.

(** [toLocaleString('default', { month: 'short' })], English names. *)
Definition shortMonth (m : Z) : string :=
  nth (Z.to_nat m)
    ["Jan"; "Feb"; "Mar"; "Apr"; "May"; "Jun";
     "Jul"; "Aug"; "Sep"; "Oct"; "Nov"; "Dec"] "".

End JSDate.

(* ===================================================================== *)
(** ** Documents *)
(* ===================================================================== *)

(** An [ObjectId] in its hexadecimal form, as [toString()] and [req.user.id]
    give it. *)
Definition ObjectId := string.

(** [models/Application.js]. *)
Record Application := mkApplication {
  _id : ObjectId;
  job : ObjectId;
  user : ObjectId;
  status : string;
  appliedDate : option Z;
  responseDate : option Z;
  salary : option Q;
  notes : option string;
  createdAt : Z;
  updatedAt : Z;
  interviewDate : option Z;
  interviewTime : option string;
  interviewType : option string;
  interviewLocation : option string
}.

(** The [enum] of the [status] path. *)
Definition statusEnum : list string :=
  ["saved"; "applied"; "interviewing"; "offer"; "rejected"].

(** The fields of a [Job] that the controllers read.  The salary is free
    text and may be absent. *)
Record Job := mkJob {
  job_id : ObjectId;
  title : string;
  company : string;
  location : string;
  job_salary : option string;
  postedBy : ObjectId;
  job_createdAt : Z
}.

(** An application with its [job] path populated: [null] when the
    referenced job no longer exists. *)
Definition Populated : Type := Application * option Job.

(* ===================================================================== *)
(** ** The store and the handler monad *)
(* ===================================================================== *)

(** What a request reads from its environment: the clock, as the values
    returned by successive reads; the identifiers given to new documents;
    and which strings cast to an [ObjectId]. *)
Record Env := mkEnv {
  clock : nat -> Z;
  freshId : nat -> ObjectId;
  isObjectId : string -> bool
}.

Record Store := mkStore {
  applications : list Application;
  jobs : list Job;
  ticks : nat;      (* reads of the clock so far *)
  minted : nat      (* identifiers handed out so far *)
}.

(** What a handler can throw, or pass to [next]. *)
Inductive Exn :=
| ErrorResponse (message : string) (statusCode : Z)
| CastError
| ValidationError (message : string).

Inductive Outcome (A : Type) :=
| Value (a : A)
| Thrown (e : Exn).
Arguments Value {A} a.
Arguments Thrown {A} e.

Definition M (A : Type) : Type := Env -> Store -> Outcome A * Store.

Definition ret {A} (a : A) : M A := fun _ s => (Value a, s).

Definition bind {A B} (m : M A) (k : A -> M B) : M B :=
  fun env s =>
    match m env s with
    | (Value a, s') => k a env s'
    | (Thrown e, s') => (Thrown e, s')
    end.

Definition throw {A} (e : Exn) : M A := fun _ s => (Thrown e, s).

Notation "x <- m ;; k" := (bind m (fun x => k))
  (at level 61, m at next level, right associativity).

(** [Date.now()] and [new Date()]. *)
Definition Date_now : M Z :=
  fun env s =>
    (Value (clock env (ticks s)),
     mkStore (applications s) (jobs s) (S (ticks s)) (minted s)).

Definition newObjectId : M ObjectId :=
  fun env s =>
    (Value (freshId env (minted s)),
     mkStore (applications s) (jobs s) (ticks s) (S (minted s))).

(** Casting a string to an [ObjectId], as a query on [_id] does. *)
Definition castObjectId (id : string) : M ObjectId :=
  fun env s => if isObjectId env id then (Value id, s) else (Thrown CastError, s).

Definition getApplicationDocs : M (list Application) :=
  fun _ s => (Value (applications s), s).

Definition getJobDocs : M (list Job) :=
  fun _ s => (Value (jobs s), s).

Definition putApplicationDocs (l : list Application) : M unit :=
  fun _ s => (Value tt, mkStore l (jobs s) (ticks s) (minted s)).

(* ===================================================================== *)
(** ** Queries *)
(* ===================================================================== *)

Module Query.

Definition findOne {D} (p : D -> bool) (l : list D) : option D := find p l.

(** Replace the first document that satisfies [p]. *)
Fixpoint updateOne {D} (p : D -> bool) (f : D -> D) (l : list D) : list D :=
  match l with
  | [] => []
  | d :: l' => if p d then f d :: l' else d :: updateOne p f l'
  end.

(** Remove the first document that satisfies [p]. *)
Fixpoint deleteOne {D} (p : D -> bool) (l : list D) : list D :=
  match l with
  | [] => []
  | d :: l' => if p d then l' else d :: deleteOne p l'
  end.

End Query.

Definition hasId (id : ObjectId) (a : Application) : bool := String.eqb (_id a) id.

(** [Job.findById]. *)
Definition Job_findById (id : string) : M (option Job) :=
  oid <- castObjectId id ;;
  docs <- getJobDocs ;;
  ret (Query.findOne (fun j => String.eqb (job_id j) oid) docs).

(** [Application.findById]. *)
Definition Application_findById (id : string) : M (option Application) :=
  oid <- castObjectId id ;;
  docs <- getApplicationDocs ;;
  ret (Query.findOne (hasId oid) docs).

(** [Application.findOne({ user, job })]. *)
Definition Application_findOne_user_job (userId jobId : string)
  : M (option Application) :=
  uid <- castObjectId userId ;;
  jid <- castObjectId jobId ;;
  docs <- getApplicationDocs ;;
  ret (Query.findOne
         (fun a => String.eqb (user a) uid && String.eqb (job a) jid) docs).

(** [.populate('job', ...)] on one document. *)
Definition populate (a : Application) : M Populated :=
  docs <- getJobDocs ;;
  ret (a, Query.findOne (fun j => String.eqb (job_id j) (job a)) docs).

Fixpoint populateAll (l : list Application) : M (list Populated) :=
  match l with
  | [] => ret []
  | a :: l' =>
      p <- populate a ;;
      ps <- populateAll l' ;;
      ret (p :: ps)
  end.

(** The update document of [updateApplicationStatus]: [status] and
    [updatedAt] are always present, the two dates only when set. *)
Record UpdateData := mkUpdateData {
  set_status : string;
  set_updatedAt : Z;
  set_appliedDate : option Z;
  set_responseDate : option Z
}.

Definition orElse {A} (o : option A) (d : option A) : option A :=
  match o with Some x => Some x | None => d end.

(** [$set] of the fields present in the update document; nothing else of
    the document is written. *)
Definition applyUpdate (u : UpdateData) (a : Application) : Application :=
  mkApplication (_id a) (job a) (user a)
    (set_status u)
    (orElse (set_appliedDate u) (appliedDate a))
    (orElse (set_responseDate u) (responseDate a))
    (salary a) (notes a) (createdAt a)
    (set_updatedAt u)
    (interviewDate a) (interviewTime a) (interviewType a)
    (interviewLocation a).

(** [Application.findByIdAndUpdate(id, update, { new: true,
    runValidators: true })]: the updated document, or [null].  The update
    validators check [status] against the enum. *)
Definition Application_findByIdAndUpdate (id : string) (u : UpdateData)
  : M (option Application) :=
  oid <- castObjectId id ;;
  if negb (JS.includes statusEnum (set_status u)) then
    throw (ValidationError
             ("`" ++ set_status u ++ "` is not a valid enum value for path `status`."))
  else
    docs <- getApplicationDocs ;;
    _ <- putApplicationDocs (Query.updateOne (hasId oid) (applyUpdate u) docs) ;;
    ret (option_map (applyUpdate u) (Query.findOne (hasId oid) docs)).

(** [Application.create({ user, job, status })].  The schema defaults fill
    [status], [createdAt] and [updatedAt] when the document is built;
    validation runs before the [pre('save')] hook, which stamps
    [updatedAt] again.  A reference that does not cast is a validation
    error of the document (its message is abbreviated here). *)
Definition castPath (path value : string) : M ObjectId :=
  fun env s =>
    if isObjectId env value then (Value value, s)
    else (Thrown (ValidationError
                    ("Cast to ObjectId failed for value `" ++ value
                     ++ "` at path `" ++ path ++ "`")), s).

Definition Application_create (userId jobId : string) (st : option string)
  : M Application :=
  oid <- newObjectId ;;
  uid <- castPath "user" userId ;;
  jid <- castPath "job" jobId ;;
  let st' := match st with Some s => s | None => "saved" end in
  created <- Date_now ;;
  _ <- Date_now ;;
  if negb (JS.includes statusEnum st') then
    throw (ValidationError
             ("`" ++ st' ++ "` is not a valid enum value for path `status`."))
  else
    updated <- Date_now ;;
    let doc := mkApplication oid jid uid st' None None None None
                 created updated None None None None in
    docs <- getApplicationDocs ;;
    _ <- putApplicationDocs (docs ++ [doc])%list ;;
    ret doc.

(** [application.remove()]. *)
Definition Application_remove (a : Application) : M unit :=
  docs <- getApplicationDocs ;;
  putApplicationDocs (Query.deleteOne (hasId (_id a)) docs).

(* ===================================================================== *)
(** ** The tracker controller *)
(* ===================================================================== *)

Module Tracker.

Definition validStatuses : list string :=
  ["saved"; "applied"; "interviewing"; "offer"; "rejected"].

(** [validStatuses.includes(status)]; an absent status is not included. *)
Definition includesStatus (st : option string) : bool :=
  match st with
  | None => false
  | Some s => JS.includes validStatuses s
  end.

(** PUT /api/tracker/:id with body [{ status }]. *)
Definition updateApplicationStatus
    (userId : string) (id : string) (body_status : option string)
  : M (Z * option Populated) :=
  if negb (includesStatus body_status) then
    throw (ErrorResponse "Invalid status" 400)
  else
    let newStatus := match body_status with Some s => s | None => "" end in
    found <- Application_findById id ;;
    match found with
    | None => throw (ErrorResponse "Application not found" 404)
    | Some application =>
        if negb (String.eqb (user application) userId) then
          throw (ErrorResponse "Not authorized to update this application" 403)
        else
          now <- Date_now ;;
          let updateData := mkUpdateData newStatus now None None in
          updateData <-
            (if String.eqb newStatus "applied"
                && negb (String.eqb (status application) "applied")
             then
               t <- Date_now ;;
               ret (mkUpdateData (set_status updateData)
                      (set_updatedAt updateData) (Some t)
                      (set_responseDate updateData))
             else ret updateData) ;;
          updateData <-
            (if (String.eqb newStatus "offer" || String.eqb newStatus "rejected")
                && negb (String.eqb (status application) "offer")
                && negb (String.eqb (status application) "rejected")
             then
               t <- Date_now ;;
               ret (mkUpdateData (set_status updateData)
                      (set_updatedAt updateData)
                      (set_appliedDate updateData) (Some t))
             else ret updateData) ;;
          updated <- Application_findByIdAndUpdate id updateData ;;
          match updated with
          | None => ret (200, None)
          | Some a => p <- populate a ;; ret (200, Some p)
          end
    end.

(** POST /api/tracker with body [{ jobId, status }]. *)
Definition createApplication
    (userId : string) (body_jobId body_status : option string)
  : M (Z * Populated) :=
  let newStatus := match body_status with Some s => s | None => "saved" end in
  if negb (JS.truthy_opt body_jobId) then
    throw (ErrorResponse "Please provide a job ID" 400)
  else
    let jobId := match body_jobId with Some s => s | None => "" end in
    j <- Job_findById jobId ;;
    match j with
    | None => throw (ErrorResponse "Job not found" 404)
    | Some _ =>
        existingApplication <- Application_findOne_user_job userId jobId ;;
        match existingApplication with
        | Some _ =>
            throw (ErrorResponse "Application for this job already exists" 400)
        | None =>
            application <- Application_create userId jobId (Some newStatus) ;;
            p <- populate application ;;
            ret (201, p)
        end
    end.

(** DELETE /api/tracker/:id. *)
Definition deleteApplication (userId : string) (id : string) : M (Z * unit) :=
  found <- Application_findById id ;;
  match found with
  | None => throw (ErrorResponse "Application not found" 404)
  | Some application =>
      if negb (String.eqb (user application) userId) then
        throw (ErrorResponse "Not authorized to delete this application" 403)
      else
        _ <- Application_remove application ;;
        ret (200, tt)
  end.

End Tracker.

(* ===================================================================== *)
(** ** Responses: [asyncHandler] and the error middleware of [server.js] *)
(* ===================================================================== *)

Inductive Response (D : Type) :=
| Success (code : Z) (data : D)         (* { success: true, data } *)
| Failure (code : Z) (error : string).  (* { success: false, error } *)
Arguments Success {D} code data.
Arguments Failure {D} code error.

Definition errorMiddleware {D} (err : Exn) : Response D :=
  let '(message, statusCode) :=
    match err with
    | ErrorResponse m c => (m, c)
    | CastError => ("Resource not found", 404)
    | ValidationError m => (m, 400)
    end in
  Failure (if Z.eqb statusCode 0 then 500 else statusCode)
          (if JS.truthy message then message else "Server Error").

(** A handler served by Express: what the client receives, and the store
    afterwards. *)
Definition serve {D} (h : M (Z * D)) (env : Env) (s : Store)
  : Response D * Store :=
  match h env s with
  | (Value (code, data), s') => (Success code data, s')
  | (Thrown e, s') => (errorMiddleware e, s')
  end.

Definition statusCode_of {D} (r : Response D) : Z :=
  match r with Success c _ => c | Failure c _ => c end.

(* ===================================================================== *)
(** ** The analytics controller *)
(* ===================================================================== *)

(** Per-company counters, the values of [companyStats]. *)
Module Stats.
Record t := mk { applications : Z; interviews : Z; offers : Z }.
Definition zero : t := mk 0 0 0.
End Stats.

(** An element of [topCompanies]. *)
Module Company.
Record t := mk {
  name : string;
  applications : Z;
  interviews : Z;
  offers : Z;
  successRate : Z
}.
End Company.

(** An element of [monthlyData]. *)
Module Month.
Record t := mk {
  month : string;
  applications : Z;
  interviews : Z;
  offers : Z
}.
End Month.

Module Analytics.

Definition count {A} (p : A -> bool) (l : list A) : Z :=
  Z.of_nat (List.length (filter p l)).

Definition hasStatus (s : string) (app : Populated) : bool :=
  String.eqb (status (fst app)) s.

(** [total > 0 ? Math.round((count / total) * 100) : 0]: the quotient is
    rounded to a double, and so is its product with 100. *)
Definition percentage (cnt total : Z) : Z :=
  if Z.ltb 0 total
  then JS.Math_round
         (F64.round (F64.round (inject_Z cnt / inject_Z total) * 100))%Q
  else 0.

(** The start of the window for a [range] query parameter. *)
Definition startDateOf (range : string) : M Z :=
  startDate <- Date_now ;;
  if String.eqb range "7d" then
    ret (JSDate.setDate startDate (JSDate.getDate startDate - 7))
  else if String.eqb range "30d" then
    ret (JSDate.setDate startDate (JSDate.getDate startDate - 30))
  else if String.eqb range "90d" then
    ret (JSDate.setDate startDate (JSDate.getDate startDate - 90))
  else if String.eqb range "ytd" then
    today <- Date_now ;;
    ret (JSDate.Date_ymd (JSDate.getFullYear today) 0 1)
  else if String.eqb range "all" then
    ret 0
  else
    ret (JSDate.setDate startDate (JSDate.getDate startDate - 30)).

(** [Application.find({ user, createdAt: { $gte } }).populate('job', ...)]. *)
Definition findApplications (userId : string) (startDate : Z)
  : M (list Populated) :=
  uid <- castObjectId userId ;;
  docs <- getApplicationDocs ;;
  populateAll
    (filter (fun a => String.eqb (user a) uid && Z.leb startDate (createdAt a))
            docs).

(** [Job.find({ postedBy, createdAt: { $gte } })]. *)
Definition findJobs (userId : string) (startDate : Z) : M (list Job) :=
  uid <- castObjectId userId ;;
  docs <- getJobDocs ;;
  ret (filter (fun j => String.eqb (postedBy j) uid
                        && Z.leb startDate (job_createdAt j)) docs).

(** *** Average response time *)

Definition responded (app : Populated) : bool :=
  match responseDate (fst app), appliedDate (fst app) with
  | Some _, Some _ => true
  | _, _ => false
  end.

(** [(app.responseDate - app.appliedDate) / (1000 * 60 * 60 * 24)]. *)
Definition responseTime (app : Populated) : Q :=
  match responseDate (fst app), appliedDate (fst app) with
  | Some r, Some a =>
      F64.round (F64.round (inject_Z r - inject_Z a)
                 / inject_Z (1000 * 60 * 60 * 24))%Q
  | _, _ => 0%Q
  end.

(** The metric, in tenths of a day when it comes out of [toFixed(1)], and
    the plain number [0] otherwise. *)
Definition averageResponseTime (applications : list Populated) : Q :=
  let respondedApplications := filter responded applications in
  if Nat.ltb 0 (List.length respondedApplications) then
    let totalResponseTime :=
      fold_left (fun total app => F64.round (total + responseTime app)%Q)
                respondedApplications 0%Q in
    (inject_Z
       (JS.toFixed1
          (F64.round
             (totalResponseTime
              / inject_Z (Z.of_nat (List.length respondedApplications)))))
     / 10)%Q
  else 0%Q.

(** *** Average salary *)

Definition hasDollarSalary (j : Job) : bool :=
  match job_salary j with
  | Some s => JS.truthy s && JS.str_includes s "$"
  | None => false
  end.

(** The callback of [jobsWithSalary.map]. *)
Definition salaryNumber (j : Job) : JS.Number :=
  match job_salary j with
  | None => JS.Finite 0
  | Some s =>
      match JS.match_digits s with
      | Some (n0 :: n1 :: _) =>
          JS.over (JS.plus (JS.parseInt n0) (JS.parseInt n1)) 2
      | Some [n0] => JS.parseInt n0
      | _ => JS.Finite 0
      end
  end.

Definition averageSalary (jobs : list Job) : JS.Number :=
  let jobsWithSalary := filter hasDollarSalary jobs in
  if Nat.ltb 0 (List.length jobsWithSalary) then
    let salaryNumbers :=
      filter JS.positive (map salaryNumber jobsWithSalary) in
    if Nat.ltb 0 (List.length salaryNumbers) then
      JS.Math_round_number
        (JS.over (fold_left JS.plus salaryNumbers (JS.Finite 0))
                 (Z.of_nat (List.length salaryNumbers)))
    else JS.Finite 0
  else JS.Finite 0.

(** [averageSalary > 0 ? `$${...}` : 'N/A']; [None] is ['N/A']. *)
Definition formatSalary (averageSalary : JS.Number) : option JS.Number :=
  if JS.positive averageSalary then Some averageSalary else None.

(** *** Monthly trend *)

Definition within (lo hi t : Z) : bool := Z.leb lo t && Z.leb t hi.

(** One turn of the loop, for [i] months back. *)
Definition monthRow (now : Z) (applications : list Populated) (i : Z)
  : Month.t :=
  let monthDate :=
    JSDate.Date_ymd (JSDate.getFullYear now) (JSDate.getMonth now - i) 1 in
  let monthEnd :=
    JSDate.Date_ymd (JSDate.getFullYear now) (JSDate.getMonth now - i + 1) 0 in
  let monthApplications :=
    filter (fun app => within monthDate monthEnd (createdAt (fst app)))
           applications in
  let monthInterviews :=
    filter (fun app => hasStatus "interviewing" app
                       && within monthDate monthEnd (updatedAt (fst app)))
           applications in
  let monthOffers :=
    filter (fun app => hasStatus "offer" app
                       && within monthDate monthEnd (updatedAt (fst app)))
           applications in
  Month.mk (JSDate.shortMonth (JSDate.getMonth monthDate))
           (Z.of_nat (List.length monthApplications))
           (Z.of_nat (List.length monthInterviews))
           (Z.of_nat (List.length monthOffers)).

(** [for (let i = 5; i >= 0; i--)]. *)
Definition monthlyData (now : Z) (applications : list Populated)
  : list Month.t :=
  map (monthRow now applications) [5; 4; 3; 2; 1; 0].

(** *** Top companies *)

(** The body of [applications.forEach]. *)
Definition addApplication (companyStats : JS.table Stats.t) (app : Populated)
  : JS.table Stats.t :=
  match snd app with
  | Some j =>
      if JS.truthy (company j) then
        let company := company j in
        (* [companyStats[company]] is a member of [Object.prototype]: it
           is truthy, and the increments are made on that member; the
           table gets no property. *)
        if JS.inherited company then companyStats else
        let companyStats :=
          match JS.get companyStats company with
          | None => JS.set companyStats company Stats.zero
          | Some _ => companyStats
          end in
        let bump (f : Stats.t -> Stats.t) (t : JS.table Stats.t) :=
          match JS.get t company with
          | Some st => JS.set t company (f st)
          | None => t
          end in
        let companyStats :=
          bump (fun st => Stats.mk (Stats.applications st + 1)
                            (Stats.interviews st) (Stats.offers st))
               companyStats in
        let companyStats :=
          if hasStatus "interviewing" app then
            bump (fun st => Stats.mk (Stats.applications st)
                              (Stats.interviews st + 1) (Stats.offers st))
                 companyStats
          else companyStats in
        if hasStatus "offer" app then
          bump (fun st => Stats.mk (Stats.applications st)
                            (Stats.interviews st) (Stats.offers st + 1))
               companyStats
        else companyStats
      else companyStats
  | None => companyStats
  end.

Definition companyStatsOf (applications : list Populated) : JS.table Stats.t :=
  fold_left addApplication applications [].

(** The callback of [.map] on the entries. *)
Definition companyRow (e : string * Stats.t) : Company.t :=
  let '(name, stats) := e in
  Company.mk name (Stats.applications stats) (Stats.interviews stats)
    (Stats.offers stats)
    (if Z.ltb 0 (Stats.applications stats)
     then JS.Math_round
            (F64.round
               (F64.round (inject_Z (Stats.offers stats)
                           / inject_Z (Stats.applications stats)) * 100))%Q
     else 0).

Definition byApplications (a b : Company.t) : Z :=
  Company.applications b - Company.applications a.

Definition topCompanies (applications : list Populated) : list Company.t :=
  JS.slice0 5
    (JS.sort byApplications
       (map companyRow (JS.Object_entries (companyStatsOf applications)))).

(** *** The response *)

Record Metrics := mkMetrics {
  totalApplications : Z;
  interviewRate : Z;
  offerRate : Z;
  m_averageResponseTime : Q;
  m_averageSalary : option JS.Number
}.

Record StatusDistribution := mkStatusDistribution {
  saved : Z;
  applied : Z;
  interviewing : Z;
  offer : Z;
  rejected : Z
}.

Record Data := mkData {
  metrics : Metrics;
  statusDistribution : StatusDistribution;
  d_monthlyData : list Month.t;
  d_topCompanies : list Company.t
}.

(** GET /api/analytics?range=...; an absent [range] is ['30d']. *)
Definition getAnalytics (userId : string) (query_range : option string)
  : M (Z * Data) :=
  let range := match query_range with Some r => r | None => "30d" end in
  startDate <- startDateOf range ;;
  applications <- findApplications userId startDate ;;
  jobs <- findJobs userId startDate ;;
  let totalApplications := Z.of_nat (List.length applications) in
  let interviewCount := count (hasStatus "interviewing") applications in
  let offerCount := count (hasStatus "offer") applications in
  let interviewRate := percentage interviewCount totalApplications in
  let offerRate := percentage offerCount totalApplications in
  now <- Date_now ;;
  ret (200,
       mkData
         (mkMetrics totalApplications interviewRate offerRate
            (averageResponseTime applications)
            (formatSalary (averageSalary jobs)))
         (mkStatusDistribution
            (count (hasStatus "saved") applications)
            (count (hasStatus "applied") applications)
            (count (hasStatus "interviewing") applications)
            (count (hasStatus "offer") applications)
            (count (hasStatus "rejected") applications))
         (monthlyData now applications)
         (topCompanies applications)).

End Analytics.

(* ===================================================================== *)
(** ** Notions used in the statements *)
(* ===================================================================== *)

(** A status-change request: the caller, the id in the path, the body. *)
Record StatusRequest := mkStatusRequest {
  req_user : string;
  req_id : string;
  req_status : option string
}.

(** A run of status-change requests, served one after the other. *)
Fixpoint serveUpdates (reqs : list StatusRequest) (env : Env) (s : Store)
  : Store :=
  match reqs with
  | [] => s
  | r :: reqs' =>
      serveUpdates reqs' env
        (snd (serve (Tracker.updateApplicationStatus
                       (req_user r) (req_id r) (req_status r)) env s))
  end.

(** The document with a given id, if any. *)
Definition lookup (id : string) (s : Store) : option Application :=
  Query.findOne (hasId id) (applications s).

(** A change of status that enters ['applied'] from another status. *)
Definition entersApplied (current requested : string) : bool :=
  String.eqb requested "applied" && negb (String.eqb current "applied").

(** A change of status that enters ['offer'] or ['rejected'] from a status
    that is neither. *)
Definition entersResponse (current requested : string) : bool :=
  (String.eqb requested "offer" || String.eqb requested "rejected")
  && negb (String.eqb current "offer")
  && negb (String.eqb current "rejected").

(** The update document that a status change of [a] to [requested] builds
    when the clock has been read [n] times. *)
Definition updateDataFor (env : Env) (n : nat) (a : Application)
    (requested : string) : UpdateData :=
  mkUpdateData requested (clock env n)
    (if entersApplied (status a) requested then Some (clock env (S n)) else None)
    (if entersResponse (status a) requested then Some (clock env (S n)) else None).

(** Two documents that agree outside the four fields a status change may
    write. *)
Definition sameOtherFields (a a' : Application) : Prop :=
  _id a' = _id a /\ job a' = job a /\ user a' = user a /\
  salary a' = salary a /\ notes a' = notes a /\ createdAt a' = createdAt a /\
  interviewDate a' = interviewDate a /\ interviewTime a' = interviewTime a /\
  interviewType a' = interviewType a /\
  interviewLocation a' = interviewLocation a.

(** Field of the document with a given id, when there is one. *)
Definition fieldOf {A} (f : Application -> A) (id : string) (s : Store)
  : option A :=
  option_map f (lookup id s).

(** The reading of the data model under which a date, once set, stays as it
    is through every run of status changes. *)
Definition appliedDate_set_once : Prop :=
  forall env s reqs id t,
    fieldOf appliedDate id s = Some (Some t) ->
    fieldOf appliedDate id (serveUpdates reqs env s) = Some (Some t).

Definition responseDate_set_once : Prop :=
  forall env s reqs id t,
    fieldOf responseDate id s = Some (Some t) ->
    fieldOf responseDate id (serveUpdates reqs env s) = Some (Some t).

(** *** Sample data *)

Module Sample.

(** A clock that advances by one second per reading. *)
Definition env : Env :=
  mkEnv (fun k => 1000 * (1 + Z.of_nat k))
        (fun k => if Nat.eqb k 0 then "n0" else "n1")
        (fun s => negb (String.eqb s "not-an-id")).

Definition acme : Job :=
  mkJob "j1" "Developer" "Acme" "Paris" (Some "$100,000 - $120,000") "u9" 1.
Definition globex : Job :=
  mkJob "j2" "Tester" "Globex" "Lyon" (Some "$90,000") "u9" 1.

(** An application of user [u1], saved and never touched. *)
Definition a1 : Application :=
  mkApplication "a1" "j1" "u1" "saved" None None None (Some "call back")
    5 5 None None None None.

Definition store : Store := mkStore [a1] [acme; globex] 0 0.

Definition by_owner (st : string) : StatusRequest :=
  mkStatusRequest "u1" "a1" (Some st).

End Sample.

(** *** Creation, as the contract of [create] words it *)

Definition orSaved (st : option string) : string :=
  match st with Some x => x | None => "saved" end.

(** The job id of the request is the id of a stored job. *)
Definition jobResolves (jobId : option string) (s : Store) : bool :=
  match jobId with
  | Some j => existsb (fun x => String.eqb (job_id x) j) (jobs s)
  | None => false
  end.

(** The user already has an application for that job. *)
Definition alreadyApplied (userId : string) (jobId : option string)
    (s : Store) : bool :=
  match jobId with
  | Some j =>
      existsb (fun a => String.eqb (user a) userId && String.eqb (job a) j)
              (applications s)
  | None => false
  end.

(** "Fails with 404 when the job id does not resolve, with 400 when the
    pair exists, and otherwise creates a record with the supplied status,
    ['saved'] by default." *)
Definition create_as_stated : Prop :=
  forall env s userId jobId st,
    let r := serve (Tracker.createApplication userId jobId st) env s in
    if negb (jobResolves jobId s) then statusCode_of (fst r) = 404
    else if alreadyApplied userId jobId s then statusCode_of (fst r) = 400
    else exists doc pj,
        fst r = Success 201 (doc, pj)
        /\ status doc = orSaved st
        /\ In doc (applications (snd r)).

(** *** The input of the analytics *)

(** The start of the window that [getAnalytics] computes for a [range] when
    the store is [s]. *)
Definition windowStart (env : Env) (s : Store) (range : option string) : Z :=
  match Analytics.startDateOf
          (match range with Some r => r | None => "30d" end) env s with
  | (Value t, _) => t
  | (Thrown _, _) => 0
  end.

(** The time that [getAnalytics] reads for the monthly trend. *)
Definition trendNow (env : Env) (s : Store) (range : option string) : Z :=
  match range with
  | Some r => if String.eqb r "ytd" then clock env (S (S (ticks s)))
              else clock env (S (ticks s))
  | None => clock env (S (ticks s))
  end.

Definition join (s : Store) (a : Application) : Populated :=
  (a, Query.findOne (fun j => String.eqb (job_id j) (job a)) (jobs s)).

(** The user's application records created in the window, each with its
    job joined. *)
Definition windowApplications (userId : string) (start : Z) (s : Store)
  : list Populated :=
  map (join s)
      (filter (fun a => String.eqb (user a) userId && Z.leb start (createdAt a))
              (applications s)).

(** The jobs the user posted in the window. *)
Definition postedJobs (userId : string) (start : Z) (s : Store) : list Job :=
  filter (fun j => String.eqb (postedBy j) userId
                   && Z.leb start (job_createdAt j)) (jobs s).

(** The summary that a request receives, when it is answered. *)
Definition analyticsOf (env : Env) (s : Store) (userId : string)
    (range : option string) : option Analytics.Data :=
  match serve (Analytics.getAnalytics userId range) env s with
  | (Success _ d, _) => Some d
  | (Failure _ _, _) => None
  end.

(** *** Response time, in the words of the spec *)

(** The two dates of a record that has both. *)
Definition bothDates (app : Populated) : option (Z * Z) :=
  match appliedDate (fst app), responseDate (fst app) with
  | Some a, Some r => Some (a, r)
  | _, _ => None
  end.

Fixpoint datedPairs (l : list Populated) : list (Z * Z) :=
  match l with
  | [] => []
  | app :: l' =>
      match bothDates app with
      | Some p => p :: datedPairs l'
      | None => datedPairs l'
      end
  end.

Definition sumZ (l : list Z) : Z := fold_right Z.add 0 l.

(** Mean of [responseDate - appliedDate] over the records with both dates,
    in days. *)
Definition meanResponseDays (l : list Populated) : Q :=
  let total := sumZ (map (fun p => snd p - fst p) (datedPairs l)) in
  let days := 86400000 * Z.of_nat (List.length (datedPairs l)) in
  (inject_Z total / inject_Z days)%Q.

(** "The mean, in days, over the records with both dates; 0 when there is
    none." *)
Definition averageResponseTime_as_stated (l : list Populated) : Q :=
  match datedPairs l with
  | [] => 0%Q
  | _ => meanResponseDays l
  end.

(** The same mean as the controller computes it, in double precision: each
    difference of dates is rounded, and so is its quotient by the
    milliseconds of a day; the sum is rounded at each addition, from the
    first pair on; the quotient by the number of pairs is rounded. *)
Definition days64 (p : Z * Z) : Q :=
  F64.round (F64.round (inject_Z (snd p) - inject_Z (fst p))
             / inject_Z 86400000)%Q.

Definition sum64 (l : list Q) : Q :=
  fold_left (fun total x => F64.round (total + x)%Q) l 0%Q.

Definition mean64 (pairs : list (Z * Z)) : Q :=
  F64.round (sum64 (map days64 pairs)
             / inject_Z (Z.of_nat (List.length pairs)))%Q.

(** [x] to the power [k]. *)
Fixpoint powQ (x : Q) (k : nat) : Q :=
  match k with
  | O => 1%Q
  | S k' => (x * powQ x k')%Q
  end.

(** A bound on the relative error of one rounding: [2^-51]. *)
Definition eps64 : Q := 1 # 2251799813685248.

(** The exact number of days of a pair of dates. *)
Definition daysOf (p : Z * Z) : Q :=
  (inject_Z (snd p - fst p) / inject_Z 86400000)%Q.

(** [total] is the sum [exact], which is not negative, up to [k]
    roundings: both are zero, or [total] is at least [2^-27] (less than
    the 86400000th of a day) and within the relative error of [k]
    roundings of [exact]. *)
Definition upToRoundings (k : nat) (exact total : Q) : Prop :=
  (0 <= exact)%Q
  /\ (((total == 0)%Q /\ (exact == 0)%Q)
      \/ ((F64.pow2 (-27) <= total)%Q
          /\ (exact * powQ (1 - eps64) k <= total)%Q
          /\ (total <= exact * powQ (1 + eps64) k)%Q)).

(** [n] tenths is the value nearest to [x]; of two nearest values, the one
    away from zero. *)
Definition nearestTenth (x : Q) (n : Z) : Prop :=
  ((0 <= x)%Q -> (inject_Z n - (1 # 2) <= x * 10 < inject_Z n + (1 # 2))%Q)
  /\ ((x < 0)%Q -> (inject_Z n - (1 # 2) < x * 10 <= inject_Z n + (1 # 2))%Q).

(** *** Salary, in the words of the spec *)

Definition positiveQ (q : Q) : option Q :=
  if Qle_bool q 0 then None else Some q.

(** What one job contributes: nothing without a ['$'] in the text or
    without a number; the number, when there is one; the midpoint of the
    first two, when there are more.  A contribution of zero is dropped. *)
Definition contribution (j : Job) : option Q :=
  match job_salary j with
  | None => None
  | Some s =>
      if JS.str_includes s "$" then
        match JS.digit_runs [] s with
        | [] => None
        | [n0] => positiveQ (inject_Z (JS.digitsValue n0))
        | n0 :: n1 :: _ =>
            positiveQ
              (inject_Z (JS.digitsValue n0 + JS.digitsValue n1) / 2)%Q
        end
      else None
  end.

Fixpoint contributions (jobs : list Job) : list Q :=
  match jobs with
  | [] => []
  | j :: jobs' =>
      match contribution j with
      | Some q => q :: contributions jobs'
      | None => contributions jobs'
      end
  end.

Definition sumQ (l : list Q) : Q :=
  fold_left (fun total num => (total + num)%Q) l 0%Q.

(** The mean rounded to the nearest integer; [None] is "not available". *)
Definition roundedMean (l : list Q) : option Z :=
  match l with
  | [] => None
  | _ => Some (JS.Math_round
                 (sumQ l / inject_Z (Z.of_nat (List.length l)))%Q)
  end.

(** The metric that shows the integer [k]. *)
Definition salaryShown (k : Z) : JS.Number := JS.Finite (inject_Z k).

(** The Number [a] is finite and holds the rational [x]. *)
Definition denotes (a : JS.Number) (x : Q) : Prop :=
  match a with
  | JS.Finite q => (q == x)%Q
  | JS.Infinity => False
  end.

(** A whole number of halves. *)
Definition halfInteger (q : Q) : Prop :=
  exists m : Z, (q == inject_Z m * (1 # 2))%Q.

(** A salary text whose numbers are written without a thousands or decimal
    separator, so that each number is one run of digits. *)
Definition plainNumbers (j : Job) : bool :=
  match job_salary j with
  | None => true
  | Some s => negb (JS.str_includes s ",") && negb (JS.str_includes s ".")
  end.

(** More sample data: user [u1] has applied to the two jobs of the sample
    store, which user [u9] posted. *)
Module Sample2.

Definition a2 : Application :=
  mkApplication "a2" "j2" "u1" "saved" None None None None
    5 5 None None None None.

Definition store : Store :=
  mkStore [Sample.a1; a2] [Sample.acme; Sample.globex] 0 0.

(** The same two jobs with the salaries written without separators. *)
Definition acme' : Job :=
  mkJob "j1" "Developer" "Acme" "Paris" (Some "$100000 - $120000") "u9" 1.
Definition globex' : Job :=
  mkJob "j2" "Tester" "Globex" "Lyon" (Some "$90000") "u9" 1.

Definition store' : Store :=
  mkStore [Sample.a1; a2] [acme'; globex'] 0 0.

(** An application answered one hour after it was sent. *)
Definition quick : Application :=
  mkApplication "a3" "j1" "u1" "rejected" (Some 0) (Some 3600000) None None
    0 3600000 None None None None.

(** An application with a response date and no applied date. *)
Definition undated : Application :=
  mkApplication "a4" "j2" "u1" "offer" None (Some 86400000) None None
    0 86400000 None None None None.

Definition answered : Store :=
  mkStore [quick; undated] [Sample.acme; Sample.globex] 0 0.

(** A job with a salary of [2^53 + 1]. *)
Definition huge : Store :=
  mkStore []
    [mkJob "j1" "Developer" "Acme" "Paris" (Some "$9007199254740993") "u9" 1]
    0 0.

End Sample2.

(** A request made on 2024-03-15 at noon by a user whose one application
    was created, and moved to ['interviewing'], on 2024-01-31. *)
Module Sample3.

Definition noon_2024_03_15 : Z := 1710504000000.
Definition midnight_2024_01_31 : Z := 1706659200000.
Definition noon_2024_01_31 : Z := 1706702400000.

Definition env : Env :=
  mkEnv (fun _ => noon_2024_03_15) (fun _ => "n0") (fun _ => true).

Definition created_at (t : Z) : Application :=
  mkApplication "a1" "j1" "u1" "interviewing" None None None None
    t t None None None None.

Definition store_at (t : Z) : Store :=
  mkStore [created_at t] [Sample.acme] 0 0.

End Sample3.

(** *** Top companies, in the words of the spec *)

(** The company string an application is grouped by: that of its joined
    job, when there is a job and the string is not empty, and is not the
    name of a member that the grouping object inherits. *)
Definition companyOf (app : Populated) : option string :=
  match snd app with
  | Some j =>
      if JS.truthy (company j) && negb (JS.inherited (company j))
      then Some (company j) else None
  | None => None
  end.

Definition isCompany (c : string) (app : Populated) : bool :=
  match companyOf app with
  | Some c' => String.eqb c' c
  | None => false
  end.

Fixpoint companies (apps : list Populated) : list string :=
  match apps with
  | [] => []
  | app :: apps' =>
      match companyOf app with
      | Some c => c :: companies apps'
      | None => companies apps'
      end
  end.

(** The distinct elements of a list, each at its first occurrence. *)
Fixpoint firstOccurrences (l : list string) : list string :=
  match l with
  | [] => []
  | x :: l' =>
      x :: filter (fun y => negb (String.eqb x y)) (firstOccurrences l')
  end.

(** [round(100 * part / whole)], a half rounding up. *)
Definition roundedPercent (part whole : Z) : Z :=
  (200 * part + whole) / (2 * whole).

(** [rate] is the percentage of [part] in [whole] as double precision
    arithmetic gives it, the quotient being taken first: the rounded
    percentage, or, when the percentage is exactly halfway between two
    integers, possibly the integer below. *)
Definition percentIn64 (part whole rate : Z) : Prop :=
  rate = roundedPercent part whole
  \/ ((200 * part + whole) mod (2 * whole) = 0
      /\ rate = roundedPercent part whole - 1).

(** The row of a company: its numbers of applications, of applications in
    status ['interviewing'] and in status ['offer'], and the percentage of
    offers as the controller computes a percentage. *)
Definition groupRow (apps : list Populated) (c : string) : Company.t :=
  let applications := Analytics.count (isCompany c) apps in
  let interviews :=
    Analytics.count
      (fun a => isCompany c a && Analytics.hasStatus "interviewing" a) apps in
  let offers :=
    Analytics.count
      (fun a => isCompany c a && Analytics.hasStatus "offer" a) apps in
  Company.mk c applications interviews offers
             (Analytics.percentage offers applications).

(** The order in which the grouping object lists the companies. *)
Definition groupingOrder (apps : list Populated) : list string :=
  map fst (JS.Object_entries (Analytics.companyStatsOf apps)).

Definition descending (l : list Company.t) : Prop :=
  StronglySorted
    (fun a b => Company.applications b <= Company.applications a) l.

(** Rows with the same number of applications come in the same order in
    [after] as in [before]. *)
Definition keepsTieOrder (before after : list Company.t) : Prop :=
  forall n,
    filter (fun r => Z.eqb (Company.applications r) n) after
    = filter (fun r => Z.eqb (Company.applications r) n) before.

(** [result] is the first five of the rows of [before] put in descending
    order of applications, ties in the order of [before]. *)
Definition topFiveOf (before result : list Company.t) : Prop :=
  exists sorted,
    Permutation sorted before
    /\ descending sorted
    /\ keepsTieOrder before sorted
    /\ result = firstn 5 sorted.

(** What the body of the loop adds to the counters of the company of
    [app]. *)
Definition bumpStats (app : Populated) (st : Stats.t) : Stats.t :=
  Stats.mk (Stats.applications st + 1)
    (Stats.interviews st
     + (if Analytics.hasStatus "interviewing" app then 1 else 0))
    (Stats.offers st + (if Analytics.hasStatus "offer" app then 1 else 0)).

Definition statsOr0 (t : JS.table Stats.t) (c : string) : Stats.t :=
  match JS.get t c with Some st => st | None => Stats.zero end.

(** The counters of a company, counted over the applications. *)
Definition statsFor (c : string) (apps : list Populated) : Stats.t :=
  Stats.mk
    (Analytics.count (isCompany c) apps)
    (Analytics.count
       (fun a => isCompany c a && Analytics.hasStatus "interviewing" a) apps)
    (Analytics.count
       (fun a => isCompany c a && Analytics.hasStatus "offer" a) apps).

(** The scenario of the spec: three applications to Acme, one of them with
    an offer, and two to Globex. *)
Module Sample4.

Definition app (id jobId st : string) (t : Z) : Application :=
  mkApplication id jobId "u1" st None None None None t t None None None None.

Definition store : Store :=
  mkStore [app "a1" "j2" "saved" 10; app "a2" "j1" "applied" 20;
           app "a3" "j1" "offer" 30; app "a4" "j2" "rejected" 40;
           app "a5" "j1" "interviewing" 50]
          [Sample.acme; Sample.globex] 0 0.

End Sample4.

(** Forty applications to Acme, twenty-three of them with an offer; one
    application to a company named ['constructor']; and one application to
    each of two companies named ['10'] and ['9'], in this order. *)
Module Sample8.

Definition forty : Store :=
  mkStore
    (map (fun n => Sample4.app (String (ascii_of_nat (65 + n)) "") "j1"
                     (if Nat.ltb n 23 then "offer" else "applied") 10)
         (seq 0 40))
    [Sample.acme] 0 0.

Definition named : Store :=
  mkStore [Sample4.app "a1" "j3" "applied" 10]
          [mkJob "j3" "Engineer" "constructor" "Paris" None "u9" 1] 0 0.

Definition numbered : Store :=
  mkStore [Sample4.app "a1" "j10" "applied" 10;
           Sample4.app "a2" "j9" "applied" 20]
          [mkJob "j10" "Engineer" "10" "Paris" None "u9" 1;
           mkJob "j9" "Engineer" "9" "Paris" None "u9" 1] 0 0.

End Sample8.

(* ===================================================================== *)
(** ** The tracker: listing *)
(* ===================================================================== *)

Module TrackerList.

(** The response of GET /api/tracker: the applications by status. *)
Record ByStatus := mkByStatus {
  saved : list Populated;
  applied : list Populated;
  interviewing : list Populated;
  offer : list Populated;
  rejected : list Populated
}.

(** [.sort('-updatedAt')]: the latest update first.  Documents with equal
    [updatedAt] are left in natural order. *)
Definition newestFirst (a b : Application) : Z := updatedAt b - updatedAt a.

(** GET /api/tracker. *)
Definition getApplications (userId : string) : M (Z * ByStatus) :=
  uid <- castObjectId userId ;;
  docs <- getApplicationDocs ;;
  applications <-
    populateAll
      (JS.sort newestFirst (filter (fun a => String.eqb (user a) uid) docs)) ;;
  let applicationsByStatus :=
    mkByStatus
      (filter (Analytics.hasStatus "saved") applications)
      (filter (Analytics.hasStatus "applied") applications)
      (filter (Analytics.hasStatus "interviewing") applications)
      (filter (Analytics.hasStatus "offer") applications)
      (filter (Analytics.hasStatus "rejected") applications) in
  ret (200, applicationsByStatus).

(** The bucket of a status name. *)
Definition bucket (b : ByStatus) (st : string) : list Populated :=
  if String.eqb st "saved" then saved b
  else if String.eqb st "applied" then applied b
  else if String.eqb st "interviewing" then interviewing b
  else if String.eqb st "offer" then offer b
  else if String.eqb st "rejected" then rejected b
  else [].

End TrackerList.

(* ===================================================================== *)
(** ** Runs of tracker requests *)
(* ===================================================================== *)

(** A request to one of the three writing routes of the tracker. *)
Inductive TrackerRequest :=
| PutStatus (userId id : string) (body_status : option string)
| PostApplication (userId : string) (body_jobId body_status : option string)
| DeleteApplication (userId id : string).

(** The status code of the answer, and the store afterwards. *)
Definition serveTracker (r : TrackerRequest) (env : Env) (s : Store)
  : Z * Store :=
  match r with
  | PutStatus u i st =>
      let '(resp, s') := serve (Tracker.updateApplicationStatus u i st) env s in
      (statusCode_of resp, s')
  | PostApplication u j st =>
      let '(resp, s') := serve (Tracker.createApplication u j st) env s in
      (statusCode_of resp, s')
  | DeleteApplication u i =>
      let '(resp, s') := serve (Tracker.deleteApplication u i) env s in
      (statusCode_of resp, s')
  end.

Fixpoint serveTrackerAll (reqs : list TrackerRequest) (env : Env) (s : Store)
  : Store :=
  match reqs with
  | [] => s
  | r :: reqs' => serveTrackerAll reqs' env (snd (serveTracker r env s))
  end.

(** Every stored status is one of the five of the schema. *)
Definition statusesListed (s : Store) : Prop :=
  Forall (fun a => In (status a) statusEnum) (applications s).

(** No user has two applications for the same job. *)
Definition onePerJob (s : Store) : Prop :=
  NoDup (map (fun a => (user a, job a)) (applications s)).

(** No two applications have the same id. *)
Definition uniqueIds (s : Store) : Prop :=
  NoDup (map _id (applications s)).

(** [a] with another [updatedAt]. *)
Definition touched (a : Application) (t : Z) : Application :=
  mkApplication (_id a) (job a) (user a) (status a) (appliedDate a)
    (responseDate a) (salary a) (notes a) (createdAt a) t
    (interviewDate a) (interviewTime a) (interviewType a)
    (interviewLocation a).

(* ===================================================================== *)
(** ** The applications route: creation *)
(* ===================================================================== *)

Module ApplicationsRoute.

(** POST /api/applications with body [{ jobId, status }]: there is no look
    for an existing application of the caller, and the job of the answer is
    not populated. *)
Definition createApplication
    (userId : string) (body_jobId body_status : option string)
  : M (Z * Application) :=
  if negb (JS.truthy_opt body_jobId) then
    throw (ErrorResponse "Please provide a job ID" 400)
  else
    let jobId := match body_jobId with Some s => s | None => "" end in
    j <- Job_findById jobId ;;
    match j with
    | None => throw (ErrorResponse "Job not found" 404)
    | Some _ =>
        application <- Application_create userId jobId body_status ;;
        ret (201, application)
    end.

(** The data of GET /api/applications: [count] and [data]. *)
Record Listing := mkListing {
  count : Z;
  data : list Populated
}.

(** GET /api/applications: the applications of the caller, in natural
    order. *)
Definition getApplications (userId : string) : M (Z * Listing) :=
  uid <- castObjectId userId ;;
  docs <- getApplicationDocs ;;
  applications <-
    populateAll (filter (fun a => String.eqb (user a) uid) docs) ;;
  ret (200, mkListing (Z.of_nat (List.length applications)) applications).

End ApplicationsRoute.


(** The status code with which the error middleware answers an error. *)
Definition answerCode (e : Exn) : Z :=
  statusCode_of (@errorMiddleware unit e).

(** More sample data: a run of tracker requests on the sample store. *)
Module Sample5.

Definition run : list TrackerRequest :=
  [PostApplication "u1" (Some "j2") None;
   PostApplication "u1" (Some "j2") (Some "applied");
   PutStatus "u1" "n0" (Some "offer");
   PutStatus "u1" "a1" (Some "hired");
   DeleteApplication "u1" "a1"].

End Sample5.

(* ===================================================================== *)
(** ** More notions for the analytics *)
(* ===================================================================== *)

(** The number of days that a [range] reaches back, for the ranges that are
    a number of days: an absent or unknown range counts as ['30d']. *)
Definition daysBack (range : option string) : option Z :=
  match range with
  | None => Some 30
  | Some r =>
      if String.eqb r "7d" then Some 7
      else if String.eqb r "30d" then Some 30
      else if String.eqb r "90d" then Some 90
      else if String.eqb r "ytd" then None
      else if String.eqb r "all" then None
      else Some 30
  end.

(** The summary built from the applications of the window, the jobs the
    user posted in the window and the time read for the trend. *)
Definition summaryOf (applications : list Populated) (jobs : list Job)
    (now : Z) : Analytics.Data :=
  let totalApplications := Z.of_nat (List.length applications) in
  Analytics.mkData
    (Analytics.mkMetrics totalApplications
       (Analytics.percentage
          (Analytics.count (Analytics.hasStatus "interviewing") applications)
          totalApplications)
       (Analytics.percentage
          (Analytics.count (Analytics.hasStatus "offer") applications)
          totalApplications)
       (Analytics.averageResponseTime applications)
       (Analytics.formatSalary (Analytics.averageSalary jobs)))
    (Analytics.mkStatusDistribution
       (Analytics.count (Analytics.hasStatus "saved") applications)
       (Analytics.count (Analytics.hasStatus "applied") applications)
       (Analytics.count (Analytics.hasStatus "interviewing") applications)
       (Analytics.count (Analytics.hasStatus "offer") applications)
       (Analytics.count (Analytics.hasStatus "rejected") applications))
    (Analytics.monthlyData now applications)
    (Analytics.topCompanies applications).

(** The sum of a field over the rows of the trend. *)
Definition sumOver {A} (f : A -> Z) (l : list A) : Z :=
  fold_right (fun x acc => f x + acc) 0 l.

(** Sample data: the applications of the scenario in two orders of
    storage. *)
Module Sample6.

Definition tie : Store :=
  mkStore [Sample4.app "a1" "j2" "saved" 10; Sample4.app "a2" "j1" "applied" 20]
          [Sample.acme; Sample.globex] 0 0.

Definition tie' : Store :=
  mkStore [Sample4.app "a2" "j1" "applied" 20; Sample4.app "a1" "j2" "saved" 10]
          [Sample.acme; Sample.globex] 0 0.

(** A record of another user, and the store of the scenario with records
    of that user around those of [u1]. *)
Definition stranger (id : string) : Application :=
  mkApplication id "j1" "u2" "offer" None None None None 15 15
    None None None None.

Definition crowded : Store :=
  mkStore (stranger "b1" :: applications Sample4.store ++ [stranger "b2"])%list
          [Sample.acme; Sample.globex] 0 0.

End Sample6.

(** The bucket of the trend for the month [m - i] of the year [y]: from
    the first of the month at 00:00 to the day before the first of the
    next month at 00:00, both included. *)
Definition inBucket (y m i t : Z) : bool :=
  Analytics.within (JSDate.Date_ymd y (m - i) 1)
                   (JSDate.Date_ymd y (m - i + 1) 0) t.

Definition indicator (b : bool) : Z := if b then 1 else 0.

(* ===================================================================== *)
(** ** The dashboard *)
(* ===================================================================== *)

Module Dashboard.

(** [calculateChange], on two counts: their difference is exact, the
    quotient and its product with 100 are rounded to doubles. *)
Definition calculateChange (current previous : Z) : Z :=
  if Z.eqb previous 0 then (if Z.ltb 0 current then 100 else 0)
  else JS.Math_round
         (F64.round
            (F64.round (inject_Z (current - previous) / inject_Z previous)
             * 100))%Q.

(** [a || b] on strings. *)
Definition orDefault (a b : string) : string := if JS.truthy a then a else b.

(** [a || b] when [a] may be undefined. *)
Definition orDefault_opt (a : option string) (b : string) : string :=
  match a with Some x => orDefault x b | None => b end.

(** [s.charAt(0)]: the first unit of the string, or the empty string. *)
Definition charAt0 (s : string) : string :=
  match s with EmptyString => "" | String c _ => String c "" end.

(** An element of [stats]. *)
Record Stat := mkStat {
  stat_title : string;
  value : Z;
  change : Z;
  icon : string;
  color : string
}.

(** An element of [recentApplications]. *)
Record Recent := mkRecent {
  r_id : ObjectId;
  r_company : string;
  r_position : string;
  r_status : string;
  r_date : Z;
  r_logo : string
}.

(** An element of [upcomingInterviews]. *)
Record Interview := mkInterview {
  i_id : ObjectId;
  i_company : string;
  i_position : string;
  i_date : option Z;
  i_time : string;
  i_type : string
}.

Record Data := mkData {
  stats : list Stat;
  recentApplications : list Recent;
  upcomingInterviews : list Interview
}.

(** [['saved', 'applied'].includes(app.status)]. *)
Definition isPending (st : string) : bool :=
  JS.includes ["saved"; "applied"] st.

(** [.sort({ createdAt: -1 })]: the latest creation first.  Documents with
    equal [createdAt] are left in natural order. *)
Definition latestFirst (a b : Application) : Z := createdAt b - createdAt a.

(** [interviewDate: { $gte: from, $lte: to }]; a document without the path
    does not match. *)
Definition interviewWithin (from to : Z) (a : Application) : bool :=
  match interviewDate a with
  | Some d => Z.leb from d && Z.leb d to
  | None => false
  end.

(** The callback of [recentApplications.map]. *)
Definition formatApplication (app : Populated) : Recent :=
  mkRecent (_id (fst app))
    (orDefault_opt (option_map company (snd app)) "Unknown Company")
    (orDefault_opt (option_map title (snd app)) "Unknown Position")
    (status (fst app))
    (createdAt (fst app))
    (orDefault_opt (option_map (fun j => charAt0 (company j)) (snd app)) "U").

(** The callback of [upcomingInterviews.map]. *)
Definition formatInterview (interview : Populated) : Interview :=
  mkInterview (_id (fst interview))
    (orDefault_opt (option_map company (snd interview)) "Unknown Company")
    (orDefault_opt (option_map title (snd interview)) "Unknown Position")
    (interviewDate (fst interview))
    (orDefault_opt (interviewTime (fst interview)) "TBD")
    (orDefault_opt (interviewType (fst interview)) "Interview").

(** GET /api/dashboard. *)
Definition getDashboardData (userId : string) : M (Z * Data) :=
  d30 <- Date_now ;;
  let thirtyDaysAgo := JSDate.setDate d30 (JSDate.getDate d30 - 30) in
  applications <- Analytics.findApplications userId thirtyDaysAgo ;;
  d60 <- Date_now ;;
  let sixtyDaysAgo := JSDate.setDate d60 (JSDate.getDate d60 - 60) in
  uid <- castObjectId userId ;;
  docs <- getApplicationDocs ;;
  let previousApplications :=
    filter (fun a => String.eqb (user a) uid
                     && (Z.leb sixtyDaysAgo (createdAt a)
                         && Z.ltb (createdAt a) thirtyDaysAgo)) docs in
  let totalApplications := Z.of_nat (List.length applications) in
  let interviewCount :=
    Analytics.count (Analytics.hasStatus "interviewing") applications in
  let offerCount := Analytics.count (Analytics.hasStatus "offer") applications in
  let pendingCount :=
    Analytics.count (fun app => isPending (status (fst app))) applications in
  let prevTotalApplications := Z.of_nat (List.length previousApplications) in
  let prevInterviewCount :=
    Analytics.count (fun app => String.eqb (status app) "interviewing")
      previousApplications in
  let prevOfferCount :=
    Analytics.count (fun app => String.eqb (status app) "offer")
      previousApplications in
  let prevPendingCount :=
    Analytics.count (fun app => isPending (status app)) previousApplications in
  uid <- castObjectId userId ;;
  docs <- getApplicationDocs ;;
  recentApplications <-
    populateAll
      (JS.slice0 5
         (JS.sort latestFirst
            (filter (fun a => String.eqb (user a) uid) docs))) ;;
  d7 <- Date_now ;;
  let nextWeek := JSDate.setDate d7 (JSDate.getDate d7 + 7) in
  now <- Date_now ;;
  uid <- castObjectId userId ;;
  docs <- getApplicationDocs ;;
  upcomingInterviews <-
    populateAll
      (filter (fun a => String.eqb (user a) uid
                        && (String.eqb (status a) "interviewing"
                            && interviewWithin now nextWeek a)) docs) ;;
  let stats :=
    [mkStat "Total Applications" totalApplications
       (calculateChange totalApplications prevTotalApplications)
       "Briefcase" "blue";
     mkStat "Interviews" interviewCount
       (calculateChange interviewCount prevInterviewCount)
       "TrendingUp" "green";
     mkStat "Offers" offerCount
       (calculateChange offerCount prevOfferCount)
       "CheckCircle" "purple";
     mkStat "Pending" pendingCount
       (calculateChange pendingCount prevPendingCount)
       "Clock" "orange"] in
  ret (200,
       mkData stats
         (map formatApplication recentApplications)
         (map formatInterview upcomingInterviews)).



End Dashboard.

(** *** Notions for the dashboard *)

(** The answer of the dashboard, when there is one. *)
Definition dashboardOf (env : Env) (s : Store) (userId : string)
  : option Dashboard.Data :=
  match serve (Dashboard.getDashboardData userId) env s with
  | (Success _ d, _) => Some d
  | (Failure _ _, _) => None
  end.


(** The data of the dashboard for a user, from the store and the four
    times that bound the windows: the start of the current period, the
    start of the previous one, and the two ends of the week of
    interviews. *)
Definition dashboardData (userId : string) (s : Store)
    (thirtyDaysAgo sixtyDaysAgo now nextWeek : Z) : Dashboard.Data :=
  let current := windowApplications userId thirtyDaysAgo s in
  let previous :=
    filter (fun a => String.eqb (user a) userId
                     && (Z.leb sixtyDaysAgo (createdAt a)
                         && Z.ltb (createdAt a) thirtyDaysAgo))
           (applications s) in
  Dashboard.mkData
    [Dashboard.mkStat "Total Applications"
       (Z.of_nat (List.length current))
       (Dashboard.calculateChange (Z.of_nat (List.length current))
          (Z.of_nat (List.length previous)))
       "Briefcase" "blue";
     Dashboard.mkStat "Interviews"
       (Analytics.count (Analytics.hasStatus "interviewing") current)
       (Dashboard.calculateChange
          (Analytics.count (Analytics.hasStatus "interviewing") current)
          (Analytics.count (fun app => String.eqb (status app) "interviewing")
             previous))
       "TrendingUp" "green";
     Dashboard.mkStat "Offers"
       (Analytics.count (Analytics.hasStatus "offer") current)
       (Dashboard.calculateChange
          (Analytics.count (Analytics.hasStatus "offer") current)
          (Analytics.count (fun app => String.eqb (status app) "offer")
             previous))
       "CheckCircle" "purple";
     Dashboard.mkStat "Pending"
       (Analytics.count (fun app => Dashboard.isPending (status (fst app)))
          current)
       (Dashboard.calculateChange
          (Analytics.count (fun app => Dashboard.isPending (status (fst app)))
             current)
          (Analytics.count (fun app => Dashboard.isPending (status app))
             previous))
       "Clock" "orange"]
    (map Dashboard.formatApplication
       (map (join s)
          (JS.slice0 5
             (JS.sort Dashboard.latestFirst
                (filter (fun a => String.eqb (user a) userId)
                        (applications s))))))
    (map Dashboard.formatInterview
       (map (join s)
          (filter (fun a => String.eqb (user a) userId
                            && (String.eqb (status a) "interviewing"
                                && Dashboard.interviewWithin now nextWeek a))
                  (applications s)))).

(** The user's records. *)
Definition recordsOf (userId : string) (s : Store) : list Application :=
  filter (fun a => String.eqb (user a) userId) (applications s).





(** What a row shows for a text that may be missing or empty. *)
Definition shown (text : option string) (default : string) : string :=
  match text with
  | Some x => if JS.truthy x then x else default
  | None => default
  end.

(** A request on 2024-03-15 at noon: an interview in two days, one in two
    weeks, and an older record of a job that no longer exists. *)
Module Sample7.

Definition day : Z := 86400000.

Definition soon : Application :=
  mkApplication "a1" "j1" "u1" "interviewing" None None None None
    (Sample3.noon_2024_03_15 - 3 * day) (Sample3.noon_2024_03_15 - day)
    (Some (Sample3.noon_2024_03_15 + 2 * day)) (Some "10:00") None None.

Definition later : Application :=
  mkApplication "a2" "j2" "u1" "interviewing" None None None None
    (Sample3.noon_2024_03_15 - 40 * day) (Sample3.noon_2024_03_15 - day)
    (Some (Sample3.noon_2024_03_15 + 14 * day)) None (Some "Phone") None.

Definition orphan : Application :=
  mkApplication "a3" "gone" "u1" "applied" None None None None
    (Sample3.noon_2024_03_15 - 45 * day) (Sample3.noon_2024_03_15 - 45 * day)
    None None None None.

Definition store : Store :=
  mkStore [later; orphan; soon] [Sample.acme; Sample.globex] 0 0.


End Sample7.

(* ===================================================================== *)
(** ** What the listing shows after a write *)
(* ===================================================================== *)

(** A bucket of the listing holds a record with the id [id]. *)
Definition listedIn (b : TrackerList.ByStatus) (st id : string) : Prop :=
  exists x, In x (TrackerList.bucket b st) /\ _id (fst x) = id.

(** The records of a bucket other than the one with the id [id]. *)
Definition without (id : string) (l : list Populated) : list Populated :=
  filter (fun x => negb (String.eqb (_id (fst x)) id)) l.

(* ===================================================================== *)
(** ** Rounding to a double *)
(* ===================================================================== *)

Lemma pow2_pos e : (0 < F64.pow2 e)%Q.
Proof. apply Qpower_0_lt. reflexivity. Qed.

Lemma pow2_add a b : (F64.pow2 (a + b) == F64.pow2 a * F64.pow2 b)%Q.
Proof. apply Qpower_plus. discriminate. Qed.

Lemma pow2_le a b : a <= b -> (F64.pow2 a <= F64.pow2 b)%Q.
Proof. intros H. apply Qpower_le_compat_l; [exact H|]. discriminate. Qed.

Lemma pow2_lt a b : a < b -> (F64.pow2 a < F64.pow2 b)%Q.
Proof. intros H. apply Qpower_lt_compat_l; [exact H|]. reflexivity. Qed.

Lemma pow2_Z n : 0 <= n -> (F64.pow2 n == inject_Z (2 ^ n))%Q.
Proof. intros H. symmetry. apply (Zpower_Qpower 2 n H). Qed.

Lemma pow2_0 : (F64.pow2 0 == 1)%Q.
Proof. reflexivity. Qed.

Lemma pow2_succ a : (F64.pow2 (a + 1) == 2 * F64.pow2 a)%Q.
Proof. rewrite pow2_add. change (F64.pow2 1) with 2%Q. ring. Qed.

(** [ilog2 x] is the integer part of the binary logarithm of [x]. *)
Lemma ilog2_spec x :
  (0 < x)%Q -> (F64.pow2 (F64.ilog2 x) <= x < F64.pow2 (F64.ilog2 x + 1))%Q.
Proof.
  intros Hx. destruct x as [n d].
  assert (Hn : 0 < n) by (unfold Qlt in Hx; simpl in Hx; lia).
  unfold F64.ilog2. cbn [Qnum Qden].
  set (a := Z.log2 n). set (b := Z.log2 (Z.pos d)).
  pose proof (Z.log2_spec n Hn) as Ha. fold a in Ha.
  pose proof (Z.log2_spec (Z.pos d) eq_refl) as Hb. fold b in Hb.
  assert (Ha0 : 0 <= a) by apply Z.log2_nonneg.
  assert (Hb0 : 0 <= b) by apply Z.log2_nonneg.
  assert (Hnd : (n # d == inject_Z n / inject_Z (Z.pos d))%Q)
    by apply Qmake_Qdiv.
  assert (HA : (F64.pow2 a <= inject_Z n)%Q).
  { rewrite pow2_Z by exact Ha0. rewrite <- Zle_Qle. lia. }
  assert (HA' : (inject_Z n < 2 * F64.pow2 a)%Q).
  { rewrite <- pow2_succ, pow2_Z by lia. rewrite <- Zlt_Qlt.
    unfold Z.succ in Ha. lia. }
  assert (HB : (F64.pow2 b <= inject_Z (Z.pos d))%Q).
  { rewrite pow2_Z by exact Hb0. rewrite <- Zle_Qle. lia. }
  assert (HB' : (inject_Z (Z.pos d) < 2 * F64.pow2 b)%Q).
  { rewrite <- pow2_succ, pow2_Z by lia. rewrite <- Zlt_Qlt.
    unfold Z.succ in Hb. lia. }
  pose proof (pow2_pos a) as Pa. pose proof (pow2_pos b) as Pb.
  assert (Pd : (0 < inject_Z (Z.pos d))%Q) by reflexivity.
  assert (Hlo : (F64.pow2 (a - b - 1) <= n # d)%Q).
  { rewrite Hnd. apply Qle_shift_div_l; [exact Pd|].
    pose proof (pow2_pos (a - b - 1)) as Pp.
    assert (He : (F64.pow2 (a - b - 1) * (2 * F64.pow2 b) == F64.pow2 a)%Q).
    { rewrite <- pow2_succ, <- pow2_add. f_equiv. unfold F64.pow2.
      replace (a - b - 1 + (b + 1)) with a by lia. reflexivity. }
    apply Qle_trans with (F64.pow2 (a - b - 1) * (2 * F64.pow2 b))%Q;
      [|rewrite He; exact HA].
    apply Qmult_le_l; [exact Pp|]. apply Qlt_le_weak. exact HB'. }
  assert (Hhi : (n # d < F64.pow2 (a - b + 1))%Q).
  { rewrite Hnd. apply Qlt_shift_div_r; [exact Pd|].
    pose proof (pow2_pos (a - b + 1)) as Pp.
    assert (He : (F64.pow2 (a - b + 1) * F64.pow2 b == 2 * F64.pow2 a)%Q).
    { rewrite <- pow2_succ, <- pow2_add.
      replace (a - b + 1 + b) with (a + 1) by lia. reflexivity. }
    apply Qlt_le_trans with (2 * F64.pow2 a)%Q; [exact HA'|].
    rewrite <- He. apply Qmult_le_l; [exact Pp|exact HB]. }
  destruct (Qle_bool (F64.pow2 (a - b)) (n # d)) eqn:E.
  - apply Qle_bool_iff in E. split; [exact E|exact Hhi].
  - split; [exact Hlo|].
    replace (a - b - 1 + 1) with (a - b) by lia.
    apply Qnot_le_lt. intros H. apply Qle_bool_iff in H. congruence.
Qed.

(** The logarithm is determined by the binade. *)
Lemma ilog2_lt x k : (0 < x)%Q -> (x < F64.pow2 k)%Q -> F64.ilog2 x < k.
Proof.
  intros Hx H. destruct (ilog2_spec x Hx) as [Hl _].
  destruct (Z_lt_le_dec (F64.ilog2 x) k) as [Hlt|Hge]; [exact Hlt|].
  exfalso. pose proof (pow2_le _ _ Hge). lra.
Qed.

Lemma ilog2_ge x k : (F64.pow2 k <= x)%Q -> k <= F64.ilog2 x.
Proof.
  intros H. pose proof (pow2_pos k) as Pk.
  assert (Hx : (0 < x)%Q) by lra.
  destruct (ilog2_spec x Hx) as [_ Hu].
  destruct (Z_lt_le_dec (F64.ilog2 x) k) as [Hlt|Hge]; [|exact Hge].
  exfalso. assert (Hle : F64.ilog2 x + 1 <= k) by lia.
  pose proof (pow2_le _ _ Hle). lra.
Qed.

(** *** Rounding to an integer *)

Lemma rne_bounds x :
  (x - (1 # 2) <= inject_Z (F64.rne x) <= x + (1 # 2))%Q.
Proof.
  unfold F64.rne. pose proof (Qfloor_le x) as Hl.
  pose proof (Qlt_floor x) as Hu. rewrite inject_Z_plus in Hu.
  change (inject_Z 1) with 1%Q in Hu.
  destruct (x - inject_Z (Qfloor x) ?= 1 # 2)%Q eqn:E.
  - apply Qeq_alt in E.
    destruct (Z.even (Qfloor x)); [|rewrite inject_Z_plus;
      change (inject_Z 1) with 1%Q]; lra.
  - apply Qlt_alt in E. lra.
  - apply Qgt_alt in E. rewrite inject_Z_plus.
    change (inject_Z 1) with 1%Q. lra.
Qed.

Lemma rne_le_int x z : (x <= inject_Z z)%Q -> F64.rne x <= z.
Proof.
  intros H. destruct (rne_bounds x) as [_ Hu].
  assert (Hlt : (inject_Z (F64.rne x) < inject_Z (z + 1))%Q).
  { rewrite inject_Z_plus. change (inject_Z 1) with 1%Q. lra. }
  rewrite <- Zlt_Qlt in Hlt. lia.
Qed.

Lemma rne_ge_int x z : (inject_Z z <= x)%Q -> z <= F64.rne x.
Proof.
  intros H. destruct (rne_bounds x) as [Hl _].
  assert (Hlt : (inject_Z (z - 1) < inject_Z (F64.rne x))%Q).
  { unfold Z.sub. rewrite inject_Z_plus, inject_Z_opp.
    change (inject_Z 1) with 1%Q. lra. }
  rewrite <- Zlt_Qlt in Hlt. lia.
Qed.

(** *** Rounding to a double *)

Lemma Qabs_pos_lt x : ~ (x == 0)%Q -> (0 < Qabs x)%Q.
Proof.
  intros Hx. apply Qabs_case; intros Hs; apply Qle_lteq in Hs;
    destruct Hs as [Hs|Hs]; try lra; exfalso; apply Hx;
    first [exact Hs | symmetry; exact Hs].
Qed.

Lemma nearest_le x M E :
  (x <= inject_Z M * F64.pow2 E)%Q -> F64.ulp_exponent x <= E ->
  (F64.nearest x <= inject_Z M * F64.pow2 E)%Q.
Proof.
  intros Hx He. unfold F64.nearest. set (e := F64.ulp_exponent x) in *.
  pose proof (pow2_pos e) as Pe.
  assert (Hs : (F64.pow2 E == inject_Z (2 ^ (E - e)) * F64.pow2 e)%Q).
  { rewrite <- pow2_Z by lia. rewrite <- pow2_add.
    replace (E - e + e) with E by lia. reflexivity. }
  assert (Hi : F64.rne (x / F64.pow2 e) <= M * 2 ^ (E - e)).
  { apply rne_le_int. apply Qle_shift_div_r; [exact Pe|].
    rewrite inject_Z_mult, <- Qmult_assoc, <- Hs. exact Hx. }
  rewrite Hs, Qmult_assoc, <- inject_Z_mult.
  apply Qmult_le_compat_r; [|lra]. rewrite <- Zle_Qle. exact Hi.
Qed.

Lemma nearest_ge x M E :
  (inject_Z M * F64.pow2 E <= x)%Q -> F64.ulp_exponent x <= E ->
  (inject_Z M * F64.pow2 E <= F64.nearest x)%Q.
Proof.
  intros Hx He. unfold F64.nearest. set (e := F64.ulp_exponent x) in *.
  pose proof (pow2_pos e) as Pe.
  assert (Hs : (F64.pow2 E == inject_Z (2 ^ (E - e)) * F64.pow2 e)%Q).
  { rewrite <- pow2_Z by lia. rewrite <- pow2_add.
    replace (E - e + e) with E by lia. reflexivity. }
  assert (Hi : M * 2 ^ (E - e) <= F64.rne (x / F64.pow2 e)).
  { apply rne_ge_int. apply Qle_shift_div_l; [exact Pe|].
    rewrite inject_Z_mult, <- Qmult_assoc, <- Hs. exact Hx. }
  rewrite Hs, Qmult_assoc, <- inject_Z_mult.
  apply Qmult_le_compat_r; [|lra]. rewrite <- Zle_Qle. exact Hi.
Qed.

Lemma pow2_53 : (F64.pow2 53 == inject_Z (2 ^ 53))%Q.
Proof. apply pow2_Z. lia. Qed.

(** The magnitude of a grid point [M * 2^E] with [|M| < 2^53]. *)
Lemma grid_bounds M E :
  Z.abs M < 2 ^ 53 ->
  (- F64.pow2 (53 + E) < inject_Z M * F64.pow2 E < F64.pow2 (53 + E))%Q.
Proof.
  intros HM. pose proof (pow2_pos E) as PE.
  rewrite pow2_add, pow2_53.
  assert (H1 : (inject_Z M < inject_Z (2 ^ 53))%Q)
    by (rewrite <- Zlt_Qlt; lia).
  assert (H2 : (- inject_Z (2 ^ 53) < inject_Z M)%Q)
    by (rewrite <- inject_Z_opp, <- Zlt_Qlt; lia).
  split.
  - setoid_replace (- (inject_Z (2 ^ 53) * F64.pow2 E))%Q
      with ((- inject_Z (2 ^ 53)) * F64.pow2 E)%Q by ring.
    apply Qmult_lt_compat_r; assumption.
  - apply Qmult_lt_compat_r; assumption.
Qed.

(** When the unit in the last place of [x] is coarser than [2^E], [x] is
    at least [2^(52+e)] in magnitude, [e] being its exponent. *)
Lemma coarse_magnitude x E :
  ~ (x == 0)%Q -> F64.emin <= E -> E < F64.ulp_exponent x ->
  (F64.pow2 (52 + F64.ulp_exponent x) <= Qabs x)%Q.
Proof.
  intros Hx HE He. unfold F64.ulp_exponent in *.
  destruct (ilog2_spec (Qabs x) (Qabs_pos_lt x Hx)) as [Hl _].
  replace (52 + Z.max (F64.ilog2 (Qabs x) - 52) F64.emin)
    with (F64.ilog2 (Qabs x)) by lia.
  exact Hl.
Qed.

Lemma pow2_52 e : (F64.pow2 (52 + e) == inject_Z (2 ^ 52) * F64.pow2 e)%Q.
Proof. rewrite pow2_add, (pow2_Z 52) by lia. reflexivity. Qed.

Lemma nearest_le_grid x M E :
  ~ (x == 0)%Q ->
  (x <= inject_Z M * F64.pow2 E)%Q -> Z.abs M < 2 ^ 53 -> F64.emin <= E ->
  (F64.nearest x <= inject_Z M * F64.pow2 E)%Q.
Proof.
  intros H0 Hx HM HE.
  destruct (Z_le_gt_dec (F64.ulp_exponent x) E) as [He|He];
    [apply nearest_le; assumption|].
  pose proof (coarse_magnitude x E H0 HE ltac:(lia)) as Hc.
  destruct (grid_bounds M E HM) as [Hb1 Hb2].
  set (e := F64.ulp_exponent x) in *.
  assert (Hp : (F64.pow2 (53 + E) <= F64.pow2 (52 + e))%Q)
    by (apply pow2_le; lia).
  assert (Hneg : (x <= - F64.pow2 (52 + e))%Q).
  { revert Hc. apply Qabs_case; intros Hs Hc; lra. }
  assert (Hn : (F64.nearest x <= inject_Z (- 2 ^ 52) * F64.pow2 e)%Q).
  { apply nearest_le; [|apply Z.le_refl].
    rewrite inject_Z_opp. rewrite pow2_52 in Hneg. lra. }
  rewrite inject_Z_opp in Hn. rewrite pow2_52 in Hp. lra.
Qed.

Lemma nearest_ge_grid x M E :
  ~ (x == 0)%Q ->
  (inject_Z M * F64.pow2 E <= x)%Q -> Z.abs M < 2 ^ 53 -> F64.emin <= E ->
  (inject_Z M * F64.pow2 E <= F64.nearest x)%Q.
Proof.
  intros H0 Hx HM HE.
  destruct (Z_le_gt_dec (F64.ulp_exponent x) E) as [He|He];
    [apply nearest_ge; assumption|].
  pose proof (coarse_magnitude x E H0 HE ltac:(lia)) as Hc.
  destruct (grid_bounds M E HM) as [Hb1 Hb2].
  set (e := F64.ulp_exponent x) in *.
  assert (Hp : (F64.pow2 (53 + E) <= F64.pow2 (52 + e))%Q)
    by (apply pow2_le; lia).
  assert (Hpos : (F64.pow2 (52 + e) <= x)%Q).
  { revert Hc. apply Qabs_case; intros Hs Hc; lra. }
  assert (Hn : (inject_Z (2 ^ 52) * F64.pow2 e <= F64.nearest x)%Q).
  { apply nearest_ge; [|apply Z.le_refl]. rewrite pow2_52 in Hpos. lra. }
  rewrite pow2_52 in Hp. lra.
Qed.

Lemma round_zero x : (x == 0)%Q -> F64.round x = 0%Q.
Proof.
  intros H. unfold F64.round.
  assert (Hr : (Qred x == 0)%Q) by (rewrite Qred_correct; exact H).
  apply Qeq_bool_iff in Hr. rewrite Hr. reflexivity.
Qed.

Lemma round_nonzero x :
  ~ (x == 0)%Q -> (F64.round x == F64.nearest (Qred x))%Q.
Proof.
  intros H. unfold F64.round.
  destruct (Qeq_bool (Qred x) 0) eqn:E.
  - exfalso. apply H. apply Qeq_bool_iff in E. rewrite <- E.
    symmetry. apply Qred_correct.
  - apply Qred_correct.
Qed.

(** Rounding is a function of the value. *)
Lemma round_comp x y : (x == y)%Q -> F64.round x = F64.round y.
Proof.
  intros H. unfold F64.round. rewrite (Qred_complete x y H). reflexivity.
Qed.

(** Rounding never crosses a double: a number at most [M * 2^E], for a
    significand [M] of less than 53 bits, rounds to at most that. *)
Theorem round_le_grid x M E :
  (x <= inject_Z M * F64.pow2 E)%Q -> Z.abs M < 2 ^ 53 -> F64.emin <= E ->
  (F64.round x <= inject_Z M * F64.pow2 E)%Q.
Proof.
  intros Hx HM HE. destruct (Qeq_dec x 0) as [H0|H0].
  - rewrite (round_zero x H0). lra.
  - rewrite (round_nonzero x H0). apply nearest_le_grid; try assumption.
    + rewrite Qred_correct. exact H0.
    + rewrite Qred_correct. exact Hx.
Qed.

Theorem round_ge_grid x M E :
  (inject_Z M * F64.pow2 E <= x)%Q -> Z.abs M < 2 ^ 53 -> F64.emin <= E ->
  (inject_Z M * F64.pow2 E <= F64.round x)%Q.
Proof.
  intros Hx HM HE. destruct (Qeq_dec x 0) as [H0|H0].
  - rewrite (round_zero x H0). lra.
  - rewrite (round_nonzero x H0). apply nearest_ge_grid; try assumption.
    + rewrite Qred_correct. exact H0.
    + rewrite Qred_correct. exact Hx.
Qed.

(** Integers below [2^53] in magnitude are doubles, and bound the
    rounding. *)
Lemma round_le_int x z :
  (x <= inject_Z z)%Q -> Z.abs z < 2 ^ 53 -> (F64.round x <= inject_Z z)%Q.
Proof.
  intros H Hz. pose proof (round_le_grid x z 0) as Hr.
  rewrite pow2_0, Qmult_1_r in Hr. apply Hr; [exact H|exact Hz|].
  unfold F64.emin. lia.
Qed.

Lemma round_ge_int x z :
  (inject_Z z <= x)%Q -> Z.abs z < 2 ^ 53 -> (inject_Z z <= F64.round x)%Q.
Proof.
  intros H Hz. pose proof (round_ge_grid x z 0) as Hr.
  rewrite pow2_0, Qmult_1_r in Hr. apply Hr; [exact H|exact Hz|].
  unfold F64.emin. lia.
Qed.

Lemma round_exact_grid M E :
  Z.abs M < 2 ^ 53 -> F64.emin <= E ->
  (F64.round (inject_Z M * F64.pow2 E) == inject_Z M * F64.pow2 E)%Q.
Proof.
  intros HM HE. apply Qle_antisym.
  - apply round_le_grid; [apply Qle_refl|assumption|assumption].
  - apply round_ge_grid; [apply Qle_refl|assumption|assumption].
Qed.

Lemma round_exact_int z :
  Z.abs z < 2 ^ 53 -> (F64.round (inject_Z z) == inject_Z z)%Q.
Proof.
  intros Hz. apply Qle_antisym.
  - apply round_le_int; [apply Qle_refl|exact Hz].
  - apply round_ge_int; [apply Qle_refl|exact Hz].
Qed.

Lemma floor_half_le w k : (w < inject_Z k + (1 # 2))%Q -> Qfloor (w + (1 # 2)) <= k.
Proof.
  intros H. pose proof (Qfloor_le (w + (1 # 2))) as Hf.
  assert (Hlt : (inject_Z (Qfloor (w + (1 # 2))) < inject_Z (k + 1))%Q).
  { rewrite inject_Z_plus. change (inject_Z 1) with 1%Q. lra. }
  rewrite <- Zlt_Qlt in Hlt. lia.
Qed.

Lemma floor_half_ge w k : (inject_Z k - (1 # 2) <= w)%Q -> k <= Qfloor (w + (1 # 2)).
Proof.
  intros H. rewrite <- (Qfloor_Z k) at 1. apply Qfloor_resp_le. lra.
Qed.

(** Rounding moves a number of magnitude at most [2^(52+E)] by at most
    [2^E]. *)
Lemma round_near x E :
  F64.emin <= E -> (Qabs x <= F64.pow2 (52 + E))%Q ->
  (x - F64.pow2 E <= F64.round x <= x + F64.pow2 E)%Q.
Proof.
  intros HE Hx. pose proof (pow2_pos E) as Hp.
  rewrite pow2_52 in Hx.
  apply Qabs_Qle_condition in Hx. destruct Hx as [Hlo Hhi].
  set (y := (x / F64.pow2 E)%Q).
  assert (Hy : (y * F64.pow2 E == x)%Q).
  { unfold y. field. lra. }
  assert (Hylo : (inject_Z (- 2 ^ 52) <= y)%Q).
  { unfold y. apply Qle_shift_div_l; [exact Hp|].
    rewrite inject_Z_opp. lra. }
  assert (Hyhi : (y <= inject_Z (2 ^ 52))%Q).
  { unfold y. apply Qle_shift_div_r; [exact Hp|]. lra. }
  pose proof (Qfloor_le y) as Hf1. pose proof (Qlt_floor y) as Hf2.
  pose proof (Qle_ceiling y) as Hc1. pose proof (Qceiling_lt y) as Hc2.
  assert (Hfb : - 2 ^ 52 <= Qfloor y <= 2 ^ 52).
  { split.
    - rewrite <- (Qfloor_Z (- 2 ^ 52)). apply Qfloor_resp_le. exact Hylo.
    - rewrite <- (Qfloor_Z (2 ^ 52)). apply Qfloor_resp_le. exact Hyhi. }
  assert (Hcb : - 2 ^ 52 <= Qceiling y <= 2 ^ 52).
  { split.
    - rewrite <- (Qceiling_Z (- 2 ^ 52)). apply Qceiling_resp_le. exact Hylo.
    - rewrite <- (Qceiling_Z (2 ^ 52)). apply Qceiling_resp_le. exact Hyhi. }
  rewrite inject_Z_plus in Hf2. change (inject_Z 1) with 1%Q in Hf2.
  unfold Z.sub in Hc2. rewrite inject_Z_plus, inject_Z_opp in Hc2.
  change (inject_Z 1) with 1%Q in Hc2.
  split.
  - apply Qle_trans with (inject_Z (Qfloor y) * F64.pow2 E)%Q.
    + rewrite <- Hy.
      setoid_replace (y * F64.pow2 E - F64.pow2 E)%Q
        with ((y - 1) * F64.pow2 E)%Q by ring.
      apply Qmult_le_compat_r; lra.
    + apply round_ge_grid; [|lia|exact HE].
      rewrite <- Hy. apply Qmult_le_compat_r; lra.
  - apply Qle_trans with (inject_Z (Qceiling y) * F64.pow2 E)%Q.
    + apply round_le_grid; [|lia|exact HE].
      rewrite <- Hy. apply Qmult_le_compat_r; lra.
    + rewrite <- Hy.
      setoid_replace (y * F64.pow2 E + F64.pow2 E)%Q
        with ((y + 1) * F64.pow2 E)%Q by ring.
      apply Qmult_le_compat_r; lra.
Qed.

Lemma round_unit x :
  (0 <= x <= 1)%Q ->
  (0 <= F64.round x <= 1
   /\ x - (1 # 4503599627370496) <= F64.round x
      <= x + (1 # 4503599627370496))%Q.
Proof.
  intros [H0 H1]. split.
  - split.
    + apply (round_ge_int x 0); [exact H0|reflexivity].
    + apply (round_le_int x 1); [exact H1|reflexivity].
  - apply (round_near x (-52)); [unfold F64.emin; lia|].
    rewrite Qabs_pos by exact H0. exact H1.
Qed.

Lemma ratio_unit c t :
  0 <= c <= t -> 0 < t -> (0 <= inject_Z c / inject_Z t <= 1)%Q.
Proof.
  intros Hc Ht.
  assert (HT : (0 < inject_Z t)%Q) by (rewrite (Zlt_Qlt 0 t) in Ht; exact Ht).
  split.
  - apply Qle_shift_div_l; [exact HT|]. rewrite Qmult_0_l.
    rewrite (Zle_Qle 0 c) in Hc. tauto.
  - apply Qle_shift_div_r; [exact HT|]. rewrite Qmult_1_l.
    rewrite (Zle_Qle c t) in Hc. tauto.
Qed.

Lemma Math_round_percent_bounds c t :
  0 <= c <= t -> 0 < t ->
  0 <= JS.Math_round (F64.round (F64.round (inject_Z c / inject_Z t) * 100))%Q <= 100.
Proof.
  intros Hc Ht. unfold JS.Math_round.
  destruct (round_unit _ (ratio_unit c t Hc Ht)) as [[H0 H1] _].
  set (q := F64.round (inject_Z c / inject_Z t)) in *.
  split.
  - apply floor_half_ge.
    assert (H : (inject_Z 0 <= F64.round (q * 100))%Q).
    { apply round_ge_int; [|reflexivity]. change (inject_Z 0) with 0%Q. lra. }
    change (inject_Z 0) with 0%Q in *. lra.
  - apply floor_half_le.
    assert (H : (F64.round (q * 100) <= inject_Z 100)%Q).
    { apply round_le_int; [|reflexivity]. change (inject_Z 100) with 100%Q. lra. }
    change (inject_Z 100) with 100%Q in *. lra.
Qed.

(** The exact value of [100 * c / t], split at the nearest integer. *)
Lemma percent_split c t :
  0 <= c <= t -> 0 < t <= 8796093022208 ->
  let K := (200 * c + t) / (2 * t) in
  let r := (200 * c + t) mod (2 * t) in
  0 <= K <= 100 /\
  exists rho : Q,
    (inject_Z c / inject_Z t * 100 == inject_Z K - (1 # 2) + rho)%Q
    /\ (r = 0 -> (rho == 0)%Q)
    /\ (r <> 0 -> ((1 # 17592186044416) <= rho)%Q)
    /\ (0 <= rho <= 1 - (1 # 17592186044416))%Q.
Proof.
  intros Hc Ht K r.
  assert (Hdm : 200 * c + t = 2 * t * K + r) by (apply Z.div_mod; lia).
  assert (Hr : 0 <= r < 2 * t) by (apply Z.mod_pos_bound; lia).
  assert (HK : 0 <= K <= 100) by (clearbody K r; nia).
  split; [exact HK|].
  assert (HT : (0 < inject_Z t)%Q).
  { destruct Ht as [Ht _]. rewrite (Zlt_Qlt 0 t) in Ht. exact Ht. }
  assert (HT' : (inject_Z t <= 8796093022208)%Q).
  { change 8796093022208%Q with (inject_Z 8796093022208).
    rewrite <- Zle_Qle. lia. }
  assert (HQ : (200 * inject_Z c + inject_Z t
                == 2 * inject_Z t * inject_Z K + inject_Z r)%Q).
  { change 200%Q with (inject_Z 200). change 2%Q with (inject_Z 2).
    rewrite <- !inject_Z_mult, <- !inject_Z_plus. rewrite Hdm. reflexivity. }
  assert (HR0 : (0 <= inject_Z r)%Q).
  { destruct Hr as [Hr _]. rewrite (Zle_Qle 0 r) in Hr. exact Hr. }
  assert (HR1 : (inject_Z r <= 2 * inject_Z t - 1)%Q).
  { change 2%Q with (inject_Z 2). change 1%Q with (inject_Z 1).
    rewrite <- inject_Z_mult. unfold Qminus. rewrite <- inject_Z_opp.
    rewrite <- inject_Z_plus, <- Zle_Qle. lia. }
  assert (HR2 : r <> 0 -> (1 <= inject_Z r)%Q).
  { intros Hne. change 1%Q with (inject_Z 1). rewrite <- Zle_Qle. lia. }
  assert (HR3 : r = 0 -> (inject_Z r == 0)%Q) by (intros ->; reflexivity).
  exists (inject_Z r / inject_Z t / 2)%Q.
  revert HT HT' HQ HR0 HR1 HR2 HR3.
  generalize (inject_Z K) (inject_Z c) (inject_Z t) (inject_Z r).
  intros Kq C T R HT HT' HQ HR0 HR1 HR2 HR3.
  split; [|split; [|split]].
  - assert (HC : (C == (2 * T * Kq + R - T) * (1 # 200))%Q) by lra. rewrite HC.
    field. lra.
  - intros E. rewrite (HR3 E). unfold Qdiv. ring.
  - intros Hne. specialize (HR2 Hne).
    apply Qle_shift_div_l; [reflexivity|].
    apply Qle_shift_div_l; [exact HT|]. lra.
  - split.
    + apply Qle_shift_div_l; [reflexivity|].
      apply Qle_shift_div_l; [exact HT|]. lra.
    + apply Qle_shift_div_r; [reflexivity|].
      apply Qle_shift_div_r; [exact HT|]. lra.
Qed.

(** In double precision the percentage is the rounded exact percentage,
    or one less when the exact percentage is halfway between two
    integers. *)
Lemma Math_round_percent_nearest c t :
  0 <= c <= t -> 0 < t <= 8796093022208 ->
  let K := (200 * c + t) / (2 * t) in
  JS.Math_round (F64.round (F64.round (inject_Z c / inject_Z t) * 100))%Q = K
  \/ ((200 * c + t) mod (2 * t) = 0
      /\ JS.Math_round (F64.round (F64.round (inject_Z c / inject_Z t) * 100))%Q = K - 1).
Proof.
  intros Hc Ht K.
  destruct (percent_split c t Hc Ht) as [HK [rho [Hv [Htie [Hno Hrho]]]]].
  fold K in HK, Hv.
  destruct (round_unit _ (ratio_unit c t Hc (proj1 Ht))) as [_ Hq].
  unfold JS.Math_round.
  set (q := F64.round (inject_Z c / inject_Z t)) in *.
  set (x := (inject_Z c / inject_Z t)%Q) in *.
  assert (Hup : Qfloor (F64.round (q * 100) + (1 # 2)) <= K).
  { apply floor_half_le.
    assert (H : (F64.round (q * 100)
                 <= inject_Z ((2 * K + 1) * 2 ^ 44 - 1) * F64.pow2 (-45))%Q).
    { apply round_le_grid; [| lia | unfold F64.emin; lia].
      setoid_replace (F64.pow2 (-45)) with (1 # 35184372088832)%Q by reflexivity.
      unfold Z.sub. rewrite inject_Z_plus, inject_Z_mult, inject_Z_plus,
        inject_Z_mult.
      change (inject_Z (2 ^ 44)) with 17592186044416%Q.
      change (inject_Z (- (1))) with (-1)%Q.
      change (inject_Z 2) with 2%Q. change (inject_Z 1) with 1%Q.
      lra. }
    setoid_replace (F64.pow2 (-45)) with (1 # 35184372088832)%Q in H
      by reflexivity.
    unfold Z.sub in H. rewrite inject_Z_plus, inject_Z_mult, inject_Z_plus,
      inject_Z_mult in H.
    change (inject_Z (2 ^ 44)) with 17592186044416%Q in H.
    change (inject_Z (- (1))) with (-1)%Q in H.
    change (inject_Z 2) with 2%Q in H. change (inject_Z 1) with 1%Q in H.
    lra. }
  assert (Hgrid : forall j : Z, -3 <= j <= 201 ->
            (inject_Z j * (1 # 2) <= q * 100)%Q ->
            (inject_Z j * (1 # 2) <= F64.round (q * 100))%Q).
  { intros j Hj H.
    change (1 # 2)%Q with (F64.pow2 (-1)).
    apply round_ge_grid; [exact H | lia | unfold F64.emin; lia]. }
  destruct (Z.eq_dec ((200 * c + t) mod (2 * t)) 0) as [E|E].
  - assert (Hlo : K - 1 <= Qfloor (F64.round (q * 100) + (1 # 2))).
    { apply floor_half_ge.
      pose proof (Hgrid (2 * K - 3) ltac:(lia)) as H.
      unfold Z.sub in H |- *. rewrite inject_Z_plus, inject_Z_mult in H.
      rewrite inject_Z_plus.
      change (inject_Z (- (3))) with (-3)%Q in H.
      change (inject_Z (- (1))) with (-1)%Q.
      change (inject_Z 2) with 2%Q in H.
      assert (H' : ((2 * inject_Z K + -3) * (1 # 2) <= q * 100)%Q) by lra.
      specialize (H H'). lra. }
    destruct (Z.eq_dec (Qfloor (F64.round (q * 100) + (1 # 2))) K) as [E'|E'].
    + left. exact E'.
    + right. split; [exact E|lia].
  - left. apply Z.le_antisymm; [exact Hup|].
    apply floor_half_ge. specialize (Hno E).
    pose proof (Hgrid (2 * K - 1) ltac:(lia)) as H.
    unfold Z.sub in H. rewrite inject_Z_plus, inject_Z_mult in H.
    change (inject_Z (- (1))) with (-1)%Q in H.
    change (inject_Z 2) with 2%Q in H.
    assert (H' : ((2 * inject_Z K + -1) * (1 # 2) <= q * 100)%Q) by lra.
    specialize (H H'). lra.
Qed.

Lemma round_nonneg x : (0 <= x)%Q -> (0 <= F64.round x)%Q.
Proof. intros H. apply (round_ge_int x 0); [exact H|reflexivity]. Qed.

Lemma round_nonpos x : (x <= 0)%Q -> (F64.round x <= 0)%Q.
Proof. intros H. apply (round_le_int x 0); [exact H|reflexivity]. Qed.

Lemma Math_round_change c p :
  0 <= c -> 0 < p ->
  let change :=
    JS.Math_round (F64.round (F64.round (inject_Z (c - p) / inject_Z p) * 100))%Q in
  -100 <= change
  /\ (c = p -> change = 0)
  /\ (c < p -> change <= 0)
  /\ (p < c -> 0 <= change)
  /\ (c = 0 -> change = -100)
  /\ (c = 2 * p -> change = 100).
Proof.
  intros Hc Hp change. subst change. unfold JS.Math_round.
  assert (HP : (0 < inject_Z p)%Q) by (rewrite (Zlt_Qlt 0 p) in Hp; exact Hp).
  assert (Hexact : forall z : Z, Z.abs z <= 1 -> c - p = z * p ->
            Qfloor (F64.round (F64.round (inject_Z (c - p) / inject_Z p) * 100)
                    + (1 # 2)) = 100 * z).
  { intros z Hz E. rewrite E.
    assert (Hx : (inject_Z (z * p) / inject_Z p == inject_Z z)%Q).
    { rewrite inject_Z_mult. field. lra. }
    rewrite (round_comp _ _ Hx).
    assert (Hq : (F64.round (inject_Z z) * 100 == inject_Z (100 * z))%Q).
    { rewrite round_exact_int by lia. rewrite inject_Z_mult.
      change (inject_Z 100) with 100%Q. ring. }
    rewrite (round_comp _ _ Hq).
    assert (Hw : (F64.round (inject_Z (100 * z)) + (1 # 2)
                  == inject_Z (100 * z) + (1 # 2))%Q).
    { rewrite round_exact_int by lia. reflexivity. }
    rewrite (Qfloor_comp _ _ Hw).
    apply Z.le_antisymm.
    - apply floor_half_le. lra.
    - apply floor_half_ge. lra. }
  assert (Hlow : (-1 <= inject_Z (c - p) / inject_Z p)%Q).
  { apply Qle_shift_div_l; [exact HP|].
    unfold Z.sub. rewrite inject_Z_plus, inject_Z_opp.
    assert (H : (0 <= inject_Z c)%Q) by (rewrite (Zle_Qle 0 c) in Hc; exact Hc).
    lra. }
  split; [|split; [|split; [|split; [|split]]]].
  - apply floor_half_ge.
    assert (Hq : (inject_Z (-1) <= F64.round (inject_Z (c - p) / inject_Z p))%Q).
    { apply round_ge_int; [exact Hlow|reflexivity]. }
    change (inject_Z (-1)) with (-1)%Q in Hq.
    assert (Hw : (inject_Z (-100)
                  <= F64.round (F64.round (inject_Z (c - p) / inject_Z p) * 100))%Q).
    { apply round_ge_int; [|reflexivity].
      change (inject_Z (-100)) with (-100)%Q. lra. }
    change (inject_Z (-100)) with (-100)%Q in *. lra.
  - intros E. apply (Hexact 0); lia.
  - intros Hlt. apply floor_half_le.
    assert (Hx : (inject_Z (c - p) / inject_Z p <= 0)%Q).
    { apply Qle_shift_div_r; [exact HP|]. rewrite Qmult_0_l.
      change 0%Q with (inject_Z 0). rewrite <- Zle_Qle. lia. }
    pose proof (round_nonpos _ Hx) as Hq.
    assert (Hw : (F64.round (F64.round (inject_Z (c - p) / inject_Z p) * 100)
                  <= 0)%Q) by (apply round_nonpos; lra).
    change (inject_Z 0) with 0%Q. lra.
  - intros Hlt. apply floor_half_ge.
    assert (Hx : (0 <= inject_Z (c - p) / inject_Z p)%Q).
    { apply Qle_shift_div_l; [exact HP|]. rewrite Qmult_0_l.
      change 0%Q with (inject_Z 0). rewrite <- Zle_Qle. lia. }
    pose proof (round_nonneg _ Hx) as Hq.
    assert (Hw : (0 <= F64.round
                         (F64.round (inject_Z (c - p) / inject_Z p) * 100))%Q)
      by (apply round_nonneg; lra).
    change (inject_Z 0) with 0%Q. lra.
  - intros E. apply (Hexact (-1)); lia.
  - intros E. apply (Hexact 1); lia.
Qed.

(** A number below [2^53] in magnitude does not overflow. *)
Lemma overflows_bounded x z :
  (Qabs x <= inject_Z z)%Q -> z < 2 ^ 53 -> F64.overflows x = false.
Proof.
  intros Hx Hz. apply Qabs_Qle_condition in Hx. destruct Hx as [Hlo Hhi].
  assert (Hz0 : 0 <= z).
  { rewrite Zle_Qle. change (inject_Z 0) with 0%Q. lra. }
  unfold F64.overflows. destruct (Qle_bool _ _) eqn:E; [|reflexivity].
  apply Qle_bool_iff in E. exfalso.
  assert (H1 : (F64.round x <= inject_Z z)%Q) by (apply round_le_int; [exact Hhi|lia]).
  assert (H2 : (inject_Z (- z) <= F64.round x)%Q).
  { apply round_ge_int; [rewrite inject_Z_opp; exact Hlo|lia]. }
  rewrite inject_Z_opp in H2.
  assert (H3 : (Qabs (F64.round x) <= inject_Z z)%Q).
  { apply Qabs_Qle_condition. split; assumption. }
  assert (H4 : (inject_Z z < inject_Z (2 ^ 53))%Q) by (rewrite <- Zlt_Qlt; exact Hz).
  pose proof (pow2_lt 53 1024 ltac:(lia)) as H5. rewrite pow2_53 in H5.
  lra.
Qed.

(** The mean of [n] half-integers, of sum [S2 / 2]: rounding the mean to a
    double does not move it across a half. *)
Lemma mean_round_exact y S2 n :
  0 < n -> n <= S2 <= 2 ^ 50 ->
  (y * inject_Z (2 * n) == inject_Z S2)%Q ->
  Qfloor (F64.round y + (1 # 2)) = Qfloor (y + (1 # 2)).
Proof.
  intros Hn HS Hy.
  set (K := (S2 + n) / (2 * n)). set (r := (S2 + n) mod (2 * n)).
  assert (Hdm : S2 + n = 2 * n * K + r) by (apply Z.div_mod; lia).
  assert (Hr : 0 <= r < 2 * n) by (apply Z.mod_pos_bound; lia).
  assert (HK : 0 <= K) by (apply Z.div_pos; lia).
  assert (HnK : 2 * n * K <= S2 + n) by lia.
  assert (HKS : K <= S2 + 1) by (clearbody K r; nia).
  assert (HN : (0 < inject_Z (2 * n))%Q).
  { change 0%Q with (inject_Z 0). rewrite <- Zlt_Qlt. lia. }
  assert (Hlo : (inject_Z (2 * n) * (inject_Z K - (1 # 2)) <= inject_Z S2)%Q).
  { assert (H : (inject_Z (2 * n * K - n) <= inject_Z S2)%Q)
      by (rewrite <- Zle_Qle; lia).
    unfold Z.sub in H. rewrite inject_Z_plus, inject_Z_opp, inject_Z_mult in H.
    assert (Hh : (inject_Z (2 * n) == 2 * inject_Z n)%Q)
      by (rewrite inject_Z_mult; reflexivity).
    rewrite Hh in *.
    setoid_replace (2 * inject_Z n * (inject_Z K - (1 # 2)))%Q
      with (2 * inject_Z n * inject_Z K + - inject_Z n)%Q by ring.
    exact H. }
  assert (Hhi : (inject_Z S2 + 1
                 <= inject_Z (2 * n) * (inject_Z K + (1 # 2)))%Q).
  { assert (H : (inject_Z (S2 + 1) <= inject_Z (2 * n * K + n))%Q)
      by (rewrite <- Zle_Qle; lia).
    rewrite !inject_Z_plus, inject_Z_mult in H.
    assert (Hh : (inject_Z (2 * n) == 2 * inject_Z n)%Q)
      by (rewrite inject_Z_mult; reflexivity).
    rewrite Hh in *. change (inject_Z 1) with 1%Q in H.
    setoid_replace (2 * inject_Z n * (inject_Z K + (1 # 2)))%Q
      with (2 * inject_Z n * inject_Z K + inject_Z n)%Q by ring.
    exact H. }
  assert (Hy1 : (inject_Z K - (1 # 2) <= y)%Q).
  { apply (Qmult_le_r _ _ _ HN). rewrite Hy.
    rewrite Qmult_comm. exact Hlo. }
  set (j := Z.log2_up (2 * n)).
  assert (Hj : 2 ^ Z.pred j < 2 * n <= 2 ^ j) by (apply Z.log2_up_spec; lia).
  assert (Hj1 : 1 <= j).
  { destruct (Z.le_gt_cases 1 j) as [H|H]; [exact H|].
    assert (2 ^ j <= 2 ^ 0) by (apply Z.pow_le_mono_r; lia).
    change (2 ^ 0) with 1 in *. lia. }
  assert (Hj2 : j <= 51).
  { destruct (Z.le_gt_cases j 51) as [H|H]; [exact H|].
    assert (2 ^ 51 <= 2 ^ Z.pred j) by (apply Z.pow_le_mono_r; lia).
    lia. }
  assert (HP : (F64.pow2 (- j) * inject_Z (2 * n) <= 1)%Q).
  { apply Qle_trans with (F64.pow2 (- j) * inject_Z (2 ^ j))%Q.
    - apply Qmult_le_l; [apply pow2_pos|]. rewrite <- Zle_Qle. lia.
    - rewrite <- pow2_Z by lia. rewrite <- pow2_add.
      replace (- j + j) with 0 by lia. apply Qle_refl. }
  assert (HA : (inject_Z (2 ^ Z.pred j) * F64.pow2 (- j) == 1 # 2)%Q).
  { rewrite <- pow2_Z by lia. rewrite <- pow2_add.
    replace (Z.pred j + - j) with (-1) by lia. reflexivity. }
  pose proof (pow2_pos (- j)) as HPpos.
  assert (Hy2 : (y <= inject_Z ((2 * K + 1) * 2 ^ Z.pred j - 1)
                      * F64.pow2 (- j))%Q).
  { unfold Z.sub. rewrite inject_Z_plus, inject_Z_mult, inject_Z_plus,
      inject_Z_mult.
    change (inject_Z (- (1))) with (-1)%Q. change (inject_Z 2) with 2%Q.
    change (inject_Z 1) with 1%Q.
    setoid_replace (((2 * inject_Z K + 1) * inject_Z (2 ^ Z.pred j) + -1)
                    * F64.pow2 (- j))%Q
      with ((2 * inject_Z K + 1)
            * (inject_Z (2 ^ Z.pred j) * F64.pow2 (- j))
            - F64.pow2 (- j))%Q by ring.
    rewrite HA.
    apply (Qmult_le_r _ _ _ HN). rewrite Hy.
    revert Hhi HP HN HPpos.
    generalize (F64.pow2 (- j)) (inject_Z (2 * n)) (inject_Z K) (inject_Z S2).
    intros P N Kq Sq Hhi HP HN HPpos.
    setoid_replace (((2 * Kq + 1) * (1 # 2) - P) * N)%Q
      with (N * (Kq + (1 # 2)) - P * N)%Q by ring.
    lra. }
  assert (HM : Z.abs ((2 * K + 1) * 2 ^ Z.pred j - 1) < 2 ^ 53).
  { assert (H2 : 0 < 2 ^ Z.pred j) by (apply Z.pow_pos_nonneg; lia).
    assert (H3 : (2 * K + 1) * 2 ^ Z.pred j <= (2 * K + 1) * (2 * n))
      by (apply Z.mul_le_mono_nonneg_l; lia).
    assert (H4 : (2 * K + 1) * (2 * n) <= 6 * S2) by lia.
    assert (H5 : 1 <= (2 * K + 1) * 2 ^ Z.pred j) by nia.
    change (2 ^ 53) with 9007199254740992.
    change (2 ^ 50) with 1125899906842624 in HS. lia. }
  assert (Hr1 : (inject_Z K - (1 # 2) <= F64.round y)%Q).
  { pose proof (round_ge_grid y (2 * K - 1) (-1)) as H.
    change (F64.pow2 (-1)) with (1 # 2)%Q in H.
    unfold Z.sub in H. rewrite inject_Z_plus, inject_Z_mult in H.
    change (inject_Z (- (1))) with (-1)%Q in H.
    change (inject_Z 2) with 2%Q in H.
    assert (H' : ((2 * inject_Z K + -1) * (1 # 2) <= F64.round y)%Q).
    { apply H; [lra | | unfold F64.emin; lia].
      change (2 ^ 53) with 9007199254740992.
      change (2 ^ 50) with 1125899906842624 in HS. lia. }
    lra. }
  assert (Hr2 : (F64.round y <= inject_Z ((2 * K + 1) * 2 ^ Z.pred j - 1)
                                * F64.pow2 (- j))%Q).
  { apply round_le_grid; [exact Hy2 | exact HM | unfold F64.emin; lia]. }
  assert (Hg : (inject_Z ((2 * K + 1) * 2 ^ Z.pred j - 1) * F64.pow2 (- j)
                < inject_Z K + (1 # 2))%Q).
  { unfold Z.sub. rewrite inject_Z_plus, inject_Z_mult, inject_Z_plus,
      inject_Z_mult.
    change (inject_Z (- (1))) with (-1)%Q. change (inject_Z 2) with 2%Q.
    change (inject_Z 1) with 1%Q.
    setoid_replace (((2 * inject_Z K + 1) * inject_Z (2 ^ Z.pred j) + -1)
                    * F64.pow2 (- j))%Q
      with ((2 * inject_Z K + 1)
            * (inject_Z (2 ^ Z.pred j) * F64.pow2 (- j))
            - F64.pow2 (- j))%Q by ring.
    rewrite HA. lra. }
  transitivity K.
  - apply Z.le_antisymm; [apply floor_half_le; lra | apply floor_half_ge; lra].
  - symmetry.
    apply Z.le_antisymm; [apply floor_half_le; lra | apply floor_half_ge; lra].
Qed.

(* ===================================================================== *)
(** ** Lemmas on queries *)
(* ===================================================================== *)

Section QueryFacts.
Context {D : Type} (p q : D -> bool) (f : D -> D).
Hypothesis p_stable : forall d, p (f d) = p d.

Lemma find_updateOne_cases (l : list D) :
  match find p l with
  | Some d => find p (Query.updateOne q f l) = Some d
              \/ find p (Query.updateOne q f l) = Some (f d)
  | None => find p (Query.updateOne q f l) = None
  end.
Proof.
  induction l as [|d l IH]; simpl; [reflexivity|].
  destruct (q d) eqn:Hq; simpl.
  - rewrite p_stable. destruct (p d); [right; reflexivity|].
    destruct (find p l); auto.
  - destruct (p d); [left; reflexivity | exact IH].
Qed.
End QueryFacts.

Lemma find_updateOne_same {D} (p : D -> bool) (f : D -> D) (l : list D) :
  (forall d, p (f d) = p d) ->
  find p (Query.updateOne p f l) = option_map f (find p l).
Proof.
  intros Hst. induction l as [|d l IH]; simpl; [reflexivity|].
  destruct (p d) eqn:Hp; simpl.
  - rewrite Hst, Hp. reflexivity.
  - rewrite Hp. exact IH.
Qed.

Lemma hasId_applyUpdate id u a : hasId id (applyUpdate u a) = hasId id a.
Proof. reflexivity. Qed.

Lemma includes_In l x : JS.includes l x = true <-> In x l.
Proof.
  induction l as [|y l IH]; simpl.
  - split; [discriminate | tauto].
  - rewrite orb_true_iff, IH, String.eqb_eq. tauto.
Qed.

#[local] Arguments String.eqb : simpl never.
#[local] Arguments JS.includes : simpl never.

(* ===================================================================== *)
(** ** The tracker: what each handler does *)
(* ===================================================================== *)

Ltac run_monad :=
  unfold Application_findById, Application_findByIdAndUpdate,
    Application_findOne_user_job, Job_findById, Application_create,
    Application_remove, populate, castObjectId, castPath, getApplicationDocs,
    getJobDocs, putApplicationDocs, Date_now, newObjectId, bind, ret, throw,
    Query.findOne;
  simpl.

(** A request with a status outside the list is answered before anything
    is read. *)
Lemma update_invalid env s userId id st :
  Tracker.includesStatus st = false ->
  Tracker.updateApplicationStatus userId id st env s
  = (Thrown (ErrorResponse "Invalid status" 400), s).
Proof.
  intros H. unfold Tracker.updateApplicationStatus. rewrite H. reflexivity.
Qed.

Lemma update_not_castable env s userId id st :
  Tracker.includesStatus st = true ->
  isObjectId env id = false ->
  Tracker.updateApplicationStatus userId id st env s = (Thrown CastError, s).
Proof.
  intros H Hc. unfold Tracker.updateApplicationStatus. rewrite H. simpl.
  run_monad. rewrite Hc. reflexivity.
Qed.

Lemma update_missing env s userId id st :
  Tracker.includesStatus st = true ->
  isObjectId env id = true ->
  lookup id s = None ->
  Tracker.updateApplicationStatus userId id st env s
  = (Thrown (ErrorResponse "Application not found" 404), s).
Proof.
  intros H Hc Hl. unfold Tracker.updateApplicationStatus. rewrite H. simpl.
  run_monad. rewrite Hc. unfold lookup, Query.findOne in Hl. rewrite Hl.
  reflexivity.
Qed.

Lemma update_foreign env s userId id st a :
  Tracker.includesStatus st = true ->
  isObjectId env id = true ->
  lookup id s = Some a ->
  user a <> userId ->
  Tracker.updateApplicationStatus userId id st env s
  = (Thrown (ErrorResponse "Not authorized to update this application" 403), s).
Proof.
  intros H Hc Hl Hu. unfold Tracker.updateApplicationStatus. rewrite H. simpl.
  run_monad. rewrite Hc. unfold lookup, Query.findOne in Hl. rewrite Hl.
  apply String.eqb_neq in Hu. rewrite Hu. reflexivity.
Qed.

(** The owner's request with a listed status goes through: the first
    document with that id receives the update document, nothing else is
    written. *)
Lemma update_ok env s id requested a :
  Tracker.includesStatus (Some requested) = true ->
  isObjectId env id = true ->
  lookup id s = Some a ->
  let u := updateDataFor env (ticks s) a requested in
  exists n,
    Tracker.updateApplicationStatus (user a) id (Some requested) env s
    = (Value (200, Some (applyUpdate u a,
                         Query.findOne
                           (fun j => String.eqb (job_id j) (job a)) (jobs s))),
       mkStore (Query.updateOne (hasId id) (applyUpdate u) (applications s))
               (jobs s) n (minted s)).
Proof.
  intros H Hc Hl u. subst u.
  unfold Tracker.updateApplicationStatus. rewrite H. simpl.
  assert (Hen : JS.includes statusEnum requested = true) by exact H.
  unfold lookup, Query.findOne in Hl.
  unfold updateDataFor, entersApplied, entersResponse.
  run_monad. rewrite Hc, Hl. rewrite String.eqb_refl. simpl.
  destruct (String.eqb requested "applied") eqn:Ea;
    destruct (String.eqb (status a) "applied") eqn:Eb; simpl;
    destruct (String.eqb requested "offer") eqn:Ec;
    destruct (String.eqb requested "rejected") eqn:Ed; simpl;
    destruct (String.eqb (status a) "offer") eqn:Ee;
    destruct (String.eqb (status a) "rejected") eqn:Ef; simpl;
    try (apply String.eqb_eq in Ea; apply String.eqb_eq in Ec; congruence);
    try (apply String.eqb_eq in Ea; apply String.eqb_eq in Ed; congruence);
    rewrite ?Hc; simpl; rewrite ?Hen; simpl; rewrite ?Hl; simpl;
    eexists; reflexivity.
Qed.

Lemma delete_not_castable env s userId id :
  isObjectId env id = false ->
  Tracker.deleteApplication userId id env s = (Thrown CastError, s).
Proof.
  intros Hc. unfold Tracker.deleteApplication. run_monad. rewrite Hc.
  reflexivity.
Qed.

Lemma delete_missing env s userId id :
  isObjectId env id = true ->
  lookup id s = None ->
  Tracker.deleteApplication userId id env s
  = (Thrown (ErrorResponse "Application not found" 404), s).
Proof.
  intros Hc Hl. unfold Tracker.deleteApplication. run_monad. rewrite Hc.
  unfold lookup, Query.findOne in Hl. rewrite Hl. reflexivity.
Qed.

Lemma delete_foreign env s userId id a :
  isObjectId env id = true ->
  lookup id s = Some a ->
  String.eqb (user a) userId = false ->
  Tracker.deleteApplication userId id env s
  = (Thrown (ErrorResponse "Not authorized to delete this application" 403), s).
Proof.
  intros Hc Hl Hu. unfold Tracker.deleteApplication. run_monad. rewrite Hc.
  unfold lookup, Query.findOne in Hl. rewrite Hl, Hu. reflexivity.
Qed.

Lemma delete_ok env s id a :
  isObjectId env id = true ->
  lookup id s = Some a ->
  Tracker.deleteApplication (user a) id env s
  = (Value (200, tt),
     mkStore (Query.deleteOne (hasId (_id a)) (applications s))
             (jobs s) (ticks s) (minted s)).
Proof.
  intros Hc Hl. unfold Tracker.deleteApplication. run_monad. rewrite Hc.
  unfold lookup, Query.findOne in Hl. rewrite Hl, String.eqb_refl.
  reflexivity.
Qed.

(** What one status-change request can do to the collection. *)
Lemma update_step_cases env s userId id st :
  let s' := snd (Tracker.updateApplicationStatus userId id st env s) in
  jobs s' = jobs s /\
  (applications s' = applications s
   \/ exists u, applications s'
                = Query.updateOne (hasId id) (applyUpdate u) (applications s)).
Proof.
  destruct (Tracker.includesStatus st) eqn:Hv.
  2:{ rewrite update_invalid by exact Hv. simpl. auto. }
  destruct (isObjectId env id) eqn:Hc.
  2:{ rewrite update_not_castable by assumption. simpl. auto. }
  destruct (lookup id s) as [a|] eqn:Hl.
  2:{ rewrite update_missing by assumption. simpl. auto. }
  destruct (String.eqb (user a) userId) eqn:Hu.
  2:{ apply String.eqb_neq in Hu.
      rewrite (update_foreign env s userId id st a) by assumption.
      simpl. auto. }
  apply String.eqb_eq in Hu. subst userId.
  destruct st as [requested|]; [|discriminate Hv].
  destruct (update_ok env s id requested a Hv Hc Hl) as [n Hn].
  rewrite Hn. simpl. split; [reflexivity|]. right. eexists. reflexivity.
Qed.

Lemma lookup_after_step env s userId id st id0 a :
  lookup id0 s = Some a ->
  let s' := snd (Tracker.updateApplicationStatus userId id st env s) in
  lookup id0 s' = Some a
  \/ exists u, lookup id0 s' = Some (applyUpdate u a).
Proof.
  intros Hl s'.
  destruct (update_step_cases env s userId id st) as [_ [He|[u He]]];
    fold s' in He; unfold lookup, Query.findOne in *; rewrite He.
  - left. exact Hl.
  - pose proof (find_updateOne_cases (hasId id0) (hasId id) (applyUpdate u)
                  (hasId_applyUpdate id0 u) (applications s)) as Hc.
    rewrite Hl in Hc. destruct Hc as [Hc|Hc]; [left | right; exists u]; exact Hc.
Qed.

Lemma orElse_keeps {A} (o d : option A) : d <> None -> orElse o d <> None.
Proof. destruct o; simpl; [discriminate | auto]. Qed.

(** Through any run of requests a document stays in place, and a date it
    carries is never removed. *)
Lemma dates_never_cleared reqs : forall env s id a,
  lookup id s = Some a ->
  exists a', lookup id (serveUpdates reqs env s) = Some a'
             /\ (appliedDate a <> None -> appliedDate a' <> None)
             /\ (responseDate a <> None -> responseDate a' <> None).
Proof.
  induction reqs as [|r reqs IH]; intros env s id a Hl; simpl.
  - exists a. auto.
  - destruct (lookup_after_step env s (req_user r) (req_id r) (req_status r)
                id a Hl) as [H|[u H]].
    + unfold serve.
      destruct (Tracker.updateApplicationStatus _ _ _ env s) as [[[c d]|e] s1];
        simpl in *; apply IH; exact H.
    + unfold serve.
      destruct (Tracker.updateApplicationStatus _ _ _ env s) as [[[c d]|e] s1];
        simpl in *;
        (destruct (IH env s1 id _ H) as [a' [H1 [H2 H3]]];
         exists a'; split; [exact H1|]; split; intro Hn;
         [apply H2 | apply H3]; apply orElse_keeps; exact Hn).
Qed.

(** The owner's request, seen from the client. *)
Lemma serve_update_ok env s id requested a :
  Tracker.includesStatus (Some requested) = true ->
  isObjectId env id = true ->
  lookup id s = Some a ->
  let u := updateDataFor env (ticks s) a requested in
  exists pj s',
    serve (Tracker.updateApplicationStatus (user a) id (Some requested)) env s
    = (Success 200 (Some (applyUpdate u a, pj)), s')
    /\ applications s'
       = Query.updateOne (hasId id) (applyUpdate u) (applications s)
    /\ jobs s' = jobs s
    /\ lookup id s' = Some (applyUpdate u a).
Proof.
  intros Hv Hc Hl u.
  destruct (update_ok env s id requested a Hv Hc Hl) as [n Hn]. fold u in Hn.
  unfold serve. rewrite Hn. do 2 eexists. split; [reflexivity|]. simpl.
  split; [reflexivity|]. split; [reflexivity|].
  unfold lookup, Query.findOne in *. simpl.
  rewrite find_updateOne_same by (intros; apply hasId_applyUpdate).
  rewrite Hl. reflexivity.
Qed.

Lemma updateOne_first {D} (p : D -> bool) (f : D -> D) (l : list D) d :
  find p l = Some d ->
  Query.updateOne p f l = Query.updateOne p (fun _ => f d) l.
Proof.
  induction l as [|x l IH]; simpl; [discriminate|].
  destruct (p x) eqn:Hp.
  - intros [= ->]. reflexivity.
  - intros H. rewrite (IH H). reflexivity.
Qed.

(* ===================================================================== *)
(** ** Claims on the tracker *)
(* ===================================================================== *)

(** C7.  [updateApplicationStatus] answers 400 "Invalid status" when the
    requested status is not one of saved, applied, interviewing, offer,
    rejected.  With a listed status, it answers 404 when no application has
    the id of the request and 403 when the application exists and belongs
    to another user; [deleteApplication] answers 404 and 403 in the same
    two situations.  The 403 answer differs from the 404 answer, and none
    of these requests changes the store. *)
Theorem tracker_error_responses env s userId id st :
  (Tracker.includesStatus st = false ->
     serve (Tracker.updateApplicationStatus userId id st) env s
     = (Failure 400 "Invalid status", s))
  /\ (Tracker.includesStatus st = true -> lookup id s = None ->
        statusCode_of
          (fst (serve (Tracker.updateApplicationStatus userId id st) env s))
        = 404
        /\ snd (serve (Tracker.updateApplicationStatus userId id st) env s) = s)
  /\ (lookup id s = None ->
        statusCode_of (fst (serve (Tracker.deleteApplication userId id) env s))
        = 404
        /\ snd (serve (Tracker.deleteApplication userId id) env s) = s)
  /\ (forall a,
        Tracker.includesStatus st = true -> isObjectId env id = true ->
        lookup id s = Some a -> String.eqb (user a) userId = false ->
        serve (Tracker.updateApplicationStatus userId id st) env s
        = (Failure 403 "Not authorized to update this application", s))
  /\ (forall a,
        isObjectId env id = true ->
        lookup id s = Some a -> String.eqb (user a) userId = false ->
        serve (Tracker.deleteApplication userId id) env s
        = (Failure 403 "Not authorized to delete this application", s)).
Proof.
  repeat split.
  - intros Hv. unfold serve. rewrite update_invalid by exact Hv. reflexivity.
  - destruct (isObjectId env id) eqn:Hc; unfold serve.
    + rewrite update_missing by assumption. reflexivity.
    + rewrite update_not_castable by assumption. reflexivity.
  - destruct (isObjectId env id) eqn:Hc; unfold serve.
    + rewrite update_missing by assumption. reflexivity.
    + rewrite update_not_castable by assumption. reflexivity.
  - destruct (isObjectId env id) eqn:Hc; unfold serve.
    + rewrite delete_missing by assumption. reflexivity.
    + rewrite delete_not_castable by assumption. reflexivity.
  - destruct (isObjectId env id) eqn:Hc; unfold serve.
    + rewrite delete_missing by assumption. reflexivity.
    + rewrite delete_not_castable by assumption. reflexivity.
  - intros a Hv Hc Hl Hu. unfold serve. apply String.eqb_neq in Hu.
    rewrite (update_foreign env s userId id st a) by assumption. reflexivity.
  - intros a Hc Hl Hu. unfold serve.
    rewrite (delete_foreign env s userId id a) by assumption. reflexivity.
Qed.

Lemma tracker_error_responses_witness :
  serve (Tracker.updateApplicationStatus "u1" "a1" (Some "pending"))
        Sample.env Sample.store
  = (Failure 400 "Invalid status", Sample.store)
  /\ statusCode_of
       (fst (serve (Tracker.updateApplicationStatus "u1" "a7" (Some "offer"))
                   Sample.env Sample.store)) = 404
  /\ statusCode_of
       (fst (serve (Tracker.deleteApplication "u1" "a7")
                   Sample.env Sample.store)) = 404
  /\ serve (Tracker.updateApplicationStatus "u2" "a1" (Some "offer"))
           Sample.env Sample.store
     = (Failure 403 "Not authorized to update this application", Sample.store)
  /\ serve (Tracker.deleteApplication "u2" "a1") Sample.env Sample.store
     = (Failure 403 "Not authorized to delete this application", Sample.store).
Proof.
  split; [|split; [|split; [|split]]].
  - apply (proj1 (tracker_error_responses Sample.env Sample.store
                    "u1" "a1" (Some "pending"))).
    reflexivity.
  - apply (proj1 (proj2 (tracker_error_responses Sample.env Sample.store
                           "u1" "a7" (Some "offer"))));
      reflexivity.
  - apply (proj1 (proj2 (proj2 (tracker_error_responses Sample.env Sample.store
                                  "u1" "a7" None))));
      reflexivity.
  - apply (proj1 (proj2 (proj2 (proj2
             (tracker_error_responses Sample.env Sample.store
                "u2" "a1" (Some "offer"))))) Sample.a1);
      reflexivity.
  - apply (proj2 (proj2 (proj2 (proj2
             (tracker_error_responses Sample.env Sample.store
                "u2" "a1" None)))) Sample.a1);
      reflexivity.
Defined.

(** C10.  The status is validated before the record is loaded: whatever the
    id and the caller, a request whose status is outside the five values is
    answered 400 "Invalid status" (neither 404 nor 403), and the store is
    left as it was. *)
Theorem validation_precedes_lookup env s userId id st :
  Tracker.includesStatus st = false ->
  serve (Tracker.updateApplicationStatus userId id st) env s
  = (Failure 400 "Invalid status", s).
Proof.
  intros Hv. unfold serve. rewrite update_invalid by exact Hv. reflexivity.
Qed.

Lemma validation_precedes_lookup_witness :
  (* no such record *)
  serve (Tracker.updateApplicationStatus "u1" "a7" (Some "pending"))
        Sample.env Sample.store
  = (Failure 400 "Invalid status", Sample.store)
  (* the record of another user *)
  /\ serve (Tracker.updateApplicationStatus "u2" "a1" None)
           Sample.env Sample.store
     = (Failure 400 "Invalid status", Sample.store).
Proof.
  split; apply validation_precedes_lookup; reflexivity.
Defined.

(** C9.  A status-change request that goes through (listed status, the
    caller owns the record) writes an update document holding [status],
    [updatedAt] and, when set, [appliedDate] and [responseDate], and nothing
    else.  The stored record gets the requested status and [updatedAt]
    equal to the time read for the request, also when the requested status
    is the current one; its notes, interview fields, [createdAt], [user],
    [job] (and [_id], [salary]) are as before; every other document of the
    store is untouched. *)
Theorem status_change_frame env s userId id requested a :
  Tracker.includesStatus (Some requested) = true ->
  isObjectId env id = true ->
  lookup id s = Some a ->
  String.eqb (user a) userId = true ->
  exists (u : UpdateData) pj s',
    serve (Tracker.updateApplicationStatus userId id (Some requested)) env s
    = (Success 200 (Some (applyUpdate u a, pj)), s')
    /\ lookup id s' = Some (applyUpdate u a)
    /\ status (applyUpdate u a) = requested
    /\ updatedAt (applyUpdate u a) = clock env (ticks s)
    /\ sameOtherFields a (applyUpdate u a)
    /\ applications s'
       = Query.updateOne (hasId id) (fun _ => applyUpdate u a) (applications s)
    /\ jobs s' = jobs s.
Proof.
  intros Hv Hc Hl Hu. apply String.eqb_eq in Hu. subst userId.
  destruct (serve_update_ok env s id requested a Hv Hc Hl)
    as [pj [s' [Hs [Ha [Hj Hl']]]]].
  exists (updateDataFor env (ticks s) a requested), pj, s'.
  split; [exact Hs|]. split; [exact Hl'|].
  split; [reflexivity|]. split; [reflexivity|].
  split; [unfold sameOtherFields; simpl; tauto|].
  split; [|exact Hj].
  rewrite Ha. apply updateOne_first. exact Hl.
Qed.

Lemma status_change_frame_witness :
  exists u pj s',
    serve (Tracker.updateApplicationStatus "u1" "a1" (Some "saved"))
          Sample.env Sample.store
    = (Success 200 (Some (applyUpdate u Sample.a1, pj)), s')
    /\ lookup "a1" s' = Some (applyUpdate u Sample.a1)
    /\ status (applyUpdate u Sample.a1) = "saved"
    /\ updatedAt (applyUpdate u Sample.a1) = 1000
    /\ sameOtherFields Sample.a1 (applyUpdate u Sample.a1)
    /\ applications s'
       = Query.updateOne (hasId "a1") (fun _ => applyUpdate u Sample.a1)
           (applications Sample.store)
    /\ jobs s' = jobs Sample.store.
Proof.
  apply (status_change_frame Sample.env Sample.store "u1" "a1" "saved"
           Sample.a1); reflexivity.
Defined.

(** C1, as the code has it.  A status change that goes through sets
    [appliedDate] to the time read for it exactly when it moves the record
    into ['applied'] from another status, so a record that left ['applied']
    and enters it again gets a new [appliedDate]; every other status change
    leaves [appliedDate] as it is.  Through any run of status-change
    requests an [appliedDate] that is set is never cleared. *)
Theorem appliedDate_follows_entries :
  (forall env s userId id requested a,
     Tracker.includesStatus (Some requested) = true ->
     isObjectId env id = true ->
     lookup id s = Some a ->
     String.eqb (user a) userId = true ->
     fieldOf appliedDate id
       (snd (serve (Tracker.updateApplicationStatus userId id (Some requested))
                   env s))
     = Some (if entersApplied (status a) requested
             then Some (clock env (S (ticks s)))
             else appliedDate a))
  /\ (forall reqs env s id a,
        lookup id s = Some a ->
        appliedDate a <> None ->
        exists a' t, lookup id (serveUpdates reqs env s) = Some a'
                     /\ appliedDate a' = Some t).
Proof.
  split.
  - intros env s userId id requested a Hv Hc Hl Hu.
    apply String.eqb_eq in Hu. subst userId.
    destruct (serve_update_ok env s id requested a Hv Hc Hl)
      as [pj [s' [Hs [_ [_ Hl']]]]].
    rewrite Hs. unfold fieldOf. simpl. rewrite Hl'. simpl.
    destruct (entersApplied (status a) requested); reflexivity.
  - intros reqs env s id a Hl Hn.
    destruct (dates_never_cleared reqs env s id a Hl) as [a' [H1 [H2 _]]].
    specialize (H2 Hn). destruct (appliedDate a') as [t|] eqn:E; [|tauto].
    exists a', t. auto.
Qed.

Lemma appliedDate_follows_entries_witness :
  fieldOf appliedDate "a1"
    (snd (serve (Tracker.updateApplicationStatus "u1" "a1" (Some "applied"))
                Sample.env Sample.store))
  = Some (Some 2000).
Proof.
  apply (proj1 appliedDate_follows_entries Sample.env Sample.store
           "u1" "a1" "applied" Sample.a1); reflexivity.
Defined.

(** C1 fails as stated.  The record is moved to ['applied'] (the clock reads
    2000 for the date), then to ['interviewing'], then to ['applied'] again:
    the second entry overwrites [appliedDate] with 5000. *)
Lemma appliedDate_overwritten_on_reentry :
  fieldOf appliedDate "a1"
    (serveUpdates [Sample.by_owner "applied"] Sample.env Sample.store)
  = Some (Some 2000)
  /\ fieldOf appliedDate "a1"
       (serveUpdates [Sample.by_owner "applied";
                      Sample.by_owner "interviewing";
                      Sample.by_owner "applied"] Sample.env Sample.store)
     = Some (Some 5000)
  /\ ~ appliedDate_set_once.
Proof.
  split; [reflexivity|]. split; [reflexivity|].
  intros H.
  specialize (H Sample.env
                (serveUpdates [Sample.by_owner "applied"]
                   Sample.env Sample.store)
                [Sample.by_owner "interviewing"; Sample.by_owner "applied"]
                "a1" 2000 eq_refl).
  vm_compute in H. discriminate H.
Qed.

(** C2, as the code has it.  A status change that goes through sets
    [responseDate] to the time read for it exactly when it moves the record
    into ['offer'] or ['rejected'] from a status that is neither, so a
    record that left these two statuses and enters one again gets a new
    [responseDate]; every other status change (a move between ['offer'] and
    ['rejected'] included) leaves [responseDate] as it is.  Through any run
    of status-change requests a [responseDate] that is set is never
    cleared. *)
Theorem responseDate_follows_entries :
  (forall env s userId id requested a,
     Tracker.includesStatus (Some requested) = true ->
     isObjectId env id = true ->
     lookup id s = Some a ->
     String.eqb (user a) userId = true ->
     fieldOf responseDate id
       (snd (serve (Tracker.updateApplicationStatus userId id (Some requested))
                   env s))
     = Some (if entersResponse (status a) requested
             then Some (clock env (S (ticks s)))
             else responseDate a))
  /\ (forall reqs env s id a,
        lookup id s = Some a ->
        responseDate a <> None ->
        exists a' t, lookup id (serveUpdates reqs env s) = Some a'
                     /\ responseDate a' = Some t).
Proof.
  split.
  - intros env s userId id requested a Hv Hc Hl Hu.
    apply String.eqb_eq in Hu. subst userId.
    destruct (serve_update_ok env s id requested a Hv Hc Hl)
      as [pj [s' [Hs [_ [_ Hl']]]]].
    rewrite Hs. unfold fieldOf. simpl. rewrite Hl'. simpl.
    destruct (entersResponse (status a) requested); reflexivity.
  - intros reqs env s id a Hl Hn.
    destruct (dates_never_cleared reqs env s id a Hl) as [a' [H1 [_ H3]]].
    specialize (H3 Hn). destruct (responseDate a') as [t|] eqn:E; [|tauto].
    exists a', t. auto.
Qed.

Lemma responseDate_follows_entries_witness :
  fieldOf responseDate "a1"
    (snd (serve (Tracker.updateApplicationStatus "u1" "a1" (Some "offer"))
                Sample.env Sample.store))
  = Some (Some 2000).
Proof.
  apply (proj1 responseDate_follows_entries Sample.env Sample.store
           "u1" "a1" "offer" Sample.a1); reflexivity.
Defined.

(** C2 fails as stated.  The record is moved to ['offer'] (the clock reads
    2000 for the date), then back to ['interviewing'], then to ['rejected']:
    the second entry overwrites [responseDate] with 5000. *)
Lemma responseDate_overwritten_on_reentry :
  fieldOf responseDate "a1"
    (serveUpdates [Sample.by_owner "offer"] Sample.env Sample.store)
  = Some (Some 2000)
  /\ fieldOf responseDate "a1"
       (serveUpdates [Sample.by_owner "offer";
                      Sample.by_owner "interviewing";
                      Sample.by_owner "rejected"] Sample.env Sample.store)
     = Some (Some 5000)
  /\ ~ responseDate_set_once.
Proof.
  split; [reflexivity|]. split; [reflexivity|].
  intros H.
  specialize (H Sample.env
                (serveUpdates [Sample.by_owner "offer"]
                   Sample.env Sample.store)
                [Sample.by_owner "interviewing"; Sample.by_owner "rejected"]
                "a1" 2000 eq_refl).
  vm_compute in H. discriminate H.
Qed.

(** The scenario of the spec: saved, then applied, interviewing, offer and
    back to interviewing.  The dates of the first entries stay, and
    [updatedAt] is the time of the last request. *)
Example scenario_forward_and_back :
  let s := serveUpdates [Sample.by_owner "applied";
                         Sample.by_owner "interviewing";
                         Sample.by_owner "offer";
                         Sample.by_owner "interviewing"]
             Sample.env Sample.store in
  fieldOf appliedDate "a1" s = Some (Some 2000)
  /\ fieldOf responseDate "a1" s = Some (Some 5000)
  /\ fieldOf updatedAt "a1" s = Some 6000
  /\ fieldOf status "a1" s = Some "interviewing".
Proof. repeat split; reflexivity. Qed.

(* ===================================================================== *)
(** ** Creation *)
(* ===================================================================== *)

Lemma find_existsb {D} (p : D -> bool) (l : list D) :
  existsb p l = match find p l with Some _ => true | None => false end.
Proof.
  induction l as [|d l IH]; simpl; [reflexivity|].
  destruct (p d); simpl; [reflexivity | exact IH].
Qed.

Lemma create_no_jobId env s userId jobId st :
  JS.truthy_opt jobId = false ->
  Tracker.createApplication userId jobId st env s
  = (Thrown (ErrorResponse "Please provide a job ID" 400), s).
Proof.
  intros H. unfold Tracker.createApplication. rewrite H. reflexivity.
Qed.

Lemma create_job_not_castable env s userId j st :
  JS.truthy j = true ->
  isObjectId env j = false ->
  Tracker.createApplication userId (Some j) st env s = (Thrown CastError, s).
Proof.
  intros Ht Hc. unfold Tracker.createApplication. simpl. rewrite Ht. simpl.
  run_monad. rewrite Hc. reflexivity.
Qed.

Lemma create_job_missing env s userId j st :
  JS.truthy j = true ->
  isObjectId env j = true ->
  jobResolves (Some j) s = false ->
  Tracker.createApplication userId (Some j) st env s
  = (Thrown (ErrorResponse "Job not found" 404), s).
Proof.
  intros Ht Hc Hr. unfold Tracker.createApplication. simpl. rewrite Ht. simpl.
  run_monad. rewrite Hc. unfold jobResolves in Hr. rewrite find_existsb in Hr.
  destruct (find _ (jobs s)); [discriminate Hr | reflexivity].
Qed.

Lemma create_duplicate env s userId j st :
  JS.truthy j = true ->
  isObjectId env j = true ->
  isObjectId env userId = true ->
  jobResolves (Some j) s = true ->
  alreadyApplied userId (Some j) s = true ->
  Tracker.createApplication userId (Some j) st env s
  = (Thrown (ErrorResponse "Application for this job already exists" 400), s).
Proof.
  intros Ht Hc Hu Hr Hd. unfold Tracker.createApplication. simpl.
  rewrite Ht. simpl. run_monad. rewrite Hc. unfold jobResolves, alreadyApplied in Hr, Hd.
  rewrite find_existsb in Hr. rewrite find_existsb in Hd.
  destruct (find _ (jobs s)); [|discriminate Hr].
  rewrite Hu, Hc. simpl.
  destruct (find _ (applications s)); [reflexivity | discriminate Hd].
Qed.

Lemma create_bad_status env s userId j x :
  JS.truthy j = true ->
  isObjectId env j = true ->
  isObjectId env userId = true ->
  jobResolves (Some j) s = true ->
  alreadyApplied userId (Some j) s = false ->
  JS.includes statusEnum x = false ->
  Tracker.createApplication userId (Some j) (Some x) env s
  = (Thrown (ValidationError
               ("`" ++ x ++ "` is not a valid enum value for path `status`.")),
     mkStore (applications s) (jobs s) (S (S (ticks s))) (S (minted s))).
Proof.
  intros Ht Hc Hu Hr Hd Hx. unfold Tracker.createApplication. simpl.
  rewrite Ht. simpl. run_monad. rewrite Hc. unfold jobResolves, alreadyApplied in Hr, Hd.
  rewrite find_existsb in Hr. rewrite find_existsb in Hd.
  destruct (find _ (jobs s)); [|discriminate Hr].
  rewrite Hu, Hc. simpl.
  destruct (find _ (applications s)); [discriminate Hd|].
  rewrite Hu, Hc. simpl. rewrite Hx. reflexivity.
Qed.

Lemma create_ok env s userId j st :
  JS.truthy j = true ->
  isObjectId env j = true ->
  isObjectId env userId = true ->
  jobResolves (Some j) s = true ->
  alreadyApplied userId (Some j) s = false ->
  JS.includes statusEnum (orSaved st) = true ->
  let doc :=
    mkApplication (freshId env (minted s)) j userId (orSaved st)
      None None None None
      (clock env (ticks s)) (clock env (S (S (ticks s))))
      None None None None in
  Tracker.createApplication userId (Some j) st env s
  = (Value (201, (doc,
                  Query.findOne (fun x => String.eqb (job_id x) j) (jobs s))),
     mkStore (applications s ++ [doc])%list (jobs s)
             (S (S (S (ticks s)))) (S (minted s))).
Proof.
  intros Ht Hc Hu Hr Hd Hx doc. subst doc.
  unfold Tracker.createApplication. simpl.
  rewrite Ht. simpl. run_monad. rewrite Hc. unfold jobResolves, alreadyApplied in Hr, Hd.
  rewrite find_existsb in Hr. rewrite find_existsb in Hd.
  destruct (find _ (jobs s)) eqn:Hj; [|discriminate Hr].
  rewrite Hu, Hc. simpl.
  destruct (find _ (applications s)); [discriminate Hd|].
  rewrite Hu, Hc. simpl. unfold orSaved in *.
  destruct st as [x|]; rewrite Hx; simpl; rewrite Hj; reflexivity.
Qed.

(** C8, as the code has it.  [createApplication] answers 400 when the body
    has no job id; 404 when the job id of the body is not the id of a
    stored job; 400 "Application for this job already exists" when the
    caller already has an application for that job; 400, from the schema,
    when the supplied status is not one of the five values; and otherwise
    201 with a new record, appended to the collection, whose status is the
    supplied one, or ['saved'] when none is supplied.  No failing request
    adds a record. *)
Theorem create_application_responses env s userId jobId st :
  let r := serve (Tracker.createApplication userId jobId st) env s in
  (JS.truthy_opt jobId = false ->
     r = (Failure 400 "Please provide a job ID", s))
  /\ (JS.truthy_opt jobId = true -> jobResolves jobId s = false ->
        statusCode_of (fst r) = 404 /\ snd r = s)
  /\ (JS.truthy_opt jobId = true ->
      (forall j, jobId = Some j -> isObjectId env j = true) ->
      isObjectId env userId = true ->
      jobResolves jobId s = true ->
      (alreadyApplied userId jobId s = true ->
         r = (Failure 400 "Application for this job already exists", s))
      /\ (alreadyApplied userId jobId s = false ->
          JS.includes statusEnum (orSaved st) = false ->
          statusCode_of (fst r) = 400
          /\ applications (snd r) = applications s /\ jobs (snd r) = jobs s)
      /\ (alreadyApplied userId jobId s = false ->
          JS.includes statusEnum (orSaved st) = true ->
          exists doc pj,
            fst r = Success 201 (doc, pj)
            /\ status doc = orSaved st
            /\ user doc = userId /\ Some (job doc) = jobId
            /\ appliedDate doc = None /\ responseDate doc = None
            /\ applications (snd r) = (applications s ++ [doc])%list
            /\ jobs (snd r) = jobs s)).
Proof.
  intros r. subst r. split; [|split].
  - intros H. unfold serve. rewrite create_no_jobId by exact H. reflexivity.
  - intros Ht Hr. destruct jobId as [j|]; [|discriminate Ht]. simpl in Ht.
    unfold serve. destruct (isObjectId env j) eqn:Hc.
    + rewrite create_job_missing by assumption. split; reflexivity.
    + rewrite create_job_not_castable by assumption. split; reflexivity.
  - intros Ht Hc Hu Hr. destruct jobId as [j|]; [|discriminate Ht].
    simpl in Ht. specialize (Hc j eq_refl). split; [|split].
    + intros Hd. unfold serve. rewrite create_duplicate by assumption.
      reflexivity.
    + intros Hd Hx. unfold serve. destruct st as [x|]; [|discriminate Hx].
      rewrite create_bad_status by assumption. simpl. auto.
    + intros Hd Hx. unfold serve. rewrite create_ok by assumption.
      simpl. do 2 eexists. repeat split; reflexivity.
Qed.

Lemma create_application_responses_witness :
  serve (Tracker.createApplication "u1" None None) Sample.env Sample.store
  = (Failure 400 "Please provide a job ID", Sample.store)
  /\ statusCode_of
       (fst (serve (Tracker.createApplication "u1" (Some "j7") None)
                   Sample.env Sample.store)) = 404
  /\ serve (Tracker.createApplication "u1" (Some "j1") None)
           Sample.env Sample.store
     = (Failure 400 "Application for this job already exists", Sample.store)
  /\ statusCode_of
       (fst (serve (Tracker.createApplication "u1" (Some "j2") (Some "hired"))
                   Sample.env Sample.store)) = 400
  /\ (exists doc pj,
        fst (serve (Tracker.createApplication "u1" (Some "j2") None)
                   Sample.env Sample.store) = Success 201 (doc, pj)
        /\ status doc = "saved").
Proof.
  split; [|split; [|split; [|split]]].
  - apply (proj1 (create_application_responses Sample.env Sample.store
                    "u1" None None)).
    reflexivity.
  - apply (proj1 (proj2 (create_application_responses Sample.env Sample.store
                           "u1" (Some "j7") None)));
      reflexivity.
  - apply (proj2 (proj2 (create_application_responses Sample.env Sample.store
                           "u1" (Some "j1") None)));
      try reflexivity.
    intros j [= <-]. reflexivity.
  - apply (proj2 (proj2 (create_application_responses Sample.env Sample.store
                           "u1" (Some "j2") (Some "hired"))));
      try reflexivity.
    intros j [= <-]. reflexivity.
  - destruct (proj2 (proj2 (create_application_responses Sample.env
                              Sample.store "u1" (Some "j2") None)))
      as [_ [_ H]]; try reflexivity.
    + intros j [= <-]. reflexivity.
    + destruct (H eq_refl eq_refl) as [doc [pj [H1 [H2 _]]]].
      exists doc, pj. split; assumption.
Defined.

(** C8 fails as stated.  A body with an empty job id resolves to no job and
    is answered 400, not 404; and a body whose status is ['hired'], for an
    existing job the user has not applied to, is answered 400 and creates
    no record. *)
Lemma create_guards_overlooked :
  serve (Tracker.createApplication "u1" (Some "") None)
        Sample.env Sample.store
  = (Failure 400 "Please provide a job ID", Sample.store)
  /\ (fst (serve (Tracker.createApplication "u1" (Some "j2") (Some "hired"))
                 Sample.env Sample.store)
      = Failure 400 "`hired` is not a valid enum value for path `status`."
      /\ applications
           (snd (serve (Tracker.createApplication "u1" (Some "j2")
                          (Some "hired")) Sample.env Sample.store))
         = applications Sample.store)
  /\ ~ create_as_stated.
Proof.
  split; [reflexivity|]. split; [split; reflexivity|].
  intros H.
  specialize (H Sample.env Sample.store "u1" (Some "") None).
  vm_compute in H. discriminate H.
Qed.

(* ===================================================================== *)
(** ** The analytics handler *)
(* ===================================================================== *)

Lemma populateAll_run l : forall env s,
  populateAll l env s = (Value (map (join s) l), s).
Proof.
  induction l as [|a l IH]; intros env s; [reflexivity|].
  simpl. unfold bind at 1. unfold populate at 1. run_monad.
  rewrite IH. reflexivity.
Qed.

Lemma startDateOf_run range env s :
  exists t n,
    Analytics.startDateOf range env s
    = (Value t, mkStore (applications s) (jobs s) n (minted s))
    /\ n = (if String.eqb range "ytd" then S (S (ticks s)) else S (ticks s)).
Proof.
  unfold Analytics.startDateOf. run_monad.
  destruct (String.eqb range "7d") eqn:E7.
  { apply String.eqb_eq in E7. subst. do 2 eexists. split; reflexivity. }
  destruct (String.eqb range "30d") eqn:E30.
  { apply String.eqb_eq in E30. subst. do 2 eexists. split; reflexivity. }
  destruct (String.eqb range "90d") eqn:E90.
  { apply String.eqb_eq in E90. subst. do 2 eexists. split; reflexivity. }
  destruct (String.eqb range "ytd") eqn:Ey.
  { do 2 eexists. split; reflexivity. }
  destruct (String.eqb range "all"); do 2 eexists; split; reflexivity.
Qed.

(** The answer of [getAnalytics] for a caller whose id is well formed: each
    part of the summary is computed from the applications of the window,
    the average salary from the jobs the caller posted in the window; the
    collections are only read. *)
Lemma getAnalytics_run env s userId range :
  isObjectId env userId = true ->
  let start := windowStart env s range in
  let apps := windowApplications userId start s in
  exists d s',
    serve (Analytics.getAnalytics userId range) env s = (Success 200 d, s')
    /\ applications s' = applications s /\ jobs s' = jobs s
    /\ Analytics.totalApplications (Analytics.metrics d)
       = Z.of_nat (List.length apps)
    /\ Analytics.m_averageResponseTime (Analytics.metrics d)
       = Analytics.averageResponseTime apps
    /\ Analytics.m_averageSalary (Analytics.metrics d)
       = Analytics.formatSalary
           (Analytics.averageSalary (postedJobs userId start s))
    /\ Analytics.d_monthlyData d
       = Analytics.monthlyData (trendNow env s range) apps
    /\ Analytics.d_topCompanies d = Analytics.topCompanies apps.
Proof.
  intros Hu start apps. subst apps start.
  unfold windowStart, trendNow, serve, Analytics.getAnalytics.
  set (r := match range with Some r => r | None => "30d" end).
  destruct (startDateOf_run r env s) as [t [n [Hs Hn]]].
  unfold bind at 1. rewrite Hs.
  unfold Analytics.findApplications, Analytics.findJobs.
  run_monad. rewrite Hu. rewrite populateAll_run. simpl.
  do 2 eexists. split; [reflexivity|].
  unfold windowApplications, postedJobs, join. simpl.
  repeat split; try reflexivity.
  f_equal. subst n. destruct range as [x|]; subst r; simpl.
  - destruct (String.eqb x "ytd"); reflexivity.
  - reflexivity.
Qed.

(* ===================================================================== *)
(** ** Rounding *)
(* ===================================================================== *)

Lemma Qle_bool_comp (a b c d : Q) :
  (a == b)%Q -> (c == d)%Q -> Qle_bool a c = Qle_bool b d.
Proof.
  intros H1 H2. destruct (Qle_bool b d) eqn:E.
  - apply Qle_bool_iff. rewrite H1, H2. apply Qle_bool_iff. exact E.
  - destruct (Qle_bool a c) eqn:E'; [|reflexivity].
    apply Qle_bool_iff in E'. rewrite H1, H2 in E'.
    apply Qle_bool_iff in E'. congruence.
Qed.

Lemma floor_half_bounds (y : Q) :
  (inject_Z (Qfloor (y + (1 # 2))) - (1 # 2) <= y
   /\ y < inject_Z (Qfloor (y + (1 # 2))) + (1 # 2))%Q.
Proof.
  pose proof (Qfloor_le (y + (1 # 2))) as H1.
  pose proof (Qlt_floor (y + (1 # 2))) as H2.
  rewrite inject_Z_plus in H2. split.
  - apply Qplus_le_l with (z := (1 # 2)%Q). ring_simplify.
    ring_simplify in H1. exact H1.
  - apply Qplus_lt_l with (z := (1 # 2)%Q).
    setoid_replace (inject_Z (Qfloor (y + (1 # 2))) + (1 # 2) + (1 # 2))%Q
      with (inject_Z (Qfloor (y + (1 # 2))) + inject_Z 1)%Q by ring.
    exact H2.
Qed.

(** [toFixed(1)] prints the nearest tenth. *)
Lemma toFixed1_nearest (x : Q) : nearestTenth x (JS.toFixed1 x).
Proof.
  unfold nearestTenth, JS.toFixed1. split; intros Hx.
  - apply Qle_bool_iff in Hx. rewrite Hx. apply floor_half_bounds.
  - destruct (Qle_bool 0 x) eqn:E.
    { apply Qle_bool_iff in E. exfalso. apply (Qlt_irrefl 0).
      eapply Qle_lt_trans; eassumption. }
    destruct (floor_half_bounds (- x * 10)) as [H1 H2].
    rewrite inject_Z_opp. split.
    + apply Qopp_lt_compat in H2.
      setoid_replace (- (- x * 10))%Q with (x * 10)%Q in H2 by ring.
      eapply Qle_lt_trans; [|exact H2].
      apply Qle_lteq. right. ring.
    + apply Qopp_le_compat in H1.
      setoid_replace (- (- x * 10))%Q with (x * 10)%Q in H1 by ring.
      eapply Qle_trans; [exact H1|].
      apply Qle_lteq. right. ring.
Qed.

(* ===================================================================== *)
(** ** Average response time *)
(* ===================================================================== *)

Lemma responded_bothDates app :
  Analytics.responded app = match bothDates app with Some _ => true | None => false end.
Proof.
  unfold Analytics.responded, bothDates.
  destruct (responseDate (fst app)), (appliedDate (fst app)); reflexivity.
Qed.

Lemma length_responded l :
  List.length (filter Analytics.responded l) = List.length (datedPairs l).
Proof.
  induction l as [|app l IH]; simpl; [reflexivity|].
  rewrite responded_bothDates. destruct (bothDates app); simpl; congruence.
Qed.

Lemma responseTime_days64 app p :
  bothDates app = Some p -> Analytics.responseTime app = days64 p.
Proof.
  unfold bothDates, Analytics.responseTime, days64.
  destruct (appliedDate (fst app)); [|discriminate].
  destruct (responseDate (fst app)); [|discriminate].
  intros [= <-]. reflexivity.
Qed.

Lemma totalResponseTime_sum64 l : forall acc : Q,
  fold_left (fun total app => F64.round (total + Analytics.responseTime app)%Q)
    (filter Analytics.responded l) acc
  = fold_left (fun total x => F64.round (total + x)%Q)
      (map days64 (datedPairs l)) acc.
Proof.
  induction l as [|app l IH]; intros acc; simpl; [reflexivity|].
  rewrite responded_bothDates.
  destruct (bothDates app) as [p|] eqn:E; simpl; [|apply IH].
  rewrite (responseTime_days64 app p E). apply IH.
Qed.

(** The metric is the mean over the records with both dates, computed in
    double precision and printed with one decimal; it is the number 0 when
    no record has both. *)
Lemma averageResponseTime_mean l :
  Analytics.averageResponseTime l
  = match datedPairs l with
    | [] => 0%Q
    | _ => (inject_Z (JS.toFixed1 (mean64 (datedPairs l))) / 10)%Q
    end.
Proof.
  unfold Analytics.averageResponseTime. rewrite length_responded.
  destruct (datedPairs l) as [|p ps] eqn:E; [reflexivity|].
  cbn [List.length Nat.ltb Nat.leb].
  rewrite totalResponseTime_sum64, E. reflexivity.
Qed.

Lemma datedPairs_app l1 l2 : datedPairs (l1 ++ l2) = (datedPairs l1 ++ datedPairs l2)%list.
Proof.
  induction l1 as [|a l1 IH]; simpl; [reflexivity|].
  destruct (bothDates a); simpl; rewrite IH; reflexivity.
Qed.

Lemma filter_responded_skip l1 x l2 :
  bothDates x = None ->
  filter Analytics.responded (l1 ++ x :: l2)
  = filter Analytics.responded (l1 ++ l2).
Proof.
  intros H. rewrite !filter_app. simpl. rewrite responded_bothDates, H.
  reflexivity.
Qed.

(* ===================================================================== *)
(** ** Average salary *)
(* ===================================================================== *)

Lemma str_includes_truthy s c : JS.str_includes s c = true -> JS.truthy s = true.
Proof. destruct s; [discriminate | reflexivity]. Qed.

Lemma digitValue_nonneg c : JS.isDigit c = true -> 0 <= JS.digitValue c.
Proof.
  unfold JS.isDigit, JS.digitValue. intros H.
  apply andb_true_iff in H. destruct H as [H _].
  apply Nat.leb_le in H. lia.
Qed.

Lemma digitsValue_from_nonneg s : forall acc,
  0 <= acc -> 0 <= JS.digitsValue_from acc s.
Proof.
  induction s as [|c s IH]; intros acc Hacc; cbn [JS.digitsValue_from];
    [exact Hacc|].
  destruct (JS.isDigit c) eqn:E; [|exact Hacc].
  apply IH. pose proof (digitValue_nonneg c E). lia.
Qed.

Lemma digitsValue_nonneg s : 0 <= JS.digitsValue s.
Proof. apply digitsValue_from_nonneg. lia. Qed.

(** *** Numbers that the arithmetic holds exactly *)

Lemma number_comp x y : (x == y)%Q -> JS.number x = JS.number y.
Proof.
  intros H. unfold JS.number, F64.overflows.
  rewrite (round_comp x y H). reflexivity.
Qed.

Lemma denotes_comp a x y : denotes a x -> (x == y)%Q -> denotes a y.
Proof.
  destruct a as [q|]; simpl; [|tauto]. intros H1 H2.
  rewrite H1. exact H2.
Qed.

Lemma round_exact_halves m :
  Z.abs m < 2 ^ 53 ->
  (F64.round (inject_Z m * (1 # 2)) == inject_Z m * (1 # 2))%Q.
Proof.
  intros Hm. change (1 # 2)%Q with (F64.pow2 (-1)).
  apply round_exact_grid; [exact Hm|]. unfold F64.emin. lia.
Qed.

(** A whole number of halves below [2^52] is a double. *)
Lemma number_exact x m :
  (x == inject_Z m * (1 # 2))%Q -> Z.abs m < 2 ^ 53 -> denotes (JS.number x) x.
Proof.
  intros Hx Hm. unfold JS.number.
  assert (Ho : F64.overflows x = false).
  { apply (overflows_bounded x (Z.abs m)); [|exact Hm].
    assert (H1 : (inject_Z m <= inject_Z (Z.abs m))%Q)
      by (rewrite <- Zle_Qle; lia).
    assert (H2 : (- inject_Z m <= inject_Z (Z.abs m))%Q)
      by (rewrite <- inject_Z_opp, <- Zle_Qle; lia).
    apply Qabs_Qle_condition. rewrite Hx. split; lra. }
  rewrite Ho. simpl. rewrite (round_comp _ _ Hx), Hx.
  apply round_exact_halves. exact Hm.
Qed.

Lemma plus_exact a b x y m :
  denotes a x -> denotes b y ->
  (x + y == inject_Z m * (1 # 2))%Q -> Z.abs m < 2 ^ 53 ->
  denotes (JS.plus a b) (x + y).
Proof.
  destruct a as [p|]; [|intros []]. destruct b as [q|]; [|intros _ []].
  simpl. intros Hp Hq Hs Hm.
  assert (E : (p + q == x + y)%Q) by (rewrite Hp, Hq; reflexivity).
  rewrite (number_comp _ _ E). apply (number_exact _ m); assumption.
Qed.

Lemma over_exact a x n m :
  denotes a x ->
  (x / inject_Z n == inject_Z m * (1 # 2))%Q -> Z.abs m < 2 ^ 53 ->
  denotes (JS.over a n) (x / inject_Z n).
Proof.
  destruct a as [p|]; [|intros []]. simpl. intros Hp Hs Hm.
  assert (E : (p / inject_Z n == x / inject_Z n)%Q) by (rewrite Hp; reflexivity).
  rewrite (number_comp _ _ E). apply (number_exact _ m); assumption.
Qed.

Lemma denotes_positive a x :
  denotes a x -> JS.positive a = negb (Qle_bool x 0).
Proof.
  destruct a as [q|]; [|intros []]. simpl. intros H.
  rewrite (Qle_bool_comp q x 0 0 H (Qeq_refl 0)). reflexivity.
Qed.

Lemma positiveQ_spec q :
  ((q <= 0)%Q /\ positiveQ q = None) \/ ((0 < q)%Q /\ positiveQ q = Some q).
Proof.
  unfold positiveQ. destruct (Qle_bool q 0) eqn:E.
  - left. split; [apply Qle_bool_iff; exact E | reflexivity].
  - right. split; [|reflexivity].
    apply Qnot_le_lt. intro H. apply Qle_bool_iff in H. congruence.
Qed.

(** *** The contributions *)

(** The number that the callback returns for a job is its contribution,
    as long as that is at most [2^49]. *)
Lemma salaryNumber_contribution j :
  (forall c, contribution j = Some c -> (c <= 562949953421312)%Q) ->
  Forall2 denotes
    (if Analytics.hasDollarSalary j
     then filter JS.positive [Analytics.salaryNumber j]
     else [])
    (match contribution j with Some q => [q] | None => [] end).
Proof.
  unfold Analytics.hasDollarSalary, contribution, Analytics.salaryNumber,
    JS.match_digits.
  destruct (job_salary j) as [sal|]; [|constructor].
  destruct (JS.str_includes sal "$") eqn:Ed.
  2:{ rewrite andb_false_r. constructor. }
  rewrite (str_includes_truthy _ _ Ed). cbn [andb].
  destruct (JS.digit_runs [] sal) as [|n0 [|n1 runs]]; cbn beta iota.
  - intros _. constructor.
  - unfold JS.parseInt. pose proof (digitsValue_nonneg n0) as H0.
    generalize dependent (JS.digitsValue n0). intros d0 H0 Hb.
    destruct (positiveQ_spec (inject_Z d0)) as [[Hle E]|[Hlt E]];
      rewrite E in *.
    + assert (d0 = 0).
      { change 0%Q with (inject_Z 0) in Hle. rewrite <- Zle_Qle in Hle. lia. }
      subst d0. constructor.
    + specialize (Hb _ eq_refl).
      assert (Hd : d0 <= 562949953421312).
      { change 562949953421312%Q with (inject_Z 562949953421312) in Hb.
        rewrite <- Zle_Qle in Hb. exact Hb. }
      assert (Hn : denotes (JS.number (inject_Z d0)) (inject_Z d0)).
      { apply (number_exact _ (2 * d0)); [|lia].
        rewrite inject_Z_mult. change (inject_Z 2) with 2%Q. ring. }
      cbn [filter]. rewrite (denotes_positive _ _ Hn).
      apply Qlt_not_le in Hlt.
      destruct (Qle_bool (inject_Z d0) 0) eqn:Eb;
        [apply Qle_bool_iff in Eb; contradiction|].
      cbn [negb]. constructor; [exact Hn|constructor].
  - unfold JS.parseInt. pose proof (digitsValue_nonneg n0) as H0.
    pose proof (digitsValue_nonneg n1) as H1.
    generalize dependent (JS.digitsValue n1).
    generalize dependent (JS.digitsValue n0). intros d0 H0 d1 H1 Hb.
    destruct (positiveQ_spec (inject_Z (d0 + d1) / 2)) as [[Hle E]|[Hlt E]];
      rewrite E in *.
    + assert (Hs : d0 + d1 <= 0).
      { assert (H : (inject_Z (d0 + d1) <= inject_Z 0)%Q).
        { change (inject_Z 0) with 0%Q.
          setoid_replace (inject_Z (d0 + d1))
            with (inject_Z (d0 + d1) / 2 * 2)%Q by (field; discriminate).
          lra. }
        rewrite <- Zle_Qle in H. exact H. }
      assert (d0 = 0) by lia. assert (d1 = 0) by lia. subst d0 d1.
      constructor.
    + specialize (Hb _ eq_refl).
      assert (Hd : d0 + d1 <= 1125899906842624).
      { assert (H : (inject_Z (d0 + d1) <= inject_Z 1125899906842624)%Q).
        { change (inject_Z 1125899906842624) with 1125899906842624%Q.
          setoid_replace (inject_Z (d0 + d1))
            with (inject_Z (d0 + d1) / 2 * 2)%Q by (field; discriminate).
          lra. }
        rewrite <- Zle_Qle in H. exact H. }
      assert (Hn0 : denotes (JS.number (inject_Z d0)) (inject_Z d0)).
      { apply (number_exact _ (2 * d0)); [|lia].
        rewrite inject_Z_mult. change (inject_Z 2) with 2%Q. ring. }
      assert (Hn1 : denotes (JS.number (inject_Z d1)) (inject_Z d1)).
      { apply (number_exact _ (2 * d1)); [|lia].
        rewrite inject_Z_mult. change (inject_Z 2) with 2%Q. ring. }
      assert (Hp : denotes (JS.plus (JS.number (inject_Z d0))
                                    (JS.number (inject_Z d1)))
                           (inject_Z d0 + inject_Z d1)).
      { apply (plus_exact _ _ _ _ (2 * (d0 + d1))); [exact Hn0|exact Hn1| |lia].
        rewrite inject_Z_mult, inject_Z_plus. change (inject_Z 2) with 2%Q.
        ring. }
      assert (Ho : denotes (JS.over (JS.plus (JS.number (inject_Z d0))
                                             (JS.number (inject_Z d1))) 2)
                           (inject_Z (d0 + d1) / 2)).
      { eapply denotes_comp.
        - apply (over_exact _ (inject_Z d0 + inject_Z d1) 2 (d0 + d1));
            [exact Hp| |lia].
          rewrite inject_Z_plus. change (inject_Z 2) with 2%Q.
          field.
        - rewrite inject_Z_plus. change (inject_Z 2) with 2%Q. reflexivity. }
      cbn [filter]. rewrite (denotes_positive _ _ Ho).
      apply Qlt_not_le in Hlt.
      destruct (Qle_bool (inject_Z (d0 + d1) / 2) 0) eqn:Eb;
        [apply Qle_bool_iff in Eb; contradiction|].
      cbn [negb]. constructor; [exact Ho|constructor].
Qed.

Lemma salaryNumbers_contributions jobs :
  Forall (fun c => (c <= 562949953421312)%Q) (contributions jobs) ->
  Forall2 denotes
    (filter JS.positive
       (map Analytics.salaryNumber (filter Analytics.hasDollarSalary jobs)))
    (contributions jobs).
Proof.
  induction jobs as [|j jobs IH]; intros Hb; [constructor|].
  cbn [filter contributions] in *.
  assert (Hj : forall c, contribution j = Some c -> (c <= 562949953421312)%Q).
  { intros c E. rewrite E in Hb. inversion Hb; assumption. }
  assert (Hrest : Forall (fun c => (c <= 562949953421312)%Q)
                         (contributions jobs)).
  { destruct (contribution j); [inversion Hb; assumption | exact Hb]. }
  pose proof (salaryNumber_contribution j Hj) as H. specialize (IH Hrest).
  destruct (Analytics.hasDollarSalary j); cbn [map filter] in *.
  - destruct (JS.positive (Analytics.salaryNumber j));
      destruct (contribution j); inversion H; subst.
    + constructor; assumption.
    + exact IH.
  - destruct (contribution j); inversion H. exact IH.
Qed.

Lemma positiveQ_half q c : positiveQ q = Some c ->
  (exists n : Z, (q == inject_Z n)%Q \/ (q == inject_Z n / 2)%Q) ->
  (1 # 2 <= c)%Q.
Proof.
  unfold positiveQ. destruct (Qle_bool q 0) eqn:E; [discriminate|].
  intros [= <-] [n Hn].
  assert (Hpos : (0 < q)%Q).
  { apply Qnot_le_lt. intro Hle. apply Qle_bool_iff in Hle. congruence. }
  destruct Hn as [Hn|Hn]; rewrite Hn in *.
  - assert (0 < n) by (unfold Qlt in Hpos; simpl in Hpos; lia).
    unfold Qle. simpl. lia.
  - assert (0 < n).
    { unfold Qlt, Qdiv, Qmult, Qinv in Hpos. simpl in Hpos. lia. }
    unfold Qle, Qdiv, Qmult, Qinv. simpl. lia.
Qed.

Lemma contribution_half j c : contribution j = Some c -> (1 # 2 <= c)%Q.
Proof.
  unfold contribution. destruct (job_salary j) as [sal|]; [|discriminate].
  destruct (JS.str_includes sal "$"); [|discriminate].
  destruct (JS.digit_runs [] sal) as [|n0 [|n1 runs]]; [discriminate| |];
    intros H; eapply positiveQ_half; try exact H; eexists.
  - left. reflexivity.
  - right. reflexivity.
Qed.

Lemma contributions_half jobs : Forall (fun c => (1 # 2 <= c)%Q) (contributions jobs).
Proof.
  induction jobs as [|j jobs IH]; simpl; [constructor|].
  destruct (contribution j) as [c|] eqn:E; [|exact IH].
  constructor; [exact (contribution_half j c E) | exact IH].
Qed.

Lemma contribution_halfInteger j c : contribution j = Some c -> halfInteger c.
Proof.
  unfold contribution, positiveQ.
  destruct (job_salary j) as [sal|]; [|discriminate].
  destruct (JS.str_includes sal "$"); [|discriminate].
  destruct (JS.digit_runs [] sal) as [|n0 [|n1 runs]]; [discriminate| |].
  - destruct (Qle_bool _ _); [discriminate|]. intros [= <-].
    exists (2 * JS.digitsValue n0). rewrite inject_Z_mult.
    change (inject_Z 2) with 2%Q. ring.
  - destruct (Qle_bool _ _); [discriminate|]. intros [= <-].
    exists (JS.digitsValue n0 + JS.digitsValue n1). reflexivity.
Qed.

Lemma contributions_halfInteger jobs : Forall halfInteger (contributions jobs).
Proof.
  induction jobs as [|j jobs IH]; simpl; [constructor|].
  destruct (contribution j) as [c|] eqn:E; [|exact IH].
  constructor; [exact (contribution_halfInteger j c E) | exact IH].
Qed.

Lemma halfInteger_plus x y : halfInteger x -> halfInteger y -> halfInteger (x + y).
Proof.
  intros [m Hm] [n Hn]. exists (m + n).
  rewrite Hm, Hn, inject_Z_plus. ring.
Qed.

Lemma halfInteger_0 : halfInteger 0.
Proof. exists 0. reflexivity. Qed.

(** *** Sums *)

Lemma sumQ_mono l : forall acc : Q,
  Forall (fun c => (0 <= c)%Q) l ->
  (acc <= fold_left (fun total num => total + num) l acc)%Q.
Proof.
  induction l as [|c l IH]; intros acc Hf; simpl; [apply Qle_refl|].
  inversion Hf as [|? ? Hc Hl]; subst.
  eapply Qle_trans; [|apply IH; exact Hl]. lra.
Qed.

Lemma each_le_sum l : forall acc : Q,
  Forall (fun c => (0 <= c)%Q) l -> (0 <= acc)%Q ->
  Forall (fun c => (c <= fold_left (fun total num => total + num) l acc)%Q) l.
Proof.
  induction l as [|c l IH]; intros acc Hf Hacc; simpl; [constructor|].
  inversion Hf as [|? ? Hc Hl]; subst. constructor.
  - eapply Qle_trans; [|apply sumQ_mono; exact Hl]. lra.
  - apply IH; [exact Hl|lra].
Qed.

Lemma sumQ_halfInteger l : forall acc : Q,
  Forall halfInteger l -> halfInteger acc ->
  halfInteger (fold_left (fun total num => total + num)%Q l acc).
Proof.
  induction l as [|c l IH]; intros acc Hf Hacc; simpl; [exact Hacc|].
  inversion Hf; subst. apply IH; [assumption|].
  apply halfInteger_plus; assumption.
Qed.

Lemma sumQ_lower l : forall acc : Q,
  Forall (fun c => (1 # 2 <= c)%Q) l ->
  (acc + (1 # 2) * inject_Z (Z.of_nat (List.length l))
   <= fold_left (fun total num => total + num) l acc)%Q.
Proof.
  induction l as [|c l IH]; intros acc Hf.
  - simpl. change (inject_Z 0) with 0%Q. ring_simplify. apply Qle_refl.
  - inversion Hf as [|? ? Hc Hl]; subst. cbn [fold_left].
    eapply Qle_trans; [|apply IH; exact Hl].
    cbn [List.length]. rewrite Nat2Z.inj_succ. unfold Z.succ.
    rewrite inject_Z_plus. change (inject_Z 1) with 1%Q.
    setoid_replace (acc + (1 # 2) * (inject_Z (Z.of_nat (List.length l)) + 1))%Q
      with (acc + (1 # 2) + (1 # 2) * inject_Z (Z.of_nat (List.length l)))%Q
      by ring.
    apply Qplus_le_l. apply Qplus_le_r. exact Hc.
Qed.

(** Adding up in double precision is exact while the sum stays below
    [2^51]. *)
Lemma fold_plus_exact Ns cs :
  Forall2 denotes Ns cs ->
  Forall halfInteger cs -> Forall (fun c => (0 <= c)%Q) cs ->
  forall a acc,
    denotes a acc -> halfInteger acc -> (0 <= acc)%Q ->
    (fold_left (fun total num => total + num) cs acc <= 2251799813685248)%Q ->
    denotes (fold_left JS.plus Ns a)
            (fold_left (fun total num => total + num)%Q cs acc).
Proof.
  induction 1 as [|N c Ns cs HN HF IH]; intros Hh Hp a acc Ha Hacc H0 Hb.
  - exact Ha.
  - inversion Hh as [|? ? Hc Hcs]; subst.
    inversion Hp as [|? ? Hc0 Hcs0]; subst. cbn [fold_left] in *.
    apply IH; try assumption.
    + destruct (halfInteger_plus acc c Hacc Hc) as [m Hm].
      apply (plus_exact _ _ _ _ m); [exact Ha|exact HN|exact Hm|].
      pose proof (sumQ_mono cs (acc + c) Hcs0) as Hle.
      assert (H1 : (inject_Z m <= inject_Z 4503599627370496)%Q).
      { change (inject_Z 4503599627370496) with 4503599627370496%Q. lra. }
      assert (H2 : (inject_Z 0 <= inject_Z m)%Q).
      { change (inject_Z 0) with 0%Q. lra. }
      rewrite <- Zle_Qle in H1, H2. lia.
    + apply halfInteger_plus; assumption.
    + lra.
Qed.

Lemma Math_round_mean_positive l :
  l <> [] -> Forall (fun c => (1 # 2 <= c)%Q) l ->
  0 < JS.Math_round (sumQ l / inject_Z (Z.of_nat (List.length l)))%Q.
Proof.
  intros Hne Hf.
  assert (Hn : (0 < inject_Z (Z.of_nat (List.length l)))%Q).
  { destruct l; [congruence|]. unfold Qlt. simpl. lia. }
  assert (Hm : (1 # 2 <= sumQ l / inject_Z (Z.of_nat (List.length l)))%Q).
  { apply Qle_shift_div_l; [exact Hn|].
    pose proof (sumQ_lower l 0 Hf) as H. unfold sumQ.
    eapply Qle_trans; [|exact H]. ring_simplify. apply Qle_refl. }
  unfold JS.Math_round.
  assert (H1 : Qfloor 1 <= Qfloor (sumQ l
                 / inject_Z (Z.of_nat (List.length l)) + (1 # 2))).
  { apply Qfloor_resp_le.
    setoid_replace 1%Q with ((1 # 2) + (1 # 2))%Q by reflexivity.
    apply Qplus_le_l. exact Hm. }
  change (Qfloor 1) with 1 in H1. lia.
Qed.

(** The mean of contributions that add up to at most [2^49] is computed
    without error, up to the rounding of [Math.round]. *)
Lemma mean_exact N cs :
  cs <> [] ->
  Forall halfInteger cs -> Forall (fun c => (1 # 2 <= c)%Q) cs ->
  (sumQ cs <= 562949953421312)%Q ->
  denotes N (sumQ cs) ->
  JS.Math_round_number (JS.over N (Z.of_nat (List.length cs)))
  = salaryShown
      (JS.Math_round (sumQ cs / inject_Z (Z.of_nat (List.length cs)))%Q).
Proof.
  intros Hne Hh Hhalf Hb HN.
  destruct N as [s|]; [|destruct HN]. simpl in HN.
  set (n := Z.of_nat (List.length cs)).
  assert (Hn : 0 < n) by (subst n; destruct cs; [congruence|simpl; lia]).
  assert (HnQ : (1 <= inject_Z n)%Q).
  { change 1%Q with (inject_Z 1). rewrite <- Zle_Qle. lia. }
  destruct (sumQ_halfInteger cs 0 Hh halfInteger_0) as [S2 HS2].
  fold (sumQ cs) in HS2.
  pose proof (sumQ_lower cs 0 Hhalf) as Hlow. fold (sumQ cs) in Hlow.
  fold n in Hlow.
  assert (HS2n : n <= S2 <= 2 ^ 50).
  { assert (H1 : (inject_Z n <= inject_Z S2)%Q) by lra.
    assert (H2 : (inject_Z S2 <= inject_Z (2 ^ 50))%Q).
    { change (inject_Z (2 ^ 50)) with 1125899906842624%Q. lra. }
    rewrite <- Zle_Qle in H1, H2. split; assumption. }
  assert (Hy : (s / inject_Z n * inject_Z (2 * n) == inject_Z S2)%Q).
  { rewrite inject_Z_mult. change (inject_Z 2) with 2%Q.
    rewrite HN, HS2. field. lra. }
  assert (Hy0 : (0 <= s / inject_Z n)%Q).
  { apply Qle_shift_div_l; [lra|]. lra. }
  assert (Hy1 : (s / inject_Z n <= inject_Z 562949953421312)%Q).
  { apply Qle_shift_div_r; [lra|].
    change (inject_Z 562949953421312) with 562949953421312%Q.
    assert (H : (562949953421312 * 1 <= 562949953421312 * inject_Z n)%Q)
      by (apply Qmult_le_l; [reflexivity|exact HnQ]).
    lra. }
  unfold JS.over, JS.number.
  rewrite (overflows_bounded _ 562949953421312); [|
    rewrite Qabs_pos by exact Hy0; exact Hy1 | reflexivity].
  unfold JS.Math_round_number, salaryShown. f_equal. f_equal.
  unfold JS.Math_round.
  rewrite (mean_round_exact _ S2 n Hn HS2n Hy).
  apply Qfloor_comp. rewrite HN. reflexivity.
Qed.

(** The salary metric is the rounded mean of the contributions, and is "not
    available" exactly when no job contributes, as long as the
    contributions add up to at most [2^49]. *)
Lemma averageSalary_roundedMean jobs :
  (sumQ (contributions jobs) <= 562949953421312)%Q ->
  Analytics.formatSalary (Analytics.averageSalary jobs)
  = option_map salaryShown (roundedMean (contributions jobs)).
Proof.
  intros Hb.
  pose proof (contributions_half jobs) as Hhalf.
  pose proof (contributions_halfInteger jobs) as Hh.
  assert (Hpos : Forall (fun c => (0 <= c)%Q) (contributions jobs)).
  { eapply Forall_impl; [|exact Hhalf]. intros c Hc. simpl in Hc. lra. }
  assert (Heach : Forall (fun c => (c <= 562949953421312)%Q)
                         (contributions jobs)).
  { pose proof (each_le_sum (contributions jobs) 0 Hpos (Qle_refl 0)) as H.
    eapply Forall_impl; [|exact H]. intros c Hc. simpl in Hc.
    unfold sumQ in Hb. lra. }
  pose proof (salaryNumbers_contributions jobs Heach) as H2.
  unfold Analytics.averageSalary.
  set (Ns := filter JS.positive
               (map Analytics.salaryNumber
                  (filter Analytics.hasDollarSalary jobs))) in *.
  assert (Hnone : Ns = [] -> contributions jobs = []).
  { intros E. rewrite E in H2. inversion H2. reflexivity. }
  destruct (filter Analytics.hasDollarSalary jobs) as [|j js] eqn:E.
  { rewrite (Hnone eq_refl). reflexivity. }
  cbn [List.length Nat.ltb Nat.leb].
  destruct Ns as [|N Ns'] eqn:EN.
  { rewrite (Hnone eq_refl). reflexivity. }
  cbn [List.length Nat.ltb Nat.leb].
  destruct (contributions jobs) as [|c cs] eqn:Ec; [inversion H2|].
  assert (Hlen : List.length (N :: Ns') = List.length (c :: cs))
    by (eapply Forall2_length; exact H2).
  assert (Htot : denotes (fold_left JS.plus (N :: Ns') (JS.Finite 0))
                         (sumQ (c :: cs))).
  { apply fold_plus_exact; try assumption.
    - simpl. reflexivity.
    - apply halfInteger_0.
    - apply Qle_refl.
    - unfold sumQ in Hb. lra. }
  change (S (List.length Ns')) with (List.length (N :: Ns')).
  rewrite Hlen.
  rewrite (mean_exact _ (c :: cs) ltac:(discriminate) Hh Hhalf Hb Htot).
  unfold roundedMean, option_map, Analytics.formatSalary, salaryShown.
  pose proof (Math_round_mean_positive (c :: cs) ltac:(discriminate) Hhalf)
    as Hp.
  unfold JS.positive.
  destruct (Qle_bool _ 0) eqn:Eb; [|reflexivity].
  apply Qle_bool_iff in Eb. change 0%Q with (inject_Z 0) in Eb.
  rewrite <- Zle_Qle in Eb. lia.
Qed.

(* ===================================================================== *)
(** ** Claims on the analytics *)
(* ===================================================================== *)

Lemma analyticsOf_run env s userId range :
  isObjectId env userId = true ->
  let start := windowStart env s range in
  let apps := windowApplications userId start s in
  exists d,
    analyticsOf env s userId range = Some d
    /\ Analytics.totalApplications (Analytics.metrics d)
       = Z.of_nat (List.length apps)
    /\ Analytics.m_averageResponseTime (Analytics.metrics d)
       = Analytics.averageResponseTime apps
    /\ Analytics.m_averageSalary (Analytics.metrics d)
       = Analytics.formatSalary
           (Analytics.averageSalary (postedJobs userId start s))
    /\ Analytics.d_monthlyData d
       = Analytics.monthlyData (trendNow env s range) apps
    /\ Analytics.d_topCompanies d = Analytics.topCompanies apps.
Proof.
  intros Hu start apps.
  destruct (getAnalytics_run env s userId range Hu)
    as [d [s' [Hs [_ [_ H]]]]].
  exists d. unfold analyticsOf. rewrite Hs. split; [reflexivity | exact H].
Qed.

(** C3, as the code has it.  The salary metric is computed from the jobs
    that the user posted in the window and whose salary text contains a
    ['$'], not from the jobs of the user's applications.  For salary texts
    written without separators: a text with two or more numbers contributes
    the midpoint of the first two, a text with one number contributes it,
    a text without a number (or a contribution of zero) is left out; the
    metric is the mean of the contributions rounded to the nearest integer,
    and "not available" when there is no contribution.  This is for
    contributions that add up to at most [2^49 = 562949953421312], where
    the double precision arithmetic of the controller makes no error. *)
Theorem averageSalary_of_posted_jobs env s userId range :
  isObjectId env userId = true ->
  let posted := postedJobs userId (windowStart env s range) s in
  forallb plainNumbers posted = true ->
  (sumQ (contributions posted) <= 562949953421312)%Q ->
  exists d,
    analyticsOf env s userId range = Some d
    /\ Analytics.m_averageSalary (Analytics.metrics d)
       = option_map salaryShown (roundedMean (contributions posted)).
Proof.
  intros Hu posted _ Hb.
  destruct (analyticsOf_run env s userId range Hu)
    as [d [Hd [_ [_ [Hsal _]]]]].
  exists d. split; [exact Hd|].
  rewrite Hsal. apply averageSalary_roundedMean. exact Hb.
Qed.

(** The two salaries of the scenario, written without separators and
    posted by the caller, average to 100000. *)
Lemma averageSalary_of_posted_jobs_witness :
  exists d,
    analyticsOf Sample.env Sample2.store' "u9" (Some "all") = Some d
    /\ Analytics.m_averageSalary (Analytics.metrics d)
       = Some (salaryShown 100000).
Proof.
  destruct (averageSalary_of_posted_jobs Sample.env Sample2.store' "u9"
              (Some "all")) as [d [H1 H2]];
    [reflexivity | reflexivity | vm_compute; discriminate |].
  exists d. split; [exact H1|]. rewrite H2. reflexivity.
Defined.

(** C3 fails as stated.  User [u1] has applied to two jobs, with salaries
    ["$100000 - $120000"] and ["$90000"], and has posted none: the metric
    is "not available", not 100000.  For the user who posted the two jobs
    with the salaries written ["$100,000 - $120,000"] and ["$90,000"], the
    metric is 48.  And for one posted job with the salary
    ["$9007199254740993"], the metric is 9007199254740992: the number is
    not a double. *)
Lemma averageSalary_ignores_applications :
  option_map (fun d => Analytics.m_averageSalary (Analytics.metrics d))
    (analyticsOf Sample.env Sample2.store' "u1" (Some "all"))
  = Some None
  /\ option_map (fun d => Analytics.m_averageSalary (Analytics.metrics d))
       (analyticsOf Sample.env Sample2.store "u9" (Some "all"))
     = Some (Some (salaryShown 48))
  /\ option_map (fun d => Analytics.m_averageSalary (Analytics.metrics d))
       (analyticsOf Sample.env Sample2.huge "u9" (Some "all"))
     = Some (Some (salaryShown 9007199254740992))
  /\ roundedMean (contributions (postedJobs "u9" 0 Sample2.huge))
     = Some 9007199254740993.
Proof. repeat split; vm_compute; reflexivity. Qed.

(** Past [2^53] a salary is no longer held exactly: [2^53 + 1] is read as
    [2^53].  A run of 400 digits is read as [Infinity]. *)
Example parseInt_rounds :
  JS.parseInt "9007199254740993" = JS.Finite 9007199254740992
  /\ JS.parseInt (JS.rev_string (repeat "9"%char 400)) = JS.Infinity.
Proof. split; vm_compute; reflexivity. Qed.

(** The upper bound of a month's bucket is midnight at the start of its
    last day: the next bucket starts a whole day later. *)
Lemma monthEnd_last_midnight (y m : Z) :
  JSDate.Date_ymd y (m + 1) 0 + JSDate.msPerDay = JSDate.Date_ymd y (m + 1) 1.
Proof. unfold JSDate.Date_ymd, JSDate.MakeDay. ring. Qed.

(** A time in the course of the last day of a month is in the bucket of
    neither that month nor the next. *)
Lemma last_day_outside_buckets (now i t : Z) :
  let y := JSDate.getFullYear now in
  let m := JSDate.getMonth now in
  JSDate.Date_ymd y (m - i + 1) 0 < t < JSDate.Date_ymd y (m - i + 1) 1 ->
  Analytics.within (JSDate.Date_ymd y (m - i) 1)
                   (JSDate.Date_ymd y (m - i + 1) 0) t = false
  /\ Analytics.within (JSDate.Date_ymd y (m - (i - 1)) 1)
                      (JSDate.Date_ymd y (m - (i - 1) + 1) 0) t = false.
Proof.
  intros y m [Hlo Hhi]. unfold Analytics.within. split.
  - apply andb_false_iff. right. apply Z.leb_gt. exact Hlo.
  - apply andb_false_iff. left. apply Z.leb_gt.
    replace (m - (i - 1)) with (m - i + 1) by ring. exact Hhi.
Qed.

(** C4: the code at the failing input.  On 2024-03-15 the trend of a user
    whose one application, in status ['interviewing'], was created and
    last updated on 2024-01-31 at noon shows nothing in January, although
    the record is in the window and both times fall in January 2024.  The
    same record dated 2024-01-31 at 00:00 is counted: the upper bound of a
    month is the start of its last day. *)
Theorem monthly_trend_drops_last_day :
  (JSDate.getFullYear Sample3.noon_2024_01_31,
   JSDate.getMonth Sample3.noon_2024_01_31) = (2024, 0)
  /\ option_map
       (fun d => (Analytics.totalApplications (Analytics.metrics d),
                  Analytics.d_monthlyData d))
       (analyticsOf Sample3.env (Sample3.store_at Sample3.noon_2024_01_31)
          "u1" (Some "all"))
     = Some (1, [Month.mk "Oct" 0 0 0; Month.mk "Nov" 0 0 0;
                 Month.mk "Dec" 0 0 0; Month.mk "Jan" 0 0 0;
                 Month.mk "Feb" 0 0 0; Month.mk "Mar" 0 0 0])
  /\ option_map Analytics.d_monthlyData
       (analyticsOf Sample3.env (Sample3.store_at Sample3.midnight_2024_01_31)
          "u1" (Some "all"))
     = Some [Month.mk "Oct" 0 0 0; Month.mk "Nov" 0 0 0;
             Month.mk "Dec" 0 0 0; Month.mk "Jan" 1 1 0;
             Month.mk "Feb" 0 0 0; Month.mk "Mar" 0 0 0].
Proof. repeat split; vm_compute; reflexivity. Qed.

(* ===================================================================== *)
(** ** The grouping table *)
(* ===================================================================== *)

Section TableFacts.
Context {V : Type}.
Implicit Types (t : JS.table V) (k : string) (v : V).

Lemma get_set_same t k v : JS.get (JS.set t k v) k = Some v.
Proof.
  induction t as [|[k' v'] t IH]; simpl.
  - rewrite String.eqb_refl. reflexivity.
  - destruct (String.eqb k' k) eqn:E; simpl; rewrite E; [reflexivity | exact IH].
Qed.

Lemma get_set_other t k k' v : k <> k' -> JS.get (JS.set t k v) k' = JS.get t k'.
Proof.
  intros Hne. induction t as [|[k0 v0] t IH]; simpl.
  - apply String.eqb_neq in Hne. rewrite Hne. reflexivity.
  - destruct (String.eqb k0 k) eqn:E; simpl.
    + apply String.eqb_eq in E. subst k0.
      apply String.eqb_neq in Hne. rewrite Hne. reflexivity.
    + rewrite IH. reflexivity.
Qed.

Lemma keys_set t k v :
  map fst (JS.set t k v)
  = match JS.get t k with
    | Some _ => map fst t
    | None => (map fst t ++ [k])%list
    end.
Proof.
  induction t as [|[k0 v0] t IH]; simpl; [reflexivity|].
  destruct (String.eqb k0 k) eqn:E; simpl; [reflexivity|].
  rewrite IH. destruct (JS.get t k); reflexivity.
Qed.

Lemma get_In t k v : JS.get t k = Some v -> In (k, v) t.
Proof.
  induction t as [|[k0 v0] t IH]; simpl; [discriminate|].
  destruct (String.eqb k0 k) eqn:E.
  - apply String.eqb_eq in E. intros [= <-]. left. congruence.
  - intros H. right. exact (IH H).
Qed.

Lemma In_get t k v : NoDup (map fst t) -> In (k, v) t -> JS.get t k = Some v.
Proof.
  induction t as [|[k0 v0] t IH]; simpl; [tauto|].
  intros Hnd [H|H]; inversion Hnd as [|? ? Hni Hnd']; subst.
  - inversion H; subst. rewrite String.eqb_refl. reflexivity.
  - destruct (String.eqb k0 k) eqn:E.
    + apply String.eqb_eq in E. subst. exfalso. apply Hni.
      change k with (fst (k, v)). apply in_map. exact H.
    + exact (IH Hnd' H).
Qed.

Lemma get_None_keys t k : JS.get t k = None <-> ~ In k (map fst t).
Proof.
  induction t as [|[k0 v0] t IH]; simpl; [tauto|].
  destruct (String.eqb k0 k) eqn:E.
  - apply String.eqb_eq in E. split; [discriminate | intros H; tauto].
  - apply String.eqb_neq in E. rewrite IH. tauto.
Qed.
End TableFacts.

Lemma addApplication_skip t app :
  companyOf app = None -> Analytics.addApplication t app = t.
Proof.
  unfold companyOf, Analytics.addApplication.
  destruct (snd app) as [j|]; [|reflexivity].
  destruct (JS.truthy (company j)); [|reflexivity].
  destruct (JS.inherited (company j)); [reflexivity | discriminate].
Qed.

Lemma addApplication_group t app c :
  companyOf app = Some c ->
  JS.get (Analytics.addApplication t app) c = Some (bumpStats app (statsOr0 t c))
  /\ (forall c', c <> c' ->
        JS.get (Analytics.addApplication t app) c' = JS.get t c')
  /\ map fst (Analytics.addApplication t app)
     = match JS.get t c with
       | Some _ => map fst t
       | None => (map fst t ++ [c])%list
       end.
Proof.
  unfold companyOf, Analytics.addApplication, bumpStats, statsOr0.
  destruct (snd app) as [j|]; [|discriminate].
  destruct (JS.truthy (company j)); [|discriminate].
  destruct (JS.inherited (company j)); [discriminate|]. cbn [andb negb].
  intros [= <-].
  set (c := company j).
  set (t1 := match JS.get t c with
             | Some _ => t
             | None => JS.set t c Stats.zero
             end).
  assert (H1 : JS.get t1 c = Some (match JS.get t c with
                                   | Some st => st
                                   | None => Stats.zero
                                   end)).
  { subst t1. destruct (JS.get t c) eqn:E; [exact E | apply get_set_same]. }
  assert (K1 : map fst t1 = match JS.get t c with
                            | Some _ => map fst t
                            | None => (map fst t ++ [c])%list
                            end).
  { subst t1. destruct (JS.get t c) eqn:E; [reflexivity|].
    rewrite keys_set, E. reflexivity. }
  assert (O1 : forall c', c <> c' -> JS.get t1 c' = JS.get t c').
  { intros c' Hne. subst t1. destruct (JS.get t c); [reflexivity|].
    apply get_set_other. exact Hne. }
  clearbody t1. rewrite H1.
  set (st0 := match JS.get t c with Some st => st | None => Stats.zero end)
    in *.
  set (t2 := JS.set t1 c _).
  assert (H2 : JS.get t2 c = Some (Stats.mk (Stats.applications st0 + 1)
                                     (Stats.interviews st0) (Stats.offers st0)))
    by apply get_set_same.
  assert (K2 : map fst t2 = map fst t1).
  { subst t2. rewrite keys_set, H1. reflexivity. }
  assert (O2 : forall c', c <> c' -> JS.get t2 c' = JS.get t1 c').
  { intros c' Hne. apply get_set_other. exact Hne. }
  clearbody t2.
  destruct (Analytics.hasStatus "interviewing" app);
    destruct (Analytics.hasStatus "offer" app);
    rewrite ?H2; cbn [Stats.applications Stats.interviews Stats.offers];
    repeat match goal with
      | |- context [JS.get (JS.set ?a ?k ?v) ?k] =>
          rewrite (get_set_same a k v)
      end;
    rewrite ?Z.add_0_r;
    (split; [try reflexivity; try apply get_set_same|]);
    (split;
     [intros c' Hne; rewrite ?get_set_other by exact Hne;
      rewrite O2, O1 by exact Hne; reflexivity
     |rewrite ?keys_set, ?get_set_same, ?H2; rewrite ?keys_set, ?H2;
      rewrite K2, K1; reflexivity]).
Qed.

Lemma count_snoc {A} (p : A -> bool) l x :
  Analytics.count p (l ++ [x]) = Analytics.count p l + (if p x then 1 else 0).
Proof.
  unfold Analytics.count. rewrite filter_app, length_app. simpl.
  destruct (p x); simpl; lia.
Qed.


Lemma companies_snoc l x :
  companies (l ++ [x])
  = (companies l ++ match companyOf x with Some c => [c] | None => [] end)%list.
Proof.
  induction l as [|a l IH]; simpl.
  - destruct (companyOf x); reflexivity.
  - destruct (companyOf a); simpl; rewrite IH; reflexivity.
Qed.

Lemma In_firstOccurrences x l : In x (firstOccurrences l) <-> In x l.
Proof.
  induction l as [|y l IH]; simpl; [tauto|].
  rewrite filter_In, IH, negb_true_iff, String.eqb_neq.
  destruct (string_dec y x); tauto.
Qed.

Lemma NoDup_firstOccurrences l : NoDup (firstOccurrences l).
Proof.
  induction l as [|y l IH]; simpl; constructor.
  - rewrite filter_In, negb_true_iff, String.eqb_neq. tauto.
  - apply NoDup_filter. exact IH.
Qed.

Lemma firstOccurrences_snoc l c :
  firstOccurrences (l ++ [c])
  = if in_dec string_dec c l then firstOccurrences l
    else (firstOccurrences l ++ [c])%list.
Proof.
  induction l as [|y l IH]; simpl; [reflexivity|].
  rewrite IH. destruct (in_dec string_dec c l) as [Hin|Hni].
  - destruct (string_dec y c); reflexivity.
  - rewrite filter_app. simpl. destruct (string_dec y c) as [->|Hne].
    + rewrite String.eqb_refl. simpl. rewrite app_nil_r. reflexivity.
    + apply String.eqb_neq in Hne. rewrite Hne. reflexivity.
Qed.

Lemma isCompany_companies c l :
  ~ In c (companies l) -> forall a, In a l -> isCompany c a = false.
Proof.
  induction l as [|x l IH]; simpl; [tauto|].
  intros Hni a [Hx|Ha]; unfold isCompany in *.
  - subst a. destruct (companyOf x) as [c'|] eqn:E; [|reflexivity].
    apply String.eqb_neq. intros ->. apply Hni. left. reflexivity.
  - apply IH; [|exact Ha]. destruct (companyOf x); simpl in Hni; tauto.
Qed.

Lemma count_none {A} (p : A -> bool) l :
  (forall a, In a l -> p a = false) -> Analytics.count p l = 0.
Proof.
  intros H. unfold Analytics.count.
  induction l as [|x l IH]; simpl; [reflexivity|].
  rewrite (H x) by (left; reflexivity). apply IH.
  intros a Ha. apply H. right. exact Ha.
Qed.

Lemma statsFor_absent c l : ~ In c (companies l) -> statsFor c l = Stats.zero.
Proof.
  intros Hni. pose proof (isCompany_companies c l Hni) as H.
  unfold statsFor, Stats.zero. f_equal; apply count_none; intros a Ha;
    rewrite (H a Ha); reflexivity.
Qed.

Lemma statsFor_snoc c l x :
  statsFor c (l ++ [x])
  = if isCompany c x then bumpStats x (statsFor c l) else statsFor c l.
Proof.
  unfold statsFor, bumpStats. rewrite !count_snoc.
  destruct (isCompany c x); simpl;
    rewrite ?Z.add_0_r; reflexivity.
Qed.

Lemma count_positive c l : In c (companies l) -> 0 < Analytics.count (isCompany c) l.
Proof.
  induction l as [|x l IH]; simpl; [tauto|].
  unfold Analytics.count in *. simpl. unfold isCompany at 1.
  destruct (companyOf x) as [c'|] eqn:E; simpl.
  - intros [->|H].
    + rewrite String.eqb_refl. simpl. lia.
    + specialize (IH H). destruct (String.eqb c' c); simpl; lia.
  - exact IH.
Qed.

(** The table after the loop: one entry per company, in the order of first
    occurrence, holding the counters of that company. *)
Lemma companyStatsOf_spec apps :
  map fst (Analytics.companyStatsOf apps) = firstOccurrences (companies apps)
  /\ forall c, In c (companies apps) ->
       JS.get (Analytics.companyStatsOf apps) c = Some (statsFor c apps).
Proof.
  unfold Analytics.companyStatsOf.
  induction apps as [|x l [IHk IHg]] using rev_ind; [simpl; tauto|].
  rewrite fold_left_app. cbn [fold_left]. rewrite companies_snoc.
  set (t := fold_left Analytics.addApplication l []) in *.
  destruct (companyOf x) as [c0|] eqn:E.
  2:{ rewrite (addApplication_skip t x E), app_nil_r.
      split; [exact IHk|]. intros c Hc. rewrite statsFor_snoc.
      unfold isCompany. rewrite E. apply IHg. exact Hc. }
  destruct (addApplication_group t x c0 E) as [Hg [Ho Hk]].
  assert (Hmem : forall v, JS.get t c0 = Some v -> In c0 (companies l)).
  { intros v Hv. apply In_firstOccurrences. rewrite <- IHk.
    apply get_In in Hv. change c0 with (fst (c0, v)). apply in_map. exact Hv. }
  assert (Habs : JS.get t c0 = None -> ~ In c0 (companies l)).
  { intros Hn Hin. apply get_None_keys in Hn. apply Hn. rewrite IHk.
    apply In_firstOccurrences. exact Hin. }
  split.
  - rewrite Hk, firstOccurrences_snoc.
    destruct (JS.get t c0) as [v|] eqn:Ev;
      destruct (in_dec string_dec c0 (companies l)) as [Hin|Hni].
    + exact IHk.
    + exfalso. apply Hni. eapply Hmem. reflexivity.
    + exfalso. apply (Habs eq_refl). exact Hin.
    + rewrite IHk. reflexivity.
  - intros c Hc. rewrite statsFor_snoc. unfold isCompany. rewrite E.
    destruct (string_dec c0 c) as [<-|Hne].
    + rewrite String.eqb_refl, Hg. f_equal. f_equal. unfold statsOr0.
      destruct (JS.get t c0) as [v|] eqn:Ev.
      * rewrite IHg in Ev by (eapply Hmem; reflexivity). congruence.
      * symmetry. apply statsFor_absent. apply Habs. reflexivity.
    + rewrite (Ho c Hne). apply String.eqb_neq in Hne as Hb. rewrite Hb.
      apply IHg. apply in_app_or in Hc. destruct Hc as [Hc|[Hc|[]]];
        [exact Hc | congruence].
Qed.

(* ===================================================================== *)
(** ** Enumeration order and sorting *)
(* ===================================================================== *)

Section EntriesFacts.
Context {V : Type}.
Implicit Types (t : JS.table V) (e : string * V).

Lemma insert_index_perm e t : Permutation (JS.insert_index e t) (e :: t).
Proof.
  induction t as [|e' t IH]; simpl; [apply Permutation_refl|].
  destruct (Z.ltb (JS.digitsValue (fst e)) (JS.digitsValue (fst e'))).
  - apply Permutation_refl.
  - eapply Permutation_trans; [apply perm_skip; exact IH | apply perm_swap].
Qed.

Lemma sorted_index_perm t : Permutation (fold_right JS.insert_index [] t) t.
Proof.
  induction t as [|e t IH]; simpl; [constructor|].
  eapply Permutation_trans; [apply insert_index_perm|].
  apply perm_skip. exact IH.
Qed.

Lemma partition_perm (p : string * V -> bool) t :
  Permutation (filter p t ++ filter (fun e => negb (p e)) t) t.
Proof.
  induction t as [|e t IH]; simpl; [constructor|].
  destruct (p e); simpl.
  - apply perm_skip. exact IH.
  - apply Permutation_sym. apply Permutation_cons_app.
    apply Permutation_sym. exact IH.
Qed.

Lemma Object_entries_perm t : Permutation (JS.Object_entries t) t.
Proof.
  unfold JS.Object_entries.
  eapply Permutation_trans; [|apply (partition_perm
                                       (fun e => JS.isArrayIndex (fst e)))].
  apply Permutation_app_tail. apply sorted_index_perm.
Qed.

(** The array-index keys come in ascending numeric order. *)
Lemma insert_index_sorted e t :
  StronglySorted
    (fun a b => JS.digitsValue (fst a) <= JS.digitsValue (fst b)) t ->
  StronglySorted
    (fun a b => JS.digitsValue (fst a) <= JS.digitsValue (fst b))
    (JS.insert_index e t).
Proof.
  induction t as [|e' t IH]; simpl; intros Hs.
  - constructor; constructor.
  - inversion Hs as [|? ? Hl He']; subst.
    destruct (Z.ltb_spec (JS.digitsValue (fst e)) (JS.digitsValue (fst e')))
      as [Hlt|Hge].
    + constructor; [exact Hs|]. constructor; [lia|].
      eapply Forall_impl; [|exact He']. simpl. intros a Ha. lia.
    + constructor; [exact (IH Hl)|].
      eapply Permutation_Forall;
        [apply Permutation_sym; apply insert_index_perm|].
      constructor; [exact Hge | exact He'].
Qed.

Lemma sorted_index_sorted t :
  StronglySorted
    (fun a b => JS.digitsValue (fst a) <= JS.digitsValue (fst b))
    (fold_right JS.insert_index [] t).
Proof.
  induction t as [|e t IH]; simpl; [constructor|].
  apply insert_index_sorted. exact IH.
Qed.

(** Without array-index keys the entries come in order of creation. *)
Lemma Object_entries_plain t :
  forallb (fun e => negb (JS.isArrayIndex (fst e))) t = true ->
  JS.Object_entries t = t.
Proof.
  unfold JS.Object_entries. induction t as [|e t IH]; [reflexivity|].
  simpl. intros H. apply andb_true_iff in H as [He Ht].
  rewrite He. apply negb_true_iff in He. rewrite He. simpl.
  specialize (IH Ht).
  assert (Hn : filter (fun e => JS.isArrayIndex (fst e)) t = []).
  { clear IH. induction t as [|x t IHt]; [reflexivity|]. simpl in *.
    apply andb_true_iff in Ht as [Hx Ht]. apply negb_true_iff in Hx.
    rewrite Hx. apply IHt. exact Ht. }
  rewrite Hn in *. simpl in *. congruence.
Qed.
End EntriesFacts.

Section SortFacts.
Context {A : Type} (key : A -> Z).
Let cmp (a b : A) : Z := key b - key a.

Lemma sort_insert_perm x l : Permutation (JS.sort_insert cmp x l) (x :: l).
Proof.
  induction l as [|y l IH]; simpl; [apply Permutation_refl|].
  destruct (Z.ltb 0 (cmp x y)).
  - eapply Permutation_trans; [apply perm_skip; exact IH | apply perm_swap].
  - apply Permutation_refl.
Qed.

Lemma sort_perm l : Permutation (JS.sort cmp l) l.
Proof.
  unfold JS.sort. induction l as [|x l IH]; simpl; [constructor|].
  eapply Permutation_trans; [apply sort_insert_perm|].
  apply perm_skip. exact IH.
Qed.

Let desc := StronglySorted (fun a b => key b <= key a).

Lemma sort_insert_desc x l : desc l -> desc (JS.sort_insert cmp x l).
Proof.
  unfold desc. induction l as [|y l IH]; simpl; intros Hs.
  - constructor; constructor.
  - inversion Hs as [|? ? Hl Hy]; subst.
    destruct (Z.ltb_spec 0 (cmp x y)) as [Hlt|Hge]; unfold cmp in *.
    + constructor; [exact (IH Hl)|].
      eapply Permutation_Forall;
        [apply Permutation_sym; apply sort_insert_perm|].
      constructor; [lia | exact Hy].
    + constructor; [exact Hs|]. constructor; [lia|].
      eapply Forall_impl; [|exact Hy]. simpl. intros a Ha. lia.
Qed.

Lemma sort_desc l : desc (JS.sort cmp l).
Proof.
  unfold JS.sort. induction l as [|x l IH]; simpl.
  - constructor.
  - apply sort_insert_desc. exact IH.
Qed.

Lemma sort_insert_filter n x l :
  filter (fun r => Z.eqb (key r) n) (JS.sort_insert cmp x l)
  = filter (fun r => Z.eqb (key r) n) (x :: l).
Proof.
  induction l as [|y l IH]; [reflexivity|].
  cbn [JS.sort_insert].
  destruct (Z.ltb_spec 0 (cmp x y)) as [Hlt|Hge]; [|reflexivity].
  unfold cmp in Hlt. cbn [filter] in *. rewrite IH.
  destruct (Z.eqb_spec (key x) n), (Z.eqb_spec (key y) n);
    try reflexivity. lia.
Qed.

(** The sort is stable: rows with equal keys keep their order. *)
Lemma sort_stable n l :
  filter (fun r => Z.eqb (key r) n) (JS.sort cmp l)
  = filter (fun r => Z.eqb (key r) n) l.
Proof.
  unfold JS.sort. induction l as [|x l IH]; [reflexivity|].
  cbn [fold_right]. rewrite sort_insert_filter. cbn [filter].
  rewrite IH. reflexivity.
Qed.
End SortFacts.

(* ===================================================================== *)
(** ** Top companies *)
(* ===================================================================== *)

Lemma companyRow_statsFor apps c :
  In c (companies apps) ->
  Analytics.companyRow (c, statsFor c apps) = groupRow apps c.
Proof.
  intros _. reflexivity.
Qed.

Lemma entries_are_groups apps e :
  In e (JS.Object_entries (Analytics.companyStatsOf apps)) ->
  In (fst e) (companies apps) /\ snd e = statsFor (fst e) apps.
Proof.
  intros He. destruct (companyStatsOf_spec apps) as [Hk Hg].
  apply (Permutation_in _ (Object_entries_perm _)) in He.
  destruct e as [c st]. simpl.
  assert (Hc : In c (companies apps)).
  { apply In_firstOccurrences. rewrite <- Hk.
    change c with (fst (c, st)). apply in_map. exact He. }
  split; [exact Hc|].
  apply In_get in He.
  - rewrite (Hg c Hc) in He. congruence.
  - rewrite Hk. apply NoDup_firstOccurrences.
Qed.

Lemma rows_are_groupRows apps :
  map Analytics.companyRow (JS.Object_entries (Analytics.companyStatsOf apps))
  = map (groupRow apps) (groupingOrder apps).
Proof.
  unfold groupingOrder. rewrite map_map. apply map_ext_in.
  intros e He. destruct (entries_are_groups apps e He) as [Hc Hs].
  destruct e as [c st]. simpl in *. subst st.
  apply companyRow_statsFor. exact Hc.
Qed.

Lemma groupingOrder_perm apps :
  Permutation (groupingOrder apps) (firstOccurrences (companies apps)).
Proof.
  unfold groupingOrder. destruct (companyStatsOf_spec apps) as [Hk _].
  rewrite <- Hk. apply Permutation_map. apply Object_entries_perm.
Qed.

Lemma groupingOrder_plain apps :
  forallb (fun c => negb (JS.isArrayIndex c)) (companies apps) = true ->
  groupingOrder apps = firstOccurrences (companies apps).
Proof.
  intros H. unfold groupingOrder. destruct (companyStatsOf_spec apps) as [Hk _].
  rewrite Object_entries_plain; [exact Hk|].
  apply forallb_forall. intros e He.
  rewrite forallb_forall in H. apply H.
  apply In_firstOccurrences. rewrite <- Hk. apply in_map. exact He.
Qed.

Lemma topCompanies_topFive apps :
  topFiveOf (map (groupRow apps) (groupingOrder apps))
            (Analytics.topCompanies apps).
Proof.
  unfold topFiveOf, Analytics.topCompanies, JS.slice0.
  rewrite rows_are_groupRows.
  exists (JS.sort Analytics.byApplications
            (map (groupRow apps) (groupingOrder apps))).
  split; [apply (sort_perm Company.applications)|].
  split; [apply (sort_desc Company.applications)|].
  split; [|reflexivity].
  intros n. apply (sort_stable Company.applications).
Qed.

(* ===================================================================== *)
(** ** More on the tracker: what one request can do *)
(* ===================================================================== *)

Lemma create_user_not_castable env s userId j st :
  JS.truthy j = true ->
  isObjectId env j = true ->
  jobResolves (Some j) s = true ->
  isObjectId env userId = false ->
  Tracker.createApplication userId (Some j) st env s = (Thrown CastError, s).
Proof.
  intros Ht Hc Hr Hu. unfold Tracker.createApplication. simpl.
  rewrite Ht. simpl. run_monad. rewrite Hc. unfold jobResolves in Hr.
  rewrite find_existsb in Hr.
  destruct (find _ (jobs s)); [|discriminate Hr].
  rewrite Hu. reflexivity.
Qed.

Ltac thrown_case :=
  simpl; split; [reflexivity|]; left; eexists;
  split; [reflexivity|]; split; [vm_compute; discriminate | reflexivity].

Lemma includes_statusEnum x : JS.includes statusEnum x = true -> In x statusEnum.
Proof. apply includes_In. Qed.

(** A creation request either throws and leaves the collections as they
    are, or appends one document: a listed status, the caller as user, the
    job of the request, which the caller had not applied to. *)
Lemma create_step_cases env s userId jobId st :
  let r := Tracker.createApplication userId jobId st env s in
  jobs (snd r) = jobs s
  /\ ((exists e, fst r = Thrown e /\ 400 <= answerCode e
                 /\ applications (snd r) = applications s)
      \/ (exists doc pj j,
            fst r = Value (201, (doc, pj)) /\ jobId = Some j
            /\ applications (snd r) = (applications s ++ [doc])%list
            /\ In (status doc) statusEnum
            /\ user doc = userId /\ job doc = j
            /\ _id doc = freshId env (minted s)
            /\ alreadyApplied userId (Some j) s = false)).
Proof.
  intros r. subst r.
  destruct (JS.truthy_opt jobId) eqn:Ht.
  2:{ rewrite create_no_jobId by exact Ht. thrown_case. }
  destruct jobId as [j|]; [|discriminate Ht]. simpl in Ht.
  destruct (isObjectId env j) eqn:Hc.
  2:{ rewrite create_job_not_castable by assumption. thrown_case. }
  destruct (jobResolves (Some j) s) eqn:Hr.
  2:{ rewrite create_job_missing by assumption. thrown_case. }
  destruct (isObjectId env userId) eqn:Hu.
  2:{ rewrite create_user_not_castable by assumption. thrown_case. }
  destruct (alreadyApplied userId (Some j) s) eqn:Hd.
  { rewrite create_duplicate by assumption. thrown_case. }
  destruct (JS.includes statusEnum (orSaved st)) eqn:Hx.
  - rewrite create_ok by assumption. simpl. split; [reflexivity|]. right.
    do 3 eexists. repeat split; try reflexivity; try assumption.
    simpl. apply includes_statusEnum. exact Hx.
  - destruct st as [x|]; [|discriminate Hx].
    rewrite create_bad_status by assumption. thrown_case.
Qed.

(** A deletion request either throws and leaves the collections as they
    are, or removes the document it found. *)
Lemma delete_step_cases env s userId id :
  let r := Tracker.deleteApplication userId id env s in
  jobs (snd r) = jobs s
  /\ ((exists e, fst r = Thrown e /\ 400 <= answerCode e
                 /\ applications (snd r) = applications s)
      \/ (exists a,
            fst r = Value (200, tt) /\ lookup id s = Some a
            /\ user a = userId
            /\ applications (snd r)
               = Query.deleteOne (hasId (_id a)) (applications s))).
Proof.
  intros r. subst r.
  destruct (isObjectId env id) eqn:Hc.
  2:{ rewrite delete_not_castable by assumption. thrown_case. }
  destruct (lookup id s) as [a|] eqn:Hl.
  2:{ rewrite delete_missing by assumption. thrown_case. }
  destruct (String.eqb (user a) userId) eqn:Hu.
  2:{ rewrite (delete_foreign env s userId id a) by assumption. thrown_case. }
  apply String.eqb_eq in Hu. subst userId.
  rewrite delete_ok by assumption. simpl. split; [reflexivity|]. right.
  exists a. auto.
Qed.

(** A status change either throws and leaves the collections as they are,
    or gives the document it found the update document of the request. *)
Lemma update_step_full env s userId id st :
  let r := Tracker.updateApplicationStatus userId id st env s in
  jobs (snd r) = jobs s
  /\ ((exists e, fst r = Thrown e /\ 400 <= answerCode e
                 /\ applications (snd r) = applications s)
      \/ (exists a requested v,
            fst r = Value (200, v) /\ st = Some requested
            /\ lookup id s = Some a /\ user a = userId
            /\ In requested statusEnum
            /\ applications (snd r)
               = Query.updateOne (hasId id)
                   (applyUpdate (updateDataFor env (ticks s) a requested))
                   (applications s))).
Proof.
  intros r. subst r.
  destruct (Tracker.includesStatus st) eqn:Hv.
  2:{ rewrite update_invalid by exact Hv. thrown_case. }
  destruct (isObjectId env id) eqn:Hc.
  2:{ rewrite update_not_castable by assumption. thrown_case. }
  destruct (lookup id s) as [a|] eqn:Hl.
  2:{ rewrite update_missing by assumption. thrown_case. }
  destruct (String.eqb (user a) userId) eqn:Hu.
  2:{ apply String.eqb_neq in Hu.
      rewrite (update_foreign env s userId id st a) by assumption.
      thrown_case. }
  apply String.eqb_eq in Hu. subst userId.
  destruct st as [requested|]; [|discriminate Hv].
  destruct (update_ok env s id requested a Hv Hc Hl) as [n Hn].
  rewrite Hn. simpl. split; [reflexivity|]. right.
  exists a, requested. eexists. repeat split; try reflexivity.
  apply includes_statusEnum. exact Hv.
Qed.


Lemma statusCode_answer {D} (e : Exn) :
  statusCode_of (@errorMiddleware D e) = answerCode e.
Proof. destruct e; reflexivity. Qed.

Section CollectionFacts.
Context {D : Type}.
Implicit Types (p : D -> bool) (f : D -> D) (l : list D).

Lemma Forall_updateOne (P : D -> Prop) p f l :
  Forall P l -> (forall d, P (f d)) -> Forall P (Query.updateOne p f l).
Proof.
  intros Hl Hf. induction Hl as [|d l Hd Hl IH]; simpl; [constructor|].
  destruct (p d); constructor; auto.
Qed.

Lemma Forall_deleteOne (P : D -> Prop) p l :
  Forall P l -> Forall P (Query.deleteOne p l).
Proof.
  intros Hl. induction Hl as [|d l Hd Hl IH]; simpl; [constructor|].
  destruct (p d); [exact Hl | constructor; assumption].
Qed.

Lemma map_updateOne {B} (g : D -> B) p f l :
  (forall d, g (f d) = g d) -> map g (Query.updateOne p f l) = map g l.
Proof.
  intros Hg. induction l as [|d l IH]; simpl; [reflexivity|].
  destruct (p d); simpl; [rewrite Hg | rewrite IH]; reflexivity.
Qed.

Lemma In_deleteOne p l d : In d (Query.deleteOne p l) -> In d l.
Proof.
  induction l as [|x l IH]; simpl; [tauto|].
  destruct (p x); simpl; [tauto | intros [H|H]; auto].
Qed.

Lemma NoDup_map_deleteOne {B} (g : D -> B) p l :
  NoDup (map g l) -> NoDup (map g (Query.deleteOne p l)).
Proof.
  induction l as [|x l IH]; simpl; [auto|].
  intros Hnd. inversion Hnd as [|? ? Hni Hnd']; subst.
  destruct (p x); [exact Hnd'|]. simpl. constructor; [|exact (IH Hnd')].
  intros Hin. apply Hni. apply in_map_iff in Hin as [d [Hd Hin]].
  apply in_map_iff. exists d. split; [exact Hd|].
  eapply In_deleteOne. exact Hin.
Qed.

Lemma find_snoc_none p l d :
  find p l = None -> find p (l ++ [d]) = if p d then Some d else None.
Proof.
  induction l as [|x l IH]; simpl; [reflexivity|].
  destruct (p x); [discriminate | exact IH].
Qed.

Lemma deleteOne_snoc_none p l d :
  find p l = None -> p d = true -> Query.deleteOne p (l ++ [d]) = l.
Proof.
  intros Hn Hd. induction l as [|x l IH]; simpl in *.
  - rewrite Hd. reflexivity.
  - destruct (p x); [discriminate|]. rewrite IH by exact Hn. reflexivity.
Qed.

Lemma length_deleteOne p l d :
  find p l = Some d ->
  S (List.length (Query.deleteOne p l)) = List.length l.
Proof.
  induction l as [|x l IH]; simpl; [discriminate|].
  destruct (p x); [reflexivity|]. intros H. simpl. rewrite IH by exact H.
  reflexivity.
Qed.
End CollectionFacts.

Lemma find_hasId_id id l a : find (hasId id) l = Some a -> _id a = id.
Proof.
  intros H. apply find_some in H as [_ H]. apply String.eqb_eq. exact H.
Qed.

Lemma find_deleteOne_other id id' l :
  id' <> id ->
  find (hasId id') (Query.deleteOne (hasId id) l) = find (hasId id') l.
Proof.
  intros Hne. induction l as [|x l IH]; simpl; [reflexivity|].
  destruct (hasId id x) eqn:E.
  - unfold hasId in E. apply String.eqb_eq in E.
    assert (Hx : hasId id' x = false).
    { unfold hasId. apply String.eqb_neq. congruence. }
    rewrite Hx. reflexivity.
  - simpl. destruct (hasId id' x); [reflexivity | exact IH].
Qed.

Lemma find_deleteOne_same id l :
  NoDup (map _id l) -> find (hasId id) (Query.deleteOne (hasId id) l) = None.
Proof.
  induction l as [|x l IH]; simpl; [reflexivity|].
  intros Hnd. inversion Hnd as [|? ? Hni Hnd']; subst.
  destruct (hasId id x) eqn:E.
  - unfold hasId in E. apply String.eqb_eq in E.
    destruct (find (hasId id) l) as [a|] eqn:Hf; [|reflexivity].
    exfalso. apply Hni. apply find_some in Hf as [Hin Ha].
    unfold hasId in Ha. apply String.eqb_eq in Ha.
    apply in_map_iff. exists a. split; [congruence | exact Hin].
  - simpl. rewrite E. exact (IH Hnd').
Qed.

Lemma alreadyApplied_false_notin userId j s :
  alreadyApplied userId (Some j) s = false ->
  ~ In (userId, j) (map (fun a => (user a, job a)) (applications s)).
Proof.
  unfold alreadyApplied. intros H Hin.
  apply in_map_iff in Hin as [a [Ha Hin]]. inversion Ha; subst.
  assert (Ht : existsb (fun a0 => String.eqb (user a0) (user a)
                                  && String.eqb (job a0) (job a))
                       (applications s) = true).
  { apply existsb_exists. exists a. rewrite !String.eqb_refl. auto. }
  congruence.
Qed.

(** What a tracker request does to the applications, as seen through the
    status code of the answer. *)
Lemma serveTracker_shape r env s :
  let code := fst (serveTracker r env s) in
  let s' := snd (serveTracker r env s) in
  jobs s' = jobs s
  /\ ((400 <= code /\ applications s' = applications s)
      \/ (code < 400
          /\ ((exists id u,
                 In (set_status u) statusEnum
                 /\ applications s'
                    = Query.updateOne (hasId id) (applyUpdate u)
                        (applications s))
              \/ (exists doc,
                    In (status doc) statusEnum
                    /\ ~ In (user doc, job doc)
                         (map (fun a => (user a, job a)) (applications s))
                    /\ applications s' = (applications s ++ [doc])%list)
              \/ (exists p,
                    applications s' = Query.deleteOne p (applications s))))).
Proof.
  destruct r as [u i st|u j st|u i]; cbn [serveTracker]; unfold serve.
  - destruct (update_step_full env s u i st) as [Hj [[e [He [Hc Ha]]]|H]].
    + destruct (Tracker.updateApplicationStatus u i st env s) as [o s1].
      simpl in *. subst o. simpl. rewrite statusCode_answer. auto.
    + destruct H as [a [requested [v [Hv [_ [_ [_ [Hin Ha]]]]]]]].
      destruct (Tracker.updateApplicationStatus u i st env s) as [o s1].
      simpl in *. subst o. simpl. split; [exact Hj|]. right.
      split; [lia|]. left. do 2 eexists. split; [|exact Ha]. exact Hin.
  - destruct (create_step_cases env s u j st) as [Hj [[e [He [Hc Ha]]]|H]].
    + destruct (Tracker.createApplication u j st env s) as [o s1].
      simpl in *. subst o. simpl. rewrite statusCode_answer. auto.
    + destruct H as [doc [pj [j0 [Hv [_ [Ha [Hin [Hu [Hjb [_ Hd]]]]]]]]]].
      destruct (Tracker.createApplication u j st env s) as [o s1].
      simpl in *. subst o. simpl. split; [exact Hj|]. right.
      split; [lia|]. right. left. exists doc. split; [exact Hin|].
      split; [|exact Ha]. rewrite Hu, Hjb.
      apply alreadyApplied_false_notin. exact Hd.
  - destruct (delete_step_cases env s u i) as [Hj [[e [He [Hc Ha]]]|H]].
    + destruct (Tracker.deleteApplication u i env s) as [o s1].
      simpl in *. subst o. simpl. rewrite statusCode_answer. auto.
    + destruct H as [a [Hv [_ [_ Ha]]]].
      destruct (Tracker.deleteApplication u i env s) as [o s1].
      simpl in *. subst o. simpl. split; [exact Hj|]. right.
      split; [lia|]. right. right. eexists. exact Ha.
Qed.

(* ===================================================================== *)
(** ** Properties of the tracker *)
(* ===================================================================== *)

(** X1.  A tracker request that is answered with an error (status 400 or
    above) leaves the applications as they were, and no tracker request,
    answered or refused, writes to the jobs. *)
Theorem tracker_all_or_nothing r env s :
  jobs (snd (serveTracker r env s)) = jobs s
  /\ (400 <= fst (serveTracker r env s) ->
      applications (snd (serveTracker r env s)) = applications s).
Proof.
  destruct (serveTracker_shape r env s) as [Hj [[_ Ha]|[Hc _]]].
  - split; [exact Hj | intros _; exact Ha].
  - split; [exact Hj | intros H; lia].
Qed.

Lemma tracker_all_or_nothing_witness :
  400 <= fst (serveTracker (PutStatus "u1" "a1" (Some "hired"))
                Sample.env Sample.store)
  /\ applications (snd (serveTracker (PutStatus "u1" "a1" (Some "hired"))
                          Sample.env Sample.store))
     = applications Sample.store.
Proof.
  split; [apply Z.leb_le; reflexivity|].
  apply (proj2 (tracker_all_or_nothing (PutStatus "u1" "a1" (Some "hired"))
                  Sample.env Sample.store)).
  apply Z.leb_le. reflexivity.
Defined.

(** X2.  Through any run of tracker requests the stored statuses stay
    within the five values of the schema. *)
Theorem tracker_keeps_statuses_listed reqs : forall env s,
  statusesListed s -> statusesListed (serveTrackerAll reqs env s).
Proof.
  induction reqs as [|r reqs IH]; intros env s Hs; [exact Hs|].
  cbn [serveTrackerAll]. apply IH. unfold statusesListed in *.
  destruct (serveTracker_shape r env s)
    as [_ [[_ Ha]|[_ [[id [u [Hin Ha]]]|[[doc [Hin [_ Ha]]]|[p Ha]]]]]];
    rewrite Ha.
  - exact Hs.
  - apply Forall_updateOne; [exact Hs|]. intros d. exact Hin.
  - apply Forall_app. split; [exact Hs|]. constructor; [exact Hin|constructor].
  - apply Forall_deleteOne. exact Hs.
Qed.

Lemma tracker_keeps_statuses_listed_witness :
  statusesListed (serveTrackerAll Sample5.run Sample.env Sample.store).
Proof.
  apply tracker_keeps_statuses_listed.
  unfold statusesListed. simpl. repeat constructor.
Defined.

(** X3.  Through any run of tracker requests no user gets two applications
    for the same job. *)
Theorem tracker_keeps_one_per_job reqs : forall env s,
  onePerJob s -> onePerJob (serveTrackerAll reqs env s).
Proof.
  induction reqs as [|r reqs IH]; intros env s Hs; [exact Hs|].
  cbn [serveTrackerAll]. apply IH. unfold onePerJob in *.
  destruct (serveTracker_shape r env s)
    as [_ [[_ Ha]|[_ [[id [u [Hin Ha]]]|[[doc [_ [Hni Ha]]]|[p Ha]]]]]];
    rewrite Ha.
  - exact Hs.
  - rewrite map_updateOne by reflexivity. exact Hs.
  - rewrite map_app. simpl. apply NoDup_app_remove_l with (l := []).
    simpl. apply Permutation_NoDup with
      (l := (user doc, job doc)
              :: map (fun a => (user a, job a)) (applications s)).
    + apply Permutation_cons_append.
    + constructor; assumption.
  - apply NoDup_map_deleteOne. exact Hs.
Qed.

Lemma tracker_keeps_one_per_job_witness :
  onePerJob (serveTrackerAll Sample5.run Sample.env Sample.store).
Proof.
  apply tracker_keeps_one_per_job.
  unfold onePerJob. simpl. repeat constructor. simpl. tauto.
Defined.

(** X4.  When the owner deletes an application, the answer is 200, the
    record is gone (no record has its id any more, ids being unique), the
    collection is one record shorter, every other record is as before and
    the jobs are untouched: the job of the deleted application stays. *)
Theorem delete_removes_only_the_record env s userId id a :
  isObjectId env id = true ->
  lookup id s = Some a ->
  String.eqb (user a) userId = true ->
  uniqueIds s ->
  exists s',
    serve (Tracker.deleteApplication userId id) env s = (Success 200 tt, s')
    /\ lookup id s' = None
    /\ (forall id', id' <> id -> lookup id' s' = lookup id' s)
    /\ S (List.length (applications s')) = List.length (applications s)
    /\ jobs s' = jobs s.
Proof.
  intros Hc Hl Hu Hnd. apply String.eqb_eq in Hu. subst userId.
  unfold serve. rewrite delete_ok by assumption.
  eexists. split; [reflexivity|]. unfold lookup, Query.findOne in *. simpl.
  rewrite (find_hasId_id id _ a Hl).
  split; [apply find_deleteOne_same; exact Hnd|].
  split; [intros id' Hne; apply find_deleteOne_other; exact Hne|].
  split; [|reflexivity].
  apply length_deleteOne with (d := a). exact Hl.
Qed.

Lemma delete_removes_only_the_record_witness :
  exists s',
    serve (Tracker.deleteApplication "u1" "a1") Sample.env Sample2.store
    = (Success 200 tt, s')
    /\ lookup "a1" s' = None
    /\ lookup "a2" s' = Some Sample2.a2.
Proof.
  destruct (delete_removes_only_the_record Sample.env Sample2.store "u1" "a1"
              Sample.a1) as [s' [H1 [H2 [H3 _]]]]; try reflexivity.
  - unfold uniqueIds. simpl. repeat constructor; simpl; intuition discriminate.
  - exists s'. split; [exact H1|]. split; [exact H2|].
    rewrite H3 by discriminate. reflexivity.
Defined.

Lemma applyUpdate_same_status env n a :
  applyUpdate (updateDataFor env n a (status a)) a = touched a (clock env n).
Proof.
  unfold updateDataFor, entersApplied, entersResponse, applyUpdate, touched.
  cbn [set_status set_updatedAt set_appliedDate set_responseDate].
  destruct (String.eqb (status a) "applied");
    destruct (String.eqb (status a) "offer");
    destruct (String.eqb (status a) "rejected"); reflexivity.
Qed.

(** X5.  A status change to the status the record already has goes through
    and writes nothing but [updatedAt]: the status and both dates stay,
    whatever the status is. *)
Theorem same_status_only_touches_updatedAt env s userId id a :
  Tracker.includesStatus (Some (status a)) = true ->
  isObjectId env id = true ->
  lookup id s = Some a ->
  String.eqb (user a) userId = true ->
  exists v s',
    serve (Tracker.updateApplicationStatus userId id (Some (status a))) env s
    = (Success 200 v, s')
    /\ lookup id s' = Some (touched a (clock env (ticks s)))
    /\ applications s'
       = Query.updateOne (hasId id)
           (fun _ => touched a (clock env (ticks s))) (applications s).
Proof.
  intros Hv Hc Hl Hu. apply String.eqb_eq in Hu. subst userId.
  destruct (serve_update_ok env s id (status a) a Hv Hc Hl)
    as [pj [s' [Hs [Ha [_ Hl']]]]].
  rewrite applyUpdate_same_status in *.
  do 2 eexists. split; [exact Hs|]. split; [exact Hl'|].
  rewrite Ha. rewrite (updateOne_first _ _ _ a Hl).
  rewrite applyUpdate_same_status. reflexivity.
Qed.

Lemma same_status_only_touches_updatedAt_witness :
  exists v s',
    serve (Tracker.updateApplicationStatus "u1" "a3" (Some "rejected"))
          Sample.env Sample2.answered
    = (Success 200 v, s')
    /\ lookup "a3" s' = Some (touched Sample2.quick 1000).
Proof.
  destruct (same_status_only_touches_updatedAt Sample.env Sample2.answered
              "u1" "a3" Sample2.quick) as [v [s' [H1 [H2 _]]]];
    try reflexivity.
  exists v, s'. split; [exact H1 | exact H2].
Defined.

Lemma existsb_snoc {A} (p : A -> bool) l x :
  existsb p (l ++ [x]) = existsb p l || p x.
Proof. rewrite existsb_app. simpl. rewrite orb_false_r. reflexivity. Qed.

(** X6.  A second creation request for the same job by the same user,
    right after one that went through, is answered 400 "Application for
    this job already exists", whatever status it carries, and stores
    nothing. *)
Theorem second_create_is_refused env s userId j st st' :
  JS.truthy j = true ->
  isObjectId env j = true ->
  isObjectId env userId = true ->
  jobResolves (Some j) s = true ->
  alreadyApplied userId (Some j) s = false ->
  JS.includes statusEnum (orSaved st) = true ->
  exists doc pj s1,
    serve (Tracker.createApplication userId (Some j) st) env s
    = (Success 201 (doc, pj), s1)
    /\ serve (Tracker.createApplication userId (Some j) st') env s1
       = (Failure 400 "Application for this job already exists", s1).
Proof.
  intros Ht Hc Hu Hr Hd Hx. unfold serve.
  rewrite create_ok by assumption. do 3 eexists. split; [reflexivity|].
  rewrite create_duplicate; try assumption; try reflexivity.
  unfold alreadyApplied. cbn [applications]. rewrite existsb_snoc.
  cbn [user job]. rewrite !String.eqb_refl. apply orb_true_r.
Qed.

Lemma second_create_is_refused_witness :
  exists doc pj s1,
    serve (Tracker.createApplication "u1" (Some "j2") None)
          Sample.env Sample.store
    = (Success 201 (doc, pj), s1)
    /\ serve (Tracker.createApplication "u1" (Some "j2") (Some "applied"))
             Sample.env s1
       = (Failure 400 "Application for this job already exists", s1).
Proof.
  apply second_create_is_refused; reflexivity.
Defined.

(** X7.  Creating an application and then deleting it, by its new id,
    gives back the collection as it was: both requests go through, and no
    other record is touched.  The new id is one that no stored record
    has. *)
Theorem create_then_delete_restores env s userId j st :
  JS.truthy j = true ->
  isObjectId env j = true ->
  isObjectId env userId = true ->
  jobResolves (Some j) s = true ->
  alreadyApplied userId (Some j) s = false ->
  JS.includes statusEnum (orSaved st) = true ->
  isObjectId env (freshId env (minted s)) = true ->
  lookup (freshId env (minted s)) s = None ->
  exists doc pj s1 s2,
    serve (Tracker.createApplication userId (Some j) st) env s
    = (Success 201 (doc, pj), s1)
    /\ serve (Tracker.deleteApplication userId (_id doc)) env s1
       = (Success 200 tt, s2)
    /\ applications s2 = applications s
    /\ jobs s2 = jobs s.
Proof.
  intros Ht Hc Hu Hr Hd Hx Hf Hl. unfold serve.
  rewrite create_ok by assumption.
  set (doc := mkApplication _ _ _ _ _ _ _ _ _ _ _ _ _ _).
  set (s1 := mkStore _ _ _ _).
  assert (Hl1 : lookup (_id doc) s1 = Some doc).
  { unfold lookup, Query.findOne in *. subst s1. cbn [applications].
    rewrite find_snoc_none by exact Hl.
    unfold hasId. rewrite String.eqb_refl. reflexivity. }
  exists doc. do 3 eexists. split; [reflexivity|].
  change userId with (user doc) at 1.
  rewrite delete_ok by assumption. split; [reflexivity|].
  cbn [applications jobs]. split; [|reflexivity].
  subst s1. cbn [applications].
  apply deleteOne_snoc_none; [exact Hl|].
  unfold hasId. apply String.eqb_refl.
Qed.

Lemma create_then_delete_restores_witness :
  exists doc pj s1 s2,
    serve (Tracker.createApplication "u1" (Some "j2") None)
          Sample.env Sample.store
    = (Success 201 (doc, pj), s1)
    /\ serve (Tracker.deleteApplication "u1" (_id doc)) Sample.env s1
       = (Success 200 tt, s2)
    /\ applications s2 = applications Sample.store
    /\ jobs s2 = jobs Sample.store.
Proof.
  apply create_then_delete_restores; reflexivity.
Defined.

(* ===================================================================== *)
(** ** Listing by status *)
(* ===================================================================== *)

Lemma filter_perm {A} (p : A -> bool) l l' :
  Permutation l l' -> Permutation (filter p l) (filter p l').
Proof.
  induction 1 as [|x l l' H IH|x y l|l l' l'' H1 IH1 H2 IH2]; simpl.
  - constructor.
  - destruct (p x); [apply perm_skip|]; exact IH.
  - destruct (p x), (p y); try apply Permutation_refl. apply perm_swap.
  - eapply Permutation_trans; eassumption.
Qed.

Lemma StronglySorted_filter {A} (R : A -> A -> Prop) (p : A -> bool) l :
  StronglySorted R l -> StronglySorted R (filter p l).
Proof.
  induction 1 as [|x l Hl IH Hx]; simpl; [constructor|].
  destruct (p x); [|exact IH]. constructor; [exact IH|].
  apply Forall_forall. intros y Hy. apply filter_In in Hy as [Hy _].
  rewrite Forall_forall in Hx. exact (Hx y Hy).
Qed.

Lemma StronglySorted_map {A B} (R : A -> A -> Prop) (R' : B -> B -> Prop)
    (g : A -> B) l :
  (forall x y, R x y -> R' (g x) (g y)) ->
  StronglySorted R l -> StronglySorted R' (map g l).
Proof.
  intros Hg. induction 1 as [|x l Hl IH Hx]; simpl; constructor; [exact IH|].
  apply Forall_forall. intros y Hy. apply in_map_iff in Hy as [z [<- Hz]].
  apply Hg. rewrite Forall_forall in Hx. exact (Hx z Hz).
Qed.

Lemma filter_hasStatus_join s st l :
  filter (Analytics.hasStatus st) (map (join s) l)
  = map (join s) (filter (fun a => String.eqb (status a) st) l).
Proof.
  induction l as [|a l IH]; simpl; [reflexivity|].
  unfold Analytics.hasStatus at 1. simpl.
  destruct (String.eqb (status a) st); simpl; rewrite IH; reflexivity.
Qed.

Lemma count_cons {A} (p : A -> bool) x l :
  Analytics.count p (x :: l)
  = (if p x then 1 else 0) + Analytics.count p l.
Proof.
  unfold Analytics.count. simpl. destruct (p x); simpl List.length; lia.
Qed.

Lemma status_indicator (x : Populated) :
  In (status (fst x)) statusEnum ->
  (if Analytics.hasStatus "saved" x then 1 else 0)
  + (if Analytics.hasStatus "applied" x then 1 else 0)
  + (if Analytics.hasStatus "interviewing" x then 1 else 0)
  + (if Analytics.hasStatus "offer" x then 1 else 0)
  + (if Analytics.hasStatus "rejected" x then 1 else 0) = 1.
Proof.
  unfold Analytics.hasStatus. cbn [In statusEnum].
  intros [H|[H|[H|[H|[H|[]]]]]]; rewrite <- H; reflexivity.
Qed.

(** The five counts of a list whose statuses are listed add up to its
    length. *)
Lemma status_partition (l : list Populated) :
  Forall (fun x => In (status (fst x)) statusEnum) l ->
  Analytics.count (Analytics.hasStatus "saved") l
  + Analytics.count (Analytics.hasStatus "applied") l
  + Analytics.count (Analytics.hasStatus "interviewing") l
  + Analytics.count (Analytics.hasStatus "offer") l
  + Analytics.count (Analytics.hasStatus "rejected") l
  = Z.of_nat (List.length l).
Proof.
  induction 1 as [|x l Hx Hl IH]; [reflexivity|].
  rewrite !count_cons. pose proof (status_indicator x Hx) as Hi.
  cbn [List.length]. lia.
Qed.

Lemma getApplications_run env s userId :
  isObjectId env userId = true ->
  let listed :=
    map (join s)
        (JS.sort TrackerList.newestFirst
           (filter (fun a => String.eqb (user a) userId) (applications s))) in
  TrackerList.getApplications userId env s
  = (Value (200,
            TrackerList.mkByStatus
              (filter (Analytics.hasStatus "saved") listed)
              (filter (Analytics.hasStatus "applied") listed)
              (filter (Analytics.hasStatus "interviewing") listed)
              (filter (Analytics.hasStatus "offer") listed)
              (filter (Analytics.hasStatus "rejected") listed)), s).
Proof.
  intros Hu listed. unfold TrackerList.getApplications. run_monad.
  rewrite Hu. rewrite populateAll_run. reflexivity.
Qed.

Lemma bucket_listed b st :
  In st statusEnum ->
  TrackerList.bucket b st
  = nth (if String.eqb st "saved" then 0
         else if String.eqb st "applied" then 1
         else if String.eqb st "interviewing" then 2
         else if String.eqb st "offer" then 3 else 4)%nat
        [TrackerList.saved b; TrackerList.applied b;
         TrackerList.interviewing b; TrackerList.offer b;
         TrackerList.rejected b] [].
Proof.
  cbn [In statusEnum]. intros [H|[H|[H|[H|[H|[]]]]]]; subst st; reflexivity.
Qed.

(** X8.  The listing of a user's applications is answered 200 and does not
    change the store.  For each of the five statuses, its bucket holds
    exactly the user's stored applications with that status (each once,
    with its job joined), the latest update first; no application of
    another user is listed.  When the user's statuses are all among the
    five, the sizes of the buckets add up to the number of the user's
    applications. *)
Theorem getApplications_buckets env s userId :
  isObjectId env userId = true ->
  let mine :=
    filter (fun a => String.eqb (user a) userId) (applications s) in
  exists b,
    serve (TrackerList.getApplications userId) env s = (Success 200 b, s)
    /\ (forall st, In st statusEnum ->
          Permutation (TrackerList.bucket b st)
            (map (join s) (filter (fun a => String.eqb (status a) st) mine))
          /\ StronglySorted
               (fun x y => updatedAt (fst y) <= updatedAt (fst x))
               (TrackerList.bucket b st))
    /\ (Forall (fun a => In (status a) statusEnum) mine ->
        (List.length (TrackerList.saved b)
         + List.length (TrackerList.applied b)
         + List.length (TrackerList.interviewing b)
         + List.length (TrackerList.offer b)
         + List.length (TrackerList.rejected b))%nat
        = List.length mine).
Proof.
  intros Hu mine. unfold serve. rewrite getApplications_run by exact Hu.
  eexists. split; [reflexivity|].
  set (sorted := JS.sort TrackerList.newestFirst mine).
  assert (Hp : Permutation sorted mine) by apply (sort_perm updatedAt).
  assert (Hs : StronglySorted (fun a b => updatedAt b <= updatedAt a) sorted)
    by apply (sort_desc updatedAt).
  assert (Hb : forall st,
             Permutation (filter (Analytics.hasStatus st) (map (join s) sorted))
               (map (join s) (filter (fun a => String.eqb (status a) st) mine))
             /\ StronglySorted
                  (fun x y => updatedAt (fst y) <= updatedAt (fst x))
                  (filter (Analytics.hasStatus st) (map (join s) sorted))).
  { intros st. split.
    - rewrite filter_hasStatus_join. apply Permutation_map.
      apply filter_perm. exact Hp.
    - apply StronglySorted_filter.
      apply StronglySorted_map with (R := fun a b => updatedAt b <= updatedAt a);
        [intros x y H; exact H | exact Hs]. }
  split.
  - intros st Hst. cbn [In statusEnum] in Hst.
    destruct Hst as [H|[H|[H|[H|[H|[]]]]]]; subst st; apply Hb.
  - intros Hm.
    cbn [TrackerList.saved TrackerList.applied TrackerList.interviewing
         TrackerList.offer TrackerList.rejected].
    assert (Hf : Forall (fun x => In (status (fst x)) statusEnum)
                        (map (join s) sorted)).
    { apply Forall_forall. intros x Hx. apply in_map_iff in Hx as [a [<- Ha]].
      simpl. rewrite Forall_forall in Hm. apply Hm.
      eapply Permutation_in; [exact Hp | exact Ha]. }
    pose proof (status_partition _ Hf) as Hsum. unfold Analytics.count in Hsum.
    rewrite length_map in Hsum.
    rewrite (Permutation_length Hp) in Hsum.
    unfold sorted, mine in *. lia.
Qed.

Lemma getApplications_buckets_witness :
  exists b,
    serve (TrackerList.getApplications "u1") Sample.env Sample4.store
    = (Success 200 b, Sample4.store)
    /\ map (fun x => _id (fst x)) (TrackerList.saved b) = ["a1"]
    /\ map (fun x => _id (fst x)) (TrackerList.rejected b) = ["a4"]
    /\ (List.length (TrackerList.saved b)
        + List.length (TrackerList.applied b)
        + List.length (TrackerList.interviewing b)
        + List.length (TrackerList.offer b)
        + List.length (TrackerList.rejected b))%nat = 5%nat.
Proof.
  destruct (getApplications_buckets Sample.env Sample4.store "u1" eq_refl)
    as [b [H1 [_ H3]]].
  exists b. split; [exact H1|].
  vm_compute in H1. injection H1 as <-.
  split; [reflexivity|]. split; reflexivity.
Defined.

(* ===================================================================== *)
(** ** The applications route *)
(* ===================================================================== *)

(** X9.  The creation of the applications route does not look for an
    existing application: for a stored job and a listed (or absent) status
    it is answered 201 and appends a record for the caller and the job,
    also when the caller already has one.  After such a request the user
    has two applications for the same job. *)
Theorem applications_route_allows_duplicates env s userId j st :
  JS.truthy j = true ->
  isObjectId env j = true ->
  isObjectId env userId = true ->
  jobResolves (Some j) s = true ->
  JS.includes statusEnum (orSaved st) = true ->
  exists doc s',
    serve (ApplicationsRoute.createApplication userId (Some j) st) env s
    = (Success 201 doc, s')
    /\ user doc = userId /\ job doc = j /\ status doc = orSaved st
    /\ applications s' = (applications s ++ [doc])%list
    /\ (alreadyApplied userId (Some j) s = true -> ~ onePerJob s').
Proof.
  intros Ht Hc Hu Hr Hx. unfold serve, ApplicationsRoute.createApplication.
  simpl. rewrite Ht. simpl. run_monad. rewrite Hc.
  unfold jobResolves in Hr. rewrite find_existsb in Hr.
  destruct (find _ (jobs s)); [|discriminate Hr].
  rewrite Hu, Hc. simpl. unfold orSaved in *.
  assert (Hx' : JS.includes statusEnum
                  match st with Some s0 => s0 | None => "saved" end = true)
    by exact Hx.
  rewrite Hx'. simpl.
  do 2 eexists. split; [reflexivity|]. simpl.
  repeat split; try reflexivity.
  intros Hd Hnd. unfold onePerJob in Hnd. simpl in Hnd.
  rewrite map_app in Hnd. simpl in Hnd.
  apply NoDup_remove_2 in Hnd. rewrite app_nil_r in Hnd. apply Hnd.
  unfold alreadyApplied in Hd. apply existsb_exists in Hd as [a [Ha Hab]].
  apply andb_true_iff in Hab as [H1 H2].
  apply String.eqb_eq in H1, H2. apply in_map_iff. exists a.
  split; [congruence | exact Ha].
Qed.

Lemma applications_route_allows_duplicates_witness :
  exists doc s',
    serve (ApplicationsRoute.createApplication "u1" (Some "j1") None)
          Sample.env Sample.store
    = (Success 201 doc, s')
    /\ applications s' = (applications Sample.store ++ [doc])%list
    /\ ~ onePerJob s'.
Proof.
  destruct (applications_route_allows_duplicates Sample.env Sample.store
              "u1" "j1" None) as [doc [s' [H1 [_ [_ [_ [H2 H3]]]]]]];
    try reflexivity.
  exists doc, s'. split; [exact H1|]. split; [exact H2|].
  apply H3. reflexivity.
Defined.

(* ===================================================================== *)
(** ** Calendar arithmetic *)
(* ===================================================================== *)

(** The day number of the calendar date of a day is that day. *)
Lemma civil_round_trip z :
  let '(y, m, d) := JSDate.civil_from_days z in
  JSDate.days_from_civil y m d = z /\ 0 <= m <= 11 /\ 1 <= d <= 31.
Proof.
  unfold JSDate.civil_from_days, JSDate.days_from_civil.
  set (z' := z + 719468).
  set (era := z' / 146097).
  set (doe := z' - era * 146097).
  assert (Hdoe : 0 <= doe < 146097).
  { subst doe era. Z.div_mod_to_equations. lia. }
  assert (Hz : z = era * 146097 + doe - 719468) by (subst doe z'; lia).
  clearbody doe. clearbody era. clear z'.
  set (yoe := (doe - doe / 1460 + doe / 36524 - doe / 146096) / 365).
  set (doy := doe - (365 * yoe + yoe / 4 - yoe / 100)).
  assert (Hy : 0 <= yoe <= 399 /\ 0 <= doy <= 365).
  { subst doy yoe. Z.div_mod_to_equations. lia. }
  assert (Hdoe' : doe = yoe * 365 + yoe / 4 - yoe / 100 + doy)
    by (subst doy; lia).
  clearbody doy. clearbody yoe. destruct Hy as [Hyoe Hdoy].
  set (mp := (5 * doy + 2) / 153).
  assert (Hmp : 0 <= mp <= 11) by (subst mp; Z.div_mod_to_equations; lia).
  assert (Hd : 1 <= doy - (153 * mp + 2) / 5 + 1 <= 31).
  { subst mp. Z.div_mod_to_equations. lia. }
  clearbody mp.
  assert (He : (yoe + era * 400) / 400 = era).
  { Z.div_mod_to_equations. lia. }
  destruct (Z.ltb_spec mp 10).
  - destruct (Z.leb_spec (mp + 2) 1); [lia|].
    replace (yoe + era * 400 + 0) with (yoe + era * 400) by lia.
    rewrite He.
    replace (yoe + era * 400 - era * 400) with yoe by lia.
    replace (mp + 2 - 2) with mp by lia.
    split; [|split]; lia.
  - destruct (Z.leb_spec (mp - 10) 1); [|lia].
    replace (yoe + era * 400 + 1 - 1) with (yoe + era * 400) by lia.
    rewrite He.
    replace (yoe + era * 400 - era * 400) with yoe by lia.
    replace (mp - 10 + 10) with mp by lia.
    split; [|split]; lia.
Qed.

Lemma date_fields t :
  JSDate.days_from_civil (JSDate.getFullYear t) (JSDate.getMonth t)
    (JSDate.getDate t) = JSDate.Day t
  /\ 0 <= JSDate.getMonth t <= 11 /\ 1 <= JSDate.getDate t <= 31.
Proof.
  unfold JSDate.getFullYear, JSDate.getMonth, JSDate.getDate.
  pose proof (civil_round_trip (JSDate.Day t)) as H.
  destruct (JSDate.civil_from_days (JSDate.Day t)) as [[y m] d]. exact H.
Qed.

(** [d.setDate(d.getDate() - n)] goes back [n] days, to the millisecond. *)
Lemma setDate_back t n :
  JSDate.setDate t (JSDate.getDate t - n) = t - n * JSDate.msPerDay.
Proof.
  destruct (date_fields t) as [Hd [Hm _]].
  unfold JSDate.setDate, JSDate.MakeDay.
  rewrite Z.div_small, Z.mod_small, Z.add_0_r by lia.
  assert (Hl : JSDate.days_from_civil (JSDate.getFullYear t)
                 (JSDate.getMonth t) 1 + (JSDate.getDate t - n) - 1
               = JSDate.Day t - n).
  { rewrite <- Hd. unfold JSDate.days_from_civil. lia. }
  rewrite Hl. unfold JSDate.Day, JSDate.TimeWithinDay, JSDate.msPerDay.
  Z.div_mod_to_equations. lia.
Qed.

(** The first of a month comes 28 to 31 days before the first of the
    next. *)
Lemma month_starts_increase y m :
  JSDate.MakeDay y m 1 + 28 <= JSDate.MakeDay y (m + 1) 1
  <= JSDate.MakeDay y m 1 + 31.
Proof.
  unfold JSDate.MakeDay, JSDate.days_from_civil.
  assert (H : (m + 1) / 12 = m / 12 /\ (m + 1) mod 12 = m mod 12 + 1
              /\ 0 <= m mod 12 <= 10
              \/ (m + 1) / 12 = m / 12 + 1 /\ (m + 1) mod 12 = 0
                 /\ m mod 12 = 11).
  { Z.div_mod_to_equations. lia. }
  destruct H as [[H1 [H2 H3]]|[H1 [H2 H3]]]; rewrite H1, H2.
  - set (r := m mod 12) in *. clearbody r. set (q := m / 12). clearbody q.
    assert (Hr : r = 0 \/ r = 1 \/ r = 2 \/ r = 3 \/ r = 4 \/ r = 5 \/ r = 6
                 \/ r = 7 \/ r = 8 \/ r = 9 \/ r = 10) by lia.
    repeat (destruct Hr as [Hr|Hr];
            [subst r; simpl; Z.div_mod_to_equations; lia|]).
    subst r. simpl. Z.div_mod_to_equations. lia.
  - rewrite H3. simpl. Z.div_mod_to_equations. lia.
Qed.

(** The calendar date of the day number of a first of January. *)
Lemma jan_first y :
  JSDate.civil_from_days (JSDate.days_from_civil y 0 1) = (y, 0, 1).
Proof.
  unfold JSDate.days_from_civil.
  change (0 <=? 1)%Z with true. cbv iota.
  set (era := (y - 1) / 400). set (yoe := y - 1 - era * 400).
  assert (Hyoe : 0 <= yoe <= 399)
    by (subst yoe era; Z.div_mod_to_equations; lia).
  assert (Hy : y = yoe + era * 400 + 1) by (subst yoe; lia).
  clearbody yoe. clearbody era.
  change ((153 * (0 + 10) + 2) / 5 + 1 - 1) with 306.
  set (doe := yoe * 365 + yoe / 4 - yoe / 100 + 306).
  assert (Hdoe : 0 <= doe < 146097)
    by (subst doe; Z.div_mod_to_equations; lia).
  assert (Hyoe' : (doe - doe / 1460 + doe / 36524 - doe / 146096) / 365 = yoe).
  { subst doe. Z.div_mod_to_equations. lia. }
  assert (Hdoy : doe - (365 * yoe + yoe / 4 - yoe / 100) = 306)
    by (subst doe; lia).
  clearbody doe.
  unfold JSDate.civil_from_days.
  replace (era * 146097 + doe - 719468 + 719468) with (era * 146097 + doe)
    by lia.
  assert (He : (era * 146097 + doe) / 146097 = era)
    by (Z.div_mod_to_equations; lia).
  rewrite He. replace (era * 146097 + doe - era * 146097) with doe by lia.
  rewrite Hyoe', Hdoy.
  change ((5 * 306 + 2) / 153) with 10. change (10 <? 10)%Z with false.
  cbv iota.
  change (10 - 10) with 0. change (0 <=? 1)%Z with true. cbv iota.
  change (306 - (153 * 10 + 2) / 5 + 1) with 1.
  f_equal. f_equal. lia.
Qed.

(** The first of January of a year is not after any day of that year. *)
Lemma jan_first_le y m d :
  0 <= m <= 11 -> 1 <= d ->
  JSDate.days_from_civil y 0 1 <= JSDate.days_from_civil y m d.
Proof.
  intros Hm Hd. unfold JSDate.days_from_civil.
  change (0 <=? 1)%Z with true. cbv iota.
  destruct (Z.leb_spec m 1).
  - Z.div_mod_to_equations. lia.
  - Z.div_mod_to_equations. lia.
Qed.

(* ===================================================================== *)
(** ** More on the analytics *)
(* ===================================================================== *)

(** The whole answer of [getAnalytics], for a caller whose id is well
    formed. *)
Lemma getAnalytics_value env s userId range :
  isObjectId env userId = true ->
  exists n,
    serve (Analytics.getAnalytics userId range) env s
    = (Success 200
         (summaryOf
            (windowApplications userId (windowStart env s range) s)
            (postedJobs userId (windowStart env s range) s)
            (trendNow env s range)),
       mkStore (applications s) (jobs s) n (minted s)).
Proof.
  intros Hu.
  unfold windowStart, trendNow, serve, Analytics.getAnalytics.
  set (r := match range with Some r => r | None => "30d" end).
  destruct (startDateOf_run r env s) as [t [n [Hs Hn]]].
  unfold bind at 1. rewrite Hs.
  unfold Analytics.findApplications, Analytics.findJobs.
  run_monad. rewrite Hu. rewrite populateAll_run. simpl.
  eexists. unfold summaryOf, windowApplications, postedJobs, join. simpl.
  f_equal. f_equal. f_equal. f_equal. subst n.
  destruct range as [x|]; subst r; simpl.
  - destruct (String.eqb x "ytd"); reflexivity.
  - reflexivity.
Qed.

Lemma analyticsOf_value env s userId range :
  isObjectId env userId = true ->
  analyticsOf env s userId range
  = Some (summaryOf
            (windowApplications userId (windowStart env s range) s)
            (postedJobs userId (windowStart env s range) s)
            (trendNow env s range)).
Proof.
  intros Hu. destruct (getAnalytics_value env s userId range Hu) as [n Hn].
  unfold analyticsOf. rewrite Hn. reflexivity.
Qed.

Lemma startDateOf_value range env s :
  fst (Analytics.startDateOf range env s)
  = Value
      (if String.eqb range "7d" then
         JSDate.setDate (clock env (ticks s))
           (JSDate.getDate (clock env (ticks s)) - 7)
       else if String.eqb range "30d" then
         JSDate.setDate (clock env (ticks s))
           (JSDate.getDate (clock env (ticks s)) - 30)
       else if String.eqb range "90d" then
         JSDate.setDate (clock env (ticks s))
           (JSDate.getDate (clock env (ticks s)) - 90)
       else if String.eqb range "ytd" then
         JSDate.Date_ymd (JSDate.getFullYear (clock env (S (ticks s)))) 0 1
       else if String.eqb range "all" then 0
       else JSDate.setDate (clock env (ticks s))
              (JSDate.getDate (clock env (ticks s)) - 30)).
Proof.
  unfold Analytics.startDateOf. run_monad.
  destruct (String.eqb range "7d"); [reflexivity|].
  destruct (String.eqb range "30d"); [reflexivity|].
  destruct (String.eqb range "90d"); [reflexivity|].
  destruct (String.eqb range "ytd"); [reflexivity|].
  destruct (String.eqb range "all"); reflexivity.
Qed.

Lemma windowStart_value env s range :
  windowStart env s range
  = let r := match range with Some r => r | None => "30d" end in
    let now := clock env (ticks s) in
    if String.eqb r "7d" then JSDate.setDate now (JSDate.getDate now - 7)
    else if String.eqb r "30d" then JSDate.setDate now (JSDate.getDate now - 30)
    else if String.eqb r "90d" then JSDate.setDate now (JSDate.getDate now - 90)
    else if String.eqb r "ytd" then
      JSDate.Date_ymd (JSDate.getFullYear (clock env (S (ticks s)))) 0 1
    else if String.eqb r "all" then 0
    else JSDate.setDate now (JSDate.getDate now - 30).
Proof.
  unfold windowStart.
  pose proof (startDateOf_value
                (match range with Some r => r | None => "30d" end) env s) as H.
  destruct (Analytics.startDateOf _ env s) as [o s1]. simpl in H. subst o.
  reflexivity.
Qed.

(** X10.  The window of the analytics starts exactly 7, 30 or 90 days (of
    24 hours) before the time of the request for the ranges ['7d'], ['30d']
    and ['90d']; an absent or unknown range is treated as ['30d']; the
    range ['all'] starts at the epoch. *)
Theorem window_start_days_back env s range :
  (forall n, daysBack range = Some n ->
     windowStart env s range = clock env (ticks s) - n * 86400000)
  /\ windowStart env s (Some "all") = 0.
Proof.
  split; [|rewrite windowStart_value; reflexivity].
  intros n Hn. rewrite windowStart_value. cbv zeta.
  unfold daysBack in Hn. destruct range as [r|].
  - destruct (String.eqb r "7d");
      [injection Hn as <-; apply setDate_back|].
    destruct (String.eqb r "30d");
      [injection Hn as <-; apply setDate_back|].
    destruct (String.eqb r "90d");
      [injection Hn as <-; apply setDate_back|].
    destruct (String.eqb r "ytd"); [discriminate Hn|].
    destruct (String.eqb r "all"); [discriminate Hn|].
    injection Hn as <-. apply setDate_back.
  - injection Hn as <-. apply setDate_back.
Qed.

Lemma window_start_days_back_witness :
  windowStart Sample3.env (Sample3.store_at 0) (Some "7d")
  = Sample3.noon_2024_03_15 - 7 * 86400000
  /\ windowStart Sample3.env (Sample3.store_at 0) (Some "quarter")
     = Sample3.noon_2024_03_15 - 30 * 86400000.
Proof.
  split.
  - apply (proj1 (window_start_days_back Sample3.env (Sample3.store_at 0)
                    (Some "7d")) 7). reflexivity.
  - apply (proj1 (window_start_days_back Sample3.env (Sample3.store_at 0)
                    (Some "quarter")) 30). reflexivity.
Defined.

Lemma windowStart_ytd env s :
  windowStart env s (Some "ytd")
  = JSDate.Date_ymd (JSDate.getFullYear (clock env (S (ticks s)))) 0 1.
Proof. rewrite windowStart_value. reflexivity. Qed.

Lemma Date_ymd_jan_first y :
  JSDate.Date_ymd y 0 1 = JSDate.days_from_civil y 0 1 * JSDate.msPerDay.
Proof.
  unfold JSDate.Date_ymd, JSDate.MakeDay.
  change (0 / 12) with 0. change (0 mod 12) with 0.
  rewrite Z.add_0_r. f_equal. lia.
Qed.

Lemma jan_first_fields y :
  let t := JSDate.Date_ymd y 0 1 in
  JSDate.getFullYear t = y /\ JSDate.getMonth t = 0 /\ JSDate.getDate t = 1
  /\ JSDate.TimeWithinDay t = 0.
Proof.
  intros t. subst t. rewrite Date_ymd_jan_first.
  assert (HD : JSDate.Day (JSDate.days_from_civil y 0 1 * JSDate.msPerDay)
               = JSDate.days_from_civil y 0 1).
  { unfold JSDate.Day. apply Z.div_mul. discriminate. }
  unfold JSDate.getFullYear, JSDate.getMonth, JSDate.getDate.
  rewrite HD, jan_first.
  repeat split. unfold JSDate.TimeWithinDay. apply Z.mod_mul. discriminate.
Qed.

Lemma jan_first_not_after t :
  JSDate.Date_ymd (JSDate.getFullYear t) 0 1 <= t.
Proof.
  rewrite Date_ymd_jan_first.
  destruct (date_fields t) as [Hd [Hm Hdd]].
  pose proof (jan_first_le (JSDate.getFullYear t) (JSDate.getMonth t)
                (JSDate.getDate t) Hm ltac:(lia)) as Hle.
  rewrite Hd in Hle.
  generalize dependent (JSDate.days_from_civil (JSDate.getFullYear t) 0 1).
  intros d Hle. clear Hd Hm Hdd.
  unfold JSDate.Day, JSDate.msPerDay in *. Z.div_mod_to_equations. lia.
Qed.

(** X11.  For the range ['ytd'] the window starts at 00:00 on the first of
    January of the year of the request, and so not after the request. *)
Theorem window_start_year_to_date env s :
  let start := windowStart env s (Some "ytd") in
  let now := clock env (S (ticks s)) in
  JSDate.getFullYear start = JSDate.getFullYear now
  /\ JSDate.getMonth start = 0
  /\ JSDate.getDate start = 1
  /\ JSDate.TimeWithinDay start = 0
  /\ start <= now.
Proof.
  intros start now. subst start. rewrite windowStart_ytd. fold now.
  destruct (jan_first_fields (JSDate.getFullYear now)) as [H1 [H2 [H3 H4]]].
  repeat (split; [assumption|]). apply jan_first_not_after.
Qed.

(* ===================================================================== *)
(** ** Rates, distribution and the window *)
(* ===================================================================== *)

Lemma count_bounds {A} (p : A -> bool) (l : list A) :
  0 <= Analytics.count p l <= Z.of_nat (List.length l).
Proof.
  unfold Analytics.count. pose proof (filter_length_le p l). lia.
Qed.

Lemma percentage_bounds cnt total :
  0 <= cnt <= total -> 0 <= Analytics.percentage cnt total <= 100.
Proof.
  intros H. unfold Analytics.percentage.
  destruct (Z.ltb_spec 0 total) as [Hlt|Hle]; [|lia].
  apply Math_round_percent_bounds; assumption.
Qed.

(** All of them: the quotient is 1 and the percentage 100, without any
    rounding. *)
Lemma percentage_all total :
  0 < total -> Analytics.percentage total total = 100.
Proof.
  intros H. unfold Analytics.percentage.
  destruct (Z.ltb_spec 0 total) as [Hlt|Hle]; [|lia].
  assert (Hx : (inject_Z total / inject_Z total == inject_Z 1)%Q).
  { change (inject_Z 1) with 1%Q. field.
    intro E. rewrite (Zlt_Qlt 0 total) in H. rewrite E in H.
    exact (Qlt_irrefl _ H). }
  rewrite (round_comp _ _ Hx). reflexivity.
Qed.

(** X12.  The interview rate and the offer rate of the summary are whole
    percentages between 0 and 100; with no application in the window both
    are 0 (no division by zero), and so is the average response time. *)
Theorem analytics_rates_bounded env s userId range :
  isObjectId env userId = true ->
  exists d,
    analyticsOf env s userId range = Some d
    /\ 0 <= Analytics.interviewRate (Analytics.metrics d) <= 100
    /\ 0 <= Analytics.offerRate (Analytics.metrics d) <= 100
    /\ (Analytics.totalApplications (Analytics.metrics d) = 0 ->
        Analytics.interviewRate (Analytics.metrics d) = 0
        /\ Analytics.offerRate (Analytics.metrics d) = 0
        /\ Analytics.m_averageResponseTime (Analytics.metrics d) = 0%Q
        /\ Analytics.d_topCompanies d = []).
Proof.
  intros Hu. eexists. split; [apply analyticsOf_value; exact Hu|].
  unfold summaryOf. cbn [Analytics.metrics Analytics.interviewRate
    Analytics.offerRate Analytics.totalApplications
    Analytics.m_averageResponseTime Analytics.d_topCompanies].
  split; [apply percentage_bounds, count_bounds|].
  split; [apply percentage_bounds, count_bounds|].
  intros H0.
  destruct (windowApplications userId (windowStart env s range) s) as [|a l];
    [|simpl in H0; lia].
  repeat split.
Qed.

Lemma analytics_rates_bounded_witness :
  exists d,
    analyticsOf Sample.env Sample.store "u1" (Some "all") = Some d
    /\ 0 <= Analytics.interviewRate (Analytics.metrics d) <= 100
    /\ 0 <= Analytics.offerRate (Analytics.metrics d) <= 100
    /\ (Analytics.totalApplications (Analytics.metrics d) = 0 ->
        Analytics.interviewRate (Analytics.metrics d) = 0
        /\ Analytics.offerRate (Analytics.metrics d) = 0
        /\ Analytics.m_averageResponseTime (Analytics.metrics d) = 0%Q
        /\ Analytics.d_topCompanies d = []).
Proof.
  apply (analytics_rates_bounded Sample.env Sample.store "u1" (Some "all")).
  reflexivity.
Defined.

Lemma status_indicator_le (x : Populated) :
  (if Analytics.hasStatus "saved" x then 1 else 0)
  + (if Analytics.hasStatus "applied" x then 1 else 0)
  + (if Analytics.hasStatus "interviewing" x then 1 else 0)
  + (if Analytics.hasStatus "offer" x then 1 else 0)
  + (if Analytics.hasStatus "rejected" x then 1 else 0) <= 1.
Proof.
  unfold Analytics.hasStatus.
  destruct (String.eqb_spec (status (fst x)) "saved") as [->|];
    [cbv; discriminate|].
  destruct (String.eqb_spec (status (fst x)) "applied") as [->|];
    [cbv; discriminate|].
  destruct (String.eqb_spec (status (fst x)) "interviewing") as [->|];
    [cbv; discriminate|].
  destruct (String.eqb_spec (status (fst x)) "offer") as [->|];
    [cbv; discriminate|].
  destruct (String.eqb (status (fst x)) "rejected"); lia.
Qed.

Lemma status_counts_le (l : list Populated) :
  Analytics.count (Analytics.hasStatus "saved") l
  + Analytics.count (Analytics.hasStatus "applied") l
  + Analytics.count (Analytics.hasStatus "interviewing") l
  + Analytics.count (Analytics.hasStatus "offer") l
  + Analytics.count (Analytics.hasStatus "rejected") l
  <= Z.of_nat (List.length l).
Proof.
  induction l as [|x l IH]; [cbv; discriminate|].
  rewrite !count_cons. pose proof (status_indicator_le x).
  change (List.length (x :: l)) with (S (List.length l)). lia.
Qed.

Lemma Forall_windowApplications userId start s :
  statusesListed s ->
  Forall (fun x => In (status (fst x)) statusEnum)
         (windowApplications userId start s).
Proof.
  intros H. unfold windowApplications. apply Forall_forall. intros x Hx.
  apply in_map_iff in Hx. destruct Hx as [a [<- Ha]].
  apply filter_In in Ha. destruct Ha as [Ha _].
  unfold statusesListed in H. rewrite Forall_forall in H. apply (H a Ha).
Qed.

(** X13.  The five counts of the status distribution never add up to more
    than the total number of applications of the summary, and they add up
    to exactly that total when every stored record has one of the five
    statuses of the schema. *)
Theorem status_distribution_adds_up env s userId range :
  isObjectId env userId = true ->
  exists d,
    analyticsOf env s userId range = Some d
    /\ let sd := Analytics.statusDistribution d in
       let sum := Analytics.saved sd + Analytics.applied sd
                  + Analytics.interviewing sd + Analytics.offer sd
                  + Analytics.rejected sd in
       sum <= Analytics.totalApplications (Analytics.metrics d)
       /\ (statusesListed s ->
           sum = Analytics.totalApplications (Analytics.metrics d)).
Proof.
  intros Hu. eexists. split; [apply analyticsOf_value; exact Hu|].
  unfold summaryOf. cbn.
  split; [apply status_counts_le|].
  intros Hl. apply status_partition. apply Forall_windowApplications, Hl.
Qed.

Lemma status_distribution_adds_up_witness :
  exists d,
    analyticsOf Sample.env Sample.store "u1" (Some "all") = Some d
    /\ let sd := Analytics.statusDistribution d in
       let sum := Analytics.saved sd + Analytics.applied sd
                  + Analytics.interviewing sd + Analytics.offer sd
                  + Analytics.rejected sd in
       sum <= Analytics.totalApplications (Analytics.metrics d)
       /\ (statusesListed Sample.store ->
           sum = Analytics.totalApplications (Analytics.metrics d)).
Proof.
  apply (status_distribution_adds_up Sample.env Sample.store "u1" (Some "all")).
  reflexivity.
Defined.

Lemma windowStart_ticks env s s' range :
  ticks s = ticks s' -> windowStart env s range = windowStart env s' range.
Proof. intros H. rewrite !windowStart_value. rewrite H. reflexivity. Qed.

Lemma trendNow_ticks env s s' range :
  ticks s = ticks s' -> trendNow env s range = trendNow env s' range.
Proof. intros H. unfold trendNow. rewrite H. reflexivity. Qed.

Lemma filter_filter {A} (p q : A -> bool) l :
  filter p (filter q l) = filter (fun x => q x && p x) l.
Proof.
  induction l as [|x l IH]; [reflexivity|]. simpl.
  destruct (q x); simpl; [destruct (p x)|]; rewrite IH; reflexivity.
Qed.

Lemma windowApplications_own userId start s :
  windowApplications userId start s
  = map (fun a => (a, Query.findOne (fun j => String.eqb (job_id j) (job a))
                        (jobs s)))
        (filter (fun a => Z.leb start (createdAt a))
           (filter (fun a => String.eqb (user a) userId) (applications s))).
Proof. unfold windowApplications, join. rewrite filter_filter. reflexivity. Qed.

(** X14.  The summary of a user depends on the stored applications only
    through the records of that user: two stores with the same jobs and
    the same records of the user, whatever other users have stored, give
    the same summary. *)
Theorem analytics_only_own_records env s s' userId range :
  isObjectId env userId = true ->
  jobs s = jobs s' ->
  ticks s = ticks s' ->
  filter (fun a => String.eqb (user a) userId) (applications s)
  = filter (fun a => String.eqb (user a) userId) (applications s') ->
  analyticsOf env s userId range = analyticsOf env s' userId range
  /\ analyticsOf env s userId range <> None.
Proof.
  intros Hu Hj Ht Hf. rewrite !analyticsOf_value by exact Hu.
  split; [|discriminate].
  rewrite (windowStart_ticks env s s' range Ht),
          (trendNow_ticks env s s' range Ht).
  rewrite !windowApplications_own. unfold postedJobs.
  rewrite Hj, Hf. reflexivity.
Qed.

Lemma analytics_only_own_records_witness :
  analyticsOf Sample.env Sample4.store "u1" (Some "all")
  = analyticsOf Sample.env Sample6.crowded "u1" (Some "all")
  /\ analyticsOf Sample.env Sample4.store "u1" (Some "all") <> None.
Proof.
  apply (analytics_only_own_records Sample.env Sample4.store Sample6.crowded
           "u1" (Some "all")); reflexivity.
Defined.

Lemma filter_length_mono {A} (p q : A -> bool) l :
  (forall x, p x = true -> q x = true) ->
  (List.length (filter p l) <= List.length (filter q l))%nat.
Proof.
  intros H. induction l as [|x l IH]; [apply le_n|]. simpl.
  destruct (p x) eqn:E.
  - rewrite (H x E). simpl. lia.
  - destruct (q x); simpl; lia.
Qed.

Lemma windowApplications_mono userId start start' s :
  start' <= start ->
  Z.of_nat (List.length (windowApplications userId start s))
  <= Z.of_nat (List.length (windowApplications userId start' s)).
Proof.
  intros H. unfold windowApplications. rewrite !length_map.
  apply inj_le. apply filter_length_mono. intros a Ha.
  apply andb_true_iff in Ha. destruct Ha as [Hu Ht].
  apply andb_true_iff. split; [exact Hu|].
  apply Z.leb_le in Ht. apply Z.leb_le. lia.
Qed.

Lemma windowStart_7d env s :
  windowStart env s (Some "7d") = clock env (ticks s) - 7 * JSDate.msPerDay.
Proof. rewrite windowStart_value. apply setDate_back. Qed.

Lemma windowStart_30d env s :
  windowStart env s (Some "30d") = clock env (ticks s) - 30 * JSDate.msPerDay.
Proof. rewrite windowStart_value. apply setDate_back. Qed.

Lemma windowStart_90d env s :
  windowStart env s (Some "90d") = clock env (ticks s) - 90 * JSDate.msPerDay.
Proof. rewrite windowStart_value. apply setDate_back. Qed.

(** X15.  Asked at the same moment, a wider range never counts fewer
    applications: the totals for ['7d'], ['30d'] and ['90d'] increase in
    that order, and none exceeds the number of records the user has in the
    store. *)
Theorem wider_range_counts_more env s userId :
  isObjectId env userId = true ->
  exists d7 d30 d90,
    analyticsOf env s userId (Some "7d") = Some d7
    /\ analyticsOf env s userId (Some "30d") = Some d30
    /\ analyticsOf env s userId (Some "90d") = Some d90
    /\ Analytics.totalApplications (Analytics.metrics d7)
       <= Analytics.totalApplications (Analytics.metrics d30)
    /\ Analytics.totalApplications (Analytics.metrics d30)
       <= Analytics.totalApplications (Analytics.metrics d90)
    /\ Analytics.totalApplications (Analytics.metrics d90)
       <= Z.of_nat (List.length
                      (filter (fun a => String.eqb (user a) userId)
                              (applications s))).
Proof.
  intros Hu. do 3 eexists.
  split; [apply analyticsOf_value; exact Hu|].
  split; [apply analyticsOf_value; exact Hu|].
  split; [apply analyticsOf_value; exact Hu|].
  unfold summaryOf.
  cbn [Analytics.metrics Analytics.totalApplications].
  rewrite windowStart_7d, windowStart_30d, windowStart_90d.
  split; [apply windowApplications_mono; unfold JSDate.msPerDay; lia|].
  split; [apply windowApplications_mono; unfold JSDate.msPerDay; lia|].
  unfold windowApplications. rewrite length_map. apply inj_le.
  apply filter_length_mono. intros a Ha.
  apply andb_true_iff in Ha. apply Ha.
Qed.

Lemma wider_range_counts_more_witness :
  exists d7 d30 d90,
    analyticsOf Sample3.env (Sample3.store_at Sample3.noon_2024_01_31) "u1"
      (Some "7d") = Some d7
    /\ analyticsOf Sample3.env (Sample3.store_at Sample3.noon_2024_01_31) "u1"
         (Some "30d") = Some d30
    /\ analyticsOf Sample3.env (Sample3.store_at Sample3.noon_2024_01_31) "u1"
         (Some "90d") = Some d90
    /\ Analytics.totalApplications (Analytics.metrics d7)
       <= Analytics.totalApplications (Analytics.metrics d30)
    /\ Analytics.totalApplications (Analytics.metrics d30)
       <= Analytics.totalApplications (Analytics.metrics d90)
    /\ Analytics.totalApplications (Analytics.metrics d90)
       <= Z.of_nat (List.length
                      (filter (fun a => String.eqb (user a) "u1")
                              (applications
                                 (Sample3.store_at Sample3.noon_2024_01_31)))).
Proof.
  apply (wider_range_counts_more Sample3.env
           (Sample3.store_at Sample3.noon_2024_01_31) "u1").
  reflexivity.
Defined.

(* ===================================================================== *)
(** ** The monthly trend and the ranking, once more *)
(* ===================================================================== *)

Lemma month_starts_monotone y m k :
  0 <= k -> JSDate.MakeDay y m 1 <= JSDate.MakeDay y (m + k) 1.
Proof.
  intros Hk. revert m. pattern k. apply natlike_ind; [| |exact Hk].
  - intros m. rewrite Z.add_0_r. lia.
  - intros x Hx IH m. pose proof (month_starts_increase y m).
    specialize (IH (m + 1)).
    replace (m + Z.succ x) with (m + 1 + x) by lia. lia.
Qed.

Lemma MakeDay_date y m d :
  JSDate.MakeDay y m d = JSDate.MakeDay y m 1 + d - 1.
Proof. unfold JSDate.MakeDay. lia. Qed.

Lemma month_starts_ordered y m i j :
  0 <= j < i ->
  JSDate.MakeDay y (m - i + 1) 1 <= JSDate.MakeDay y (m - j) 1.
Proof.
  intros H.
  pose proof (month_starts_monotone y (m - i + 1) (i - 1 - j) ltac:(lia)) as Hs.
  replace (m - i + 1 + (i - 1 - j)) with (m - j) in Hs by lia.
  exact Hs.
Qed.

Lemma month_ends_before_next y m i j :
  0 <= j < i ->
  JSDate.Date_ymd y (m - i + 1) 0 < JSDate.Date_ymd y (m - j) 1.
Proof.
  intros H. unfold JSDate.Date_ymd. rewrite (MakeDay_date _ _ 0).
  pose proof (month_starts_ordered y m i j H) as Hs. revert Hs.
  generalize (JSDate.MakeDay y (m - i + 1) 1), (JSDate.MakeDay y (m - j) 1).
  intros a b Hs. unfold JSDate.msPerDay. lia.
Qed.

Lemma within_exclusive lo hi lo' hi' t :
  hi < lo' ->
  Analytics.within lo hi t = true -> Analytics.within lo' hi' t = false.
Proof.
  intros H Hi. unfold Analytics.within in *.
  apply andb_true_iff in Hi. destruct Hi as [_ Hi]. apply Z.leb_le in Hi.
  destruct (Z.leb_spec lo' t); [lia|reflexivity].
Qed.

Lemma buckets_exclusive y m i j t :
  0 <= j < i -> inBucket y m i t = true -> inBucket y m j t = false.
Proof.
  intros H. unfold inBucket. apply within_exclusive.
  apply month_ends_before_next. exact H.
Qed.

(** A time lies in at most one of the six buckets. *)
Lemma one_bucket y m t :
  indicator (inBucket y m 5 t) + indicator (inBucket y m 4 t)
  + indicator (inBucket y m 3 t) + indicator (inBucket y m 2 t)
  + indicator (inBucket y m 1 t) + indicator (inBucket y m 0 t) <= 1.
Proof.
  assert (Hx : forall i j, 0 <= j < i ->
                 inBucket y m i t = true -> inBucket y m j t = false)
    by (intros i j Hij; apply buckets_exclusive; exact Hij).
  pose proof (Hx 5 4 ltac:(lia)). pose proof (Hx 5 3 ltac:(lia)).
  pose proof (Hx 5 2 ltac:(lia)). pose proof (Hx 5 1 ltac:(lia)).
  pose proof (Hx 5 0 ltac:(lia)). pose proof (Hx 4 3 ltac:(lia)).
  pose proof (Hx 4 2 ltac:(lia)). pose proof (Hx 4 1 ltac:(lia)).
  pose proof (Hx 4 0 ltac:(lia)). pose proof (Hx 3 2 ltac:(lia)).
  pose proof (Hx 3 1 ltac:(lia)). pose proof (Hx 3 0 ltac:(lia)).
  pose proof (Hx 2 1 ltac:(lia)). pose proof (Hx 2 0 ltac:(lia)).
  pose proof (Hx 1 0 ltac:(lia)). clear Hx.
  generalize dependent (inBucket y m 5 t).
  generalize dependent (inBucket y m 4 t).
  generalize dependent (inBucket y m 3 t).
  generalize dependent (inBucket y m 2 t).
  generalize dependent (inBucket y m 1 t).
  generalize dependent (inBucket y m 0 t).
  intros b0 b1 H10 b2 H21 H20 b3 H32 H31 H30 b4 H43 H42 H41 H40
         b5 H54 H53 H52 H51 H50.
  destruct b5; [rewrite (H54 eq_refl), (H53 eq_refl), (H52 eq_refl),
                  (H51 eq_refl), (H50 eq_refl); cbv; discriminate|].
  destruct b4; [rewrite (H43 eq_refl), (H42 eq_refl), (H41 eq_refl),
                  (H40 eq_refl); cbv; discriminate|].
  destruct b3; [rewrite (H32 eq_refl), (H31 eq_refl), (H30 eq_refl);
                cbv; discriminate|].
  destruct b2; [rewrite (H21 eq_refl), (H20 eq_refl); cbv; discriminate|].
  destruct b1; [rewrite (H10 eq_refl); cbv; discriminate|].
  destruct b0; cbv; discriminate.
Qed.

Lemma count_indicator {A} (p : A -> bool) x l :
  Analytics.count p (x :: l) = indicator (p x) + Analytics.count p l.
Proof. apply count_cons. Qed.

Lemma counts_in_buckets {A} (q : Z -> A -> bool) (p : A -> bool) l :
  (forall x, indicator (q 5 x) + indicator (q 4 x) + indicator (q 3 x)
             + indicator (q 2 x) + indicator (q 1 x) + indicator (q 0 x)
             <= indicator (p x)) ->
  Analytics.count (q 5) l + Analytics.count (q 4) l + Analytics.count (q 3) l
  + Analytics.count (q 2) l + Analytics.count (q 1) l + Analytics.count (q 0) l
  <= Analytics.count p l.
Proof.
  intros H. induction l as [|x l IH]; [cbv; discriminate|].
  rewrite !count_indicator. specialize (H x).
  generalize dependent (Analytics.count p l).
  generalize (Analytics.count (q 5) l), (Analytics.count (q 4) l),
    (Analytics.count (q 3) l), (Analytics.count (q 2) l),
    (Analytics.count (q 1) l), (Analytics.count (q 0) l).
  generalize dependent (indicator (p x)).
  generalize (indicator (q 5 x)), (indicator (q 4 x)), (indicator (q 3 x)),
    (indicator (q 2 x)), (indicator (q 1 x)), (indicator (q 0 x)).
  intros. lia.
Qed.

Lemma indicator_and a b : indicator (a && b) = if a then indicator b else 0.
Proof. destruct a; reflexivity. Qed.

Lemma status_in_buckets y m (p : Populated -> bool) (l : list Populated) :
  let q i app := p app && inBucket y m i (updatedAt (fst app)) in
  Analytics.count (q 5) l + Analytics.count (q 4) l + Analytics.count (q 3) l
  + Analytics.count (q 2) l + Analytics.count (q 1) l + Analytics.count (q 0) l
  <= Analytics.count p l.
Proof.
  intros q. apply (counts_in_buckets q). intros x. subst q. cbv beta.
  rewrite !indicator_and.
  destruct (p x); [exact (one_bucket y m (updatedAt (fst x)))|].
  cbv; discriminate.
Qed.

Lemma count_all {A} (l : list A) :
  Analytics.count (fun _ => true) l = Z.of_nat (List.length l).
Proof.
  unfold Analytics.count. f_equal. f_equal.
  induction l as [|x l IH]; [reflexivity|]. simpl. rewrite IH. reflexivity.
Qed.

Lemma created_in_buckets y m (l : list Populated) :
  let q i (app : Populated) := inBucket y m i (createdAt (fst app)) in
  Analytics.count (q 5) l + Analytics.count (q 4) l + Analytics.count (q 3) l
  + Analytics.count (q 2) l + Analytics.count (q 1) l + Analytics.count (q 0) l
  <= Z.of_nat (List.length l).
Proof.
  intros q.
  apply Z.le_trans with (Analytics.count (fun _ : Populated => true) l);
    [|rewrite count_all; apply Z.le_refl].
  apply (counts_in_buckets q). intros x.
  exact (one_bucket y m (createdAt (fst x))).
Qed.

Lemma monthRow_counts now l i :
  let y := JSDate.getFullYear now in
  let m := JSDate.getMonth now in
  Month.applications (Analytics.monthRow now l i)
  = Analytics.count (fun app => inBucket y m i (createdAt (fst app))) l
  /\ Month.interviews (Analytics.monthRow now l i)
     = Analytics.count
         (fun app => Analytics.hasStatus "interviewing" app
                     && inBucket y m i (updatedAt (fst app))) l
  /\ Month.offers (Analytics.monthRow now l i)
     = Analytics.count
         (fun app => Analytics.hasStatus "offer" app
                     && inBucket y m i (updatedAt (fst app))) l.
Proof.
  unfold Analytics.monthRow, inBucket, Analytics.count.
  cbn [Month.applications Month.interviews Month.offers].
  repeat split.
Qed.

Lemma sumOver_six {A} (f : A -> Z) a b c d e g :
  sumOver f [a; b; c; d; e; g] = f a + f b + f c + f d + f e + f g.
Proof.
  unfold sumOver, fold_right.
  generalize (f a), (f b), (f c), (f d), (f e), (f g). intros. lia.
Qed.

Lemma monthlyData_six now l :
  Analytics.monthlyData now l
  = [Analytics.monthRow now l 5; Analytics.monthRow now l 4;
     Analytics.monthRow now l 3; Analytics.monthRow now l 2;
     Analytics.monthRow now l 1; Analytics.monthRow now l 0].
Proof. unfold Analytics.monthlyData. cbn [map]. reflexivity. Qed.

Lemma monthlyData_sums now (l : list Populated) :
  sumOver Month.applications (Analytics.monthlyData now l)
  <= Z.of_nat (List.length l)
  /\ sumOver Month.interviews (Analytics.monthlyData now l)
     <= Analytics.count (Analytics.hasStatus "interviewing") l
  /\ sumOver Month.offers (Analytics.monthlyData now l)
     <= Analytics.count (Analytics.hasStatus "offer") l.
Proof.
  rewrite monthlyData_six, !sumOver_six.
  destruct (monthRow_counts now l 5) as [-> [-> ->]].
  destruct (monthRow_counts now l 4) as [-> [-> ->]].
  destruct (monthRow_counts now l 3) as [-> [-> ->]].
  destruct (monthRow_counts now l 2) as [-> [-> ->]].
  destruct (monthRow_counts now l 1) as [-> [-> ->]].
  destruct (monthRow_counts now l 0) as [-> [-> ->]].
  split; [exact (created_in_buckets _ _ l)|].
  split; [exact (status_in_buckets _ _ (Analytics.hasStatus "interviewing") l)|].
  exact (status_in_buckets _ _ (Analytics.hasStatus "offer") l).
Qed.

Lemma length_monthlyData now l :
  List.length (Analytics.monthlyData now l) = 6%nat.
Proof. rewrite monthlyData_six. reflexivity. Qed.

(** X16.  The six buckets of the monthly trend do not overlap: every
    application is counted in at most one month.  So the monthly numbers of
    applications add up to at most the total of the summary, and the
    monthly interviews and offers to at most the numbers of applications
    in status ['interviewing'] and ['offer']. *)
Theorem monthly_trend_counts_once env s userId range :
  isObjectId env userId = true ->
  exists d,
    analyticsOf env s userId range = Some d
    /\ List.length (Analytics.d_monthlyData d) = 6%nat
    /\ sumOver Month.applications (Analytics.d_monthlyData d)
       <= Analytics.totalApplications (Analytics.metrics d)
    /\ sumOver Month.interviews (Analytics.d_monthlyData d)
       <= Analytics.interviewing (Analytics.statusDistribution d)
    /\ sumOver Month.offers (Analytics.d_monthlyData d)
       <= Analytics.offer (Analytics.statusDistribution d).
Proof.
  intros Hu. eexists. split; [apply analyticsOf_value; exact Hu|].
  unfold summaryOf.
  cbn [Analytics.d_monthlyData Analytics.metrics Analytics.totalApplications
       Analytics.statusDistribution Analytics.interviewing Analytics.offer].
  split; [apply length_monthlyData|]. apply monthlyData_sums.
Qed.

Lemma monthly_trend_counts_once_witness :
  exists d,
    analyticsOf Sample3.env (Sample3.store_at Sample3.noon_2024_01_31) "u1"
      (Some "all") = Some d
    /\ List.length (Analytics.d_monthlyData d) = 6%nat
    /\ sumOver Month.applications (Analytics.d_monthlyData d)
       <= Analytics.totalApplications (Analytics.metrics d)
    /\ sumOver Month.interviews (Analytics.d_monthlyData d)
       <= Analytics.interviewing (Analytics.statusDistribution d)
    /\ sumOver Month.offers (Analytics.d_monthlyData d)
       <= Analytics.offer (Analytics.statusDistribution d).
Proof.
  apply (monthly_trend_counts_once Sample3.env
           (Sample3.store_at Sample3.noon_2024_01_31) "u1" (Some "all")).
  reflexivity.
Defined.

(** *** The rows of the ranking *)

Lemma companies_truthy c apps : In c (companies apps) -> c <> "".
Proof.
  induction apps as [|x l IH]; [intros []|]. simpl.
  unfold companyOf. destruct (snd x) as [j|]; [|exact IH].
  destruct (JS.truthy (company j)) eqn:E; [|exact IH].
  destruct (JS.inherited (company j)); [exact IH|]. cbn [andb negb].
  intros [<-|H]; [|exact (IH H)].
  intros Hc. rewrite Hc in E. discriminate E.
Qed.

Lemma exclusive_statuses_le (p : Populated -> bool) l :
  Analytics.count (fun a => p a && Analytics.hasStatus "interviewing" a) l
  + Analytics.count (fun a => p a && Analytics.hasStatus "offer" a) l
  <= Analytics.count p l.
Proof.
  induction l as [|x l IH]; [cbv; discriminate|].
  rewrite !count_indicator.
  assert (Hx : indicator (p x && Analytics.hasStatus "interviewing" x)
               + indicator (p x && Analytics.hasStatus "offer" x)
               <= indicator (p x)).
  { destruct (p x); cbn [andb]; [|cbv; discriminate].
    unfold Analytics.hasStatus.
    destruct (String.eqb_spec (status (fst x)) "interviewing") as [->|];
      [cbv; discriminate|].
    destruct (String.eqb (status (fst x)) "offer"); cbv; discriminate. }
  lia.
Qed.

Lemma count_and_le {A} (p q : A -> bool) l :
  0 <= Analytics.count (fun a => p a && q a) l <= Analytics.count p l.
Proof.
  unfold Analytics.count. split; [lia|]. apply inj_le.
  apply filter_length_mono. intros x H. apply andb_true_iff in H. apply H.
Qed.

Lemma groupRow_sound apps c :
  In c (companies apps) ->
  let r := groupRow apps c in
  Company.name r = c
  /\ 1 <= Company.applications r
  /\ 0 <= Company.interviews r
  /\ 0 <= Company.offers r
  /\ Company.interviews r + Company.offers r <= Company.applications r
  /\ 0 <= Company.successRate r <= 100.
Proof.
  intros Hc r. subst r. unfold groupRow.
  cbn [Company.name Company.applications Company.interviews Company.offers
       Company.successRate].
  pose proof (count_positive c apps Hc) as Hpos.
  pose proof (exclusive_statuses_le (isCompany c) apps) as Hex.
  pose proof (count_and_le (isCompany c) (Analytics.hasStatus "interviewing")
                apps) as Hi.
  pose proof (count_and_le (isCompany c) (Analytics.hasStatus "offer") apps)
    as Ho.
  split; [reflexivity|]. split; [lia|]. split; [lia|]. split; [lia|].
  split; [exact Hex|]. apply percentage_bounds; lia.
Qed.

Lemma In_firstn {A} n (x : A) l : In x (firstn n l) -> In x l.
Proof.
  intros H. rewrite <- (firstn_skipn n l). apply in_or_app. left. exact H.
Qed.

Lemma NoDup_firstn_of {A} n (l : list A) : NoDup l -> NoDup (firstn n l).
Proof.
  intros H. rewrite <- (firstn_skipn n l) in H.
  exact (NoDup_app_remove_r _ _ H).
Qed.

Lemma names_of_rows apps :
  map Company.name (map (groupRow apps) (groupingOrder apps))
  = groupingOrder apps.
Proof.
  rewrite map_map.
  transitivity (map (fun c : string => c) (groupingOrder apps));
    [apply map_ext; intros c; reflexivity|apply map_id].
Qed.

Lemma NoDup_groupingOrder apps : NoDup (groupingOrder apps).
Proof.
  apply (Permutation_NoDup (Permutation_sym (groupingOrder_perm apps))).
  apply NoDup_firstOccurrences.
Qed.

Lemma In_groupingOrder c apps :
  In c (groupingOrder apps) -> In c (companies apps).
Proof.
  intros H. apply In_firstOccurrences.
  exact (Permutation_in c (groupingOrder_perm apps) H).
Qed.

Lemma sumOver_perm {A} (f : A -> Z) l l' :
  Permutation l l' -> sumOver f l = sumOver f l'.
Proof.
  intros H. induction H; simpl; try lia.
Qed.

Lemma sumOver_firstn {A} (f : A -> Z) n l :
  (forall x, In x l -> 0 <= f x) -> sumOver f (firstn n l) <= sumOver f l.
Proof.
  revert n. induction l as [|x l IH]; intros n H.
  - destruct n; simpl; lia.
  - destruct n; simpl.
    + assert (0 <= sumOver f l).
      { clear IH. induction l as [|y l IH]; simpl; [lia|].
        pose proof (H y (or_intror (or_introl eq_refl))).
        assert (0 <= sumOver f l)
          by (apply IH; intros z [Hz|Hz]; apply H; [left|right; right];
              assumption).
        unfold sumOver in *. lia. }
      pose proof (H x (or_introl eq_refl)). unfold sumOver in *. lia.
    + specialize (IH n (fun z Hz => H z (or_intror Hz))).
      unfold sumOver in *. lia.
Qed.

Lemma sumOver_map {A B} (f : B -> Z) (g : A -> B) l :
  sumOver f (map g l) = sumOver (fun x => f (g x)) l.
Proof. induction l as [|x l IH]; simpl; [reflexivity|]. rewrite IH. reflexivity. Qed.

Lemma sumOver_cons {A} (f : A -> Z) x l :
  sumOver f (x :: l) = f x + sumOver f l.
Proof. reflexivity. Qed.

Lemma sumOver_zero {A} (f : A -> Z) l :
  (forall x, In x l -> f x = 0) -> sumOver f l = 0.
Proof.
  induction l as [|a l IH]; intros H; [reflexivity|].
  rewrite sumOver_cons, (H a (or_introl eq_refl)), IH; [reflexivity|].
  intros x Hx. apply H. right. exact Hx.
Qed.

Lemma one_company (x : Populated) cs :
  NoDup cs -> sumOver (fun c => indicator (isCompany c x)) cs <= 1.
Proof.
  intros H. induction H as [|c cs Hn Hd IH]; [cbv; discriminate|].
  rewrite sumOver_cons. unfold isCompany in *.
  destruct (companyOf x) as [c'|].
  - destruct (String.eqb_spec c' c) as [->|Hne].
    + rewrite sumOver_zero; [cbv; discriminate|]. intros y Hy.
      destruct (String.eqb_spec c y) as [->|_]; [contradiction|reflexivity].
    + exact IH.
  - rewrite sumOver_zero; [cbv; discriminate|reflexivity].
Qed.

Lemma sumOver_add {A} (f g : A -> Z) l :
  sumOver (fun x => f x + g x) l = sumOver f l + sumOver g l.
Proof.
  induction l as [|x l IH]; [reflexivity|].
  rewrite !sumOver_cons, IH. ring.
Qed.

Lemma sumOver_ext {A} (f g : A -> Z) l :
  (forall x, f x = g x) -> sumOver f l = sumOver g l.
Proof.
  intros H. induction l as [|x l IH]; [reflexivity|].
  rewrite !sumOver_cons, IH, H. reflexivity.
Qed.

Lemma companies_share apps cs :
  NoDup cs ->
  sumOver (fun c => Analytics.count (isCompany c) apps) cs
  <= Z.of_nat (List.length apps).
Proof.
  intros H. induction apps as [|x l IH].
  - rewrite sumOver_zero; [apply Z.le_refl|reflexivity].
  - rewrite (sumOver_ext _
               (fun c => indicator (isCompany c x)
                         + Analytics.count (isCompany c) l))
      by (intros c; apply count_indicator).
    rewrite sumOver_add. pose proof (one_company x cs H) as H1.
    change (List.length (x :: l)) with (S (List.length l)).
    rewrite Nat2Z.inj_succ.
    generalize dependent (sumOver (fun c => indicator (isCompany c x)) cs).
    generalize dependent
      (sumOver (fun c => Analytics.count (isCompany c) l) cs).
    intros. lia.
Qed.

Lemma topCompanies_sound apps :
  let rows := Analytics.topCompanies apps in
  (List.length rows <= 5)%nat
  /\ NoDup (map Company.name rows)
  /\ sumOver Company.applications rows <= Z.of_nat (List.length apps)
  /\ forall r, In r rows ->
       Company.name r <> ""
       /\ 1 <= Company.applications r
       /\ 0 <= Company.interviews r
       /\ 0 <= Company.offers r
       /\ Company.interviews r + Company.offers r <= Company.applications r
       /\ 0 <= Company.successRate r <= 100.
Proof.
  intros rows. subst rows.
  destruct (topCompanies_topFive apps) as [sorted [Hp [_ [_ Hr]]]].
  rewrite Hr.
  assert (Hrow : forall r, In r sorted ->
            exists c, In c (companies apps) /\ r = groupRow apps c).
  { intros r Hin. apply (Permutation_in r Hp) in Hin.
    apply in_map_iff in Hin. destruct Hin as [c [<- Hc]].
    exists c. split; [apply In_groupingOrder; exact Hc|reflexivity]. }
  split; [apply firstn_le_length|]. split; [|split].
  - rewrite <- firstn_map. apply NoDup_firstn_of.
    apply (Permutation_NoDup
             (Permutation_sym (Permutation_map Company.name Hp))).
    rewrite names_of_rows. apply NoDup_groupingOrder.
  - apply Z.le_trans with (sumOver Company.applications sorted).
    + apply sumOver_firstn. intros r Hin.
      destruct (Hrow r Hin) as [c [Hc ->]].
      pose proof (groupRow_sound apps c Hc) as H. cbv zeta in H. lia.
    + rewrite (sumOver_perm Company.applications _ _ Hp), sumOver_map.
      apply (companies_share apps (groupingOrder apps)).
      apply NoDup_groupingOrder.
  - intros r Hin. apply In_firstn in Hin.
    destruct (Hrow r Hin) as [c [Hc ->]].
    pose proof (groupRow_sound apps c Hc) as H. cbv zeta in H.
    destruct H as [Hn H]. split; [|exact H].
    rewrite Hn. exact (companies_truthy c apps Hc).
Qed.

(** X17.  The ranking of the summary has at most five rows, for companies
    with distinct, non-empty names.  Every row counts at least one
    application; its interviews and offers together are at most its
    applications; its success rate is between 0 and 100; and the
    applications of the rows add up to at most the total of the summary. *)
Theorem top_companies_rows_sound env s userId range :
  isObjectId env userId = true ->
  exists d,
    analyticsOf env s userId range = Some d
    /\ (List.length (Analytics.d_topCompanies d) <= 5)%nat
    /\ NoDup (map Company.name (Analytics.d_topCompanies d))
    /\ sumOver Company.applications (Analytics.d_topCompanies d)
       <= Analytics.totalApplications (Analytics.metrics d)
    /\ forall r, In r (Analytics.d_topCompanies d) ->
         Company.name r <> ""
         /\ 1 <= Company.applications r
         /\ 0 <= Company.interviews r
         /\ 0 <= Company.offers r
         /\ Company.interviews r + Company.offers r <= Company.applications r
         /\ 0 <= Company.successRate r <= 100.
Proof.
  intros Hu. eexists. split; [apply analyticsOf_value; exact Hu|].
  unfold summaryOf.
  cbn [Analytics.d_topCompanies Analytics.metrics Analytics.totalApplications].
  apply topCompanies_sound.
Qed.

Lemma top_companies_rows_sound_witness :
  exists d,
    analyticsOf Sample.env Sample4.store "u1" (Some "all") = Some d
    /\ (List.length (Analytics.d_topCompanies d) <= 5)%nat
    /\ NoDup (map Company.name (Analytics.d_topCompanies d))
    /\ sumOver Company.applications (Analytics.d_topCompanies d)
       <= Analytics.totalApplications (Analytics.metrics d)
    /\ forall r, In r (Analytics.d_topCompanies d) ->
         Company.name r <> ""
         /\ 1 <= Company.applications r
         /\ 0 <= Company.interviews r
         /\ 0 <= Company.offers r
         /\ Company.interviews r + Company.offers r <= Company.applications r
         /\ 0 <= Company.successRate r <= 100.
Proof.
  apply (top_companies_rows_sound Sample.env Sample4.store "u1" (Some "all")).
  reflexivity.
Defined.

(** *** The order of storage *)

Lemma count_perm {A} (p : A -> bool) l l' :
  Permutation l l' -> Analytics.count p l = Analytics.count p l'.
Proof.
  intros H. unfold Analytics.count.
  rewrite (Permutation_length (filter_perm p l l' H)). reflexivity.
Qed.

Lemma monthlyData_perm now (l l' : list Populated) :
  Permutation l l' ->
  Analytics.monthlyData now l = Analytics.monthlyData now l'.
Proof.
  intros H. unfold Analytics.monthlyData. apply map_ext. intros i.
  unfold Analytics.monthRow. cbv zeta.
  rewrite (Permutation_length (filter_perm _ l l' H)).
  f_equal; f_equal; apply Permutation_length, filter_perm, H.
Qed.

Lemma windowApplications_perm userId start s s' :
  jobs s = jobs s' ->
  Permutation (filter (fun a => String.eqb (user a) userId) (applications s))
              (filter (fun a => String.eqb (user a) userId) (applications s')) ->
  Permutation (windowApplications userId start s)
              (windowApplications userId start s').
Proof.
  intros Hj Hp. rewrite !windowApplications_own. rewrite Hj.
  apply Permutation_map, filter_perm, Hp.
Qed.

(** X18.  The counts of the summary do not depend on the order in which
    the user's records are stored: the total, the two rates, the average
    salary, the status distribution and the monthly trend are the same for
    two stores whose records of the user are a rearrangement of each
    other. *)
Theorem analytics_counts_ignore_storage_order env s s' userId range :
  isObjectId env userId = true ->
  jobs s = jobs s' ->
  ticks s = ticks s' ->
  Permutation (filter (fun a => String.eqb (user a) userId) (applications s))
              (filter (fun a => String.eqb (user a) userId) (applications s')) ->
  exists d d',
    analyticsOf env s userId range = Some d
    /\ analyticsOf env s' userId range = Some d'
    /\ Analytics.totalApplications (Analytics.metrics d)
       = Analytics.totalApplications (Analytics.metrics d')
    /\ Analytics.interviewRate (Analytics.metrics d)
       = Analytics.interviewRate (Analytics.metrics d')
    /\ Analytics.offerRate (Analytics.metrics d)
       = Analytics.offerRate (Analytics.metrics d')
    /\ Analytics.m_averageSalary (Analytics.metrics d)
       = Analytics.m_averageSalary (Analytics.metrics d')
    /\ Analytics.statusDistribution d = Analytics.statusDistribution d'
    /\ Analytics.d_monthlyData d = Analytics.d_monthlyData d'.
Proof.
  intros Hu Hj Ht Hp. do 2 eexists.
  split; [apply analyticsOf_value; exact Hu|].
  split; [apply analyticsOf_value; exact Hu|].
  rewrite <- (windowStart_ticks env s s' range Ht),
          <- (trendNow_ticks env s s' range Ht).
  pose proof (windowApplications_perm userId (windowStart env s range) s s'
                Hj Hp) as Hw.
  unfold summaryOf.
  cbn [Analytics.metrics Analytics.totalApplications Analytics.interviewRate
       Analytics.offerRate Analytics.m_averageSalary
       Analytics.statusDistribution Analytics.d_monthlyData].
  rewrite (Permutation_length Hw).
  rewrite !(count_perm _ _ _ Hw).
  rewrite (monthlyData_perm _ _ _ Hw).
  unfold postedJobs. rewrite Hj. repeat split.
Qed.

Lemma analytics_counts_ignore_storage_order_witness :
  exists d d',
    analyticsOf Sample.env Sample6.tie "u1" (Some "all") = Some d
    /\ analyticsOf Sample.env Sample6.tie' "u1" (Some "all") = Some d'
    /\ Analytics.totalApplications (Analytics.metrics d)
       = Analytics.totalApplications (Analytics.metrics d')
    /\ Analytics.interviewRate (Analytics.metrics d)
       = Analytics.interviewRate (Analytics.metrics d')
    /\ Analytics.offerRate (Analytics.metrics d)
       = Analytics.offerRate (Analytics.metrics d')
    /\ Analytics.m_averageSalary (Analytics.metrics d)
       = Analytics.m_averageSalary (Analytics.metrics d')
    /\ Analytics.statusDistribution d = Analytics.statusDistribution d'
    /\ Analytics.d_monthlyData d = Analytics.d_monthlyData d'.
Proof.
  apply (analytics_counts_ignore_storage_order Sample.env Sample6.tie
           Sample6.tie' "u1" (Some "all")); try reflexivity.
  apply perm_swap.
Defined.

(** The ranking is another matter: companies with equally many
    applications come in the order in which the store lists their first
    record. *)
Example ranking_follows_storage_order :
  option_map (fun d => map Company.name (Analytics.d_topCompanies d))
    (analyticsOf Sample.env Sample6.tie "u1" (Some "all"))
  = Some ["Globex"; "Acme"]
  /\ option_map (fun d => map Company.name (Analytics.d_topCompanies d))
       (analyticsOf Sample.env Sample6.tie' "u1" (Some "all"))
     = Some ["Acme"; "Globex"].
Proof. split; vm_compute; reflexivity. Qed.

(* ===================================================================== *)
(** ** The dashboard *)
(* ===================================================================== *)

Lemma setDate_forward t n :
  JSDate.setDate t (JSDate.getDate t + n) = t + n * JSDate.msPerDay.
Proof.
  replace (JSDate.getDate t + n) with (JSDate.getDate t - - n) by lia.
  rewrite setDate_back. rewrite Z.mul_opp_l. lia.
Qed.

Lemma map_join_jobs s a n m l :
  map (join (mkStore a (jobs s) n m)) l = map (join s) l.
Proof. reflexivity. Qed.

Lemma getDashboardData_run env s userId :
  isObjectId env userId = true ->
  serve (Dashboard.getDashboardData userId) env s
  = (Success 200
       (dashboardData userId s
          (clock env (ticks s) - 30 * JSDate.msPerDay)
          (clock env (S (ticks s)) - 60 * JSDate.msPerDay)
          (clock env (S (S (S (ticks s)))))
          (clock env (S (S (ticks s))) + 7 * JSDate.msPerDay)),
     mkStore (applications s) (jobs s) (S (S (S (S (ticks s))))) (minted s)).
Proof.
  intros Hu. rewrite <- !setDate_back, <- setDate_forward.
  unfold serve, Dashboard.getDashboardData, Analytics.findApplications.
  cbv beta iota zeta delta [bind ret Date_now castObjectId getApplicationDocs
    getJobDocs].
  repeat first
    [ rewrite Hu
    | rewrite populateAll_run
    | progress cbn [ticks applications jobs minted] ].
  unfold dashboardData, windowApplications.
  rewrite !map_join_jobs. reflexivity.
Qed.

Lemma dashboardOf_value env s userId :
  isObjectId env userId = true ->
  dashboardOf env s userId
  = Some (dashboardData userId s
            (clock env (ticks s) - 30 * JSDate.msPerDay)
            (clock env (S (ticks s)) - 60 * JSDate.msPerDay)
            (clock env (S (S (S (ticks s)))))
            (clock env (S (S (ticks s))) + 7 * JSDate.msPerDay)).
Proof.
  intros Hu. unfold dashboardOf. rewrite getDashboardData_run by exact Hu.
  reflexivity.
Qed.

(** *** The change of a card *)

Lemma calculateChange_facts current previous :
  0 <= current -> 0 < previous ->
  let change := Dashboard.calculateChange current previous in
  -100 <= change
  /\ (current = previous -> change = 0)
  /\ (current < previous -> change <= 0)
  /\ (previous < current -> 0 <= change)
  /\ (current = 0 -> change = -100)
  /\ (current = 2 * previous -> change = 100).
Proof.
  intros Hc Hp. unfold Dashboard.calculateChange.
  destruct (Z.eqb_spec previous 0) as [E|_]; [lia|].
  apply Math_round_change; assumption.
Qed.

Lemma calculateChange_floor current previous :
  0 <= current -> 0 <= previous ->
  -100 <= Dashboard.calculateChange current previous.
Proof.
  intros Hc Hp. destruct (Z.eq_dec previous 0) as [->|Hn].
  - unfold Dashboard.calculateChange. cbn [Z.eqb].
    destruct (Z.ltb 0 current); lia.
  - apply calculateChange_facts; lia.
Qed.

(** X19.  The change shown on a card, for a current and a previous count:
    it is never below -100; with nothing in the previous period it is 100
    when there is something now and 0 otherwise; it is 0 for equal counts,
    at most 0 after a decrease and at least 0 after an increase; a fall to
    nothing is -100 and a doubling is 100. *)
Theorem change_follows_the_trend current previous :
  0 <= current -> 0 <= previous ->
  let change := Dashboard.calculateChange current previous in
  -100 <= change
  /\ (previous = 0 -> change = if Z.ltb 0 current then 100 else 0)
  /\ (current = previous -> change = 0)
  /\ (current < previous -> change <= 0)
  /\ (previous < current -> 0 <= change)
  /\ (0 < previous -> current = 0 -> change = -100)
  /\ (0 < previous -> current = 2 * previous -> change = 100).
Proof.
  intros Hc Hp change. subst change.
  split; [apply calculateChange_floor; assumption|].
  split.
  { intros ->. reflexivity. }
  destruct (Z.eq_dec previous 0) as [->|Hn].
  { unfold Dashboard.calculateChange. cbn [Z.eqb].
    split; [intros ->; reflexivity|].
    split; [lia|].
    split; [intros H; destruct (Z.ltb 0 current); lia|].
    split; lia. }
  destruct (calculateChange_facts current previous Hc ltac:(lia))
    as [_ [H1 [H2 [H3 [H4 H5]]]]].
  split; [exact H1|]. split; [exact H2|]. split; [exact H3|].
  split; [intros _; exact H4 | intros _; exact H5].
Qed.

Lemma change_follows_the_trend_witness :
  let change := Dashboard.calculateChange 3 4 in
  -100 <= change
  /\ (4 = 0 -> change = if Z.ltb 0 3 then 100 else 0)
  /\ (3 = 4 -> change = 0)
  /\ (3 < 4 -> change <= 0)
  /\ (4 < 3 -> 0 <= change)
  /\ (0 < 4 -> 3 = 0 -> change = -100)
  /\ (0 < 4 -> 3 = 2 * 4 -> change = 100).
Proof. apply (change_follows_the_trend 3 4); lia. Defined.

(** From 40 to 63 the exact change is 57.5 percent; the quotient 23/40 is
    rounded to a double below 0.575, and the change shown is 57. *)
Example calculateChange_below_the_half :
  Dashboard.calculateChange 63 40 = 57 /\ Dashboard.calculateChange 41 40 = 3.
Proof. split; vm_compute; reflexivity. Qed.

(** *** The cards *)












(** *** The latest applications *)

Lemma StronglySorted_app {A} (R : A -> A -> Prop) l1 l2 :
  StronglySorted R (l1 ++ l2) ->
  StronglySorted R l1 /\ forall a b, In a l1 -> In b l2 -> R a b.
Proof.
  induction l1 as [|x l1 IH]; intros H.
  - split; [constructor|intros a b []].
  - rewrite <- app_comm_cons in H.
    inversion H as [|? ? Hl Hx]; subst.
    destruct (IH Hl) as [Hs Hab]. split.
    + constructor; [exact Hs|]. apply Forall_forall. intros y Hy.
      rewrite Forall_forall in Hx. apply Hx. apply in_or_app. left. exact Hy.
    + intros a b [<-|Ha] Hb.
      * rewrite Forall_forall in Hx. apply Hx. apply in_or_app. right. exact Hb.
      * exact (Hab a b Ha Hb).
Qed.

Lemma orDefault_truthy a b : b <> "" -> Dashboard.orDefault a b <> "".
Proof.
  intros Hb. unfold Dashboard.orDefault. destruct a as [|c r]; [exact Hb|].
  discriminate.
Qed.

Lemma orDefault_opt_truthy a b : b <> "" -> Dashboard.orDefault_opt a b <> "".
Proof.
  intros Hb. destruct a as [x|]; [apply orDefault_truthy; exact Hb|exact Hb].
Qed.

Lemma orDefault_opt_shown a b : Dashboard.orDefault_opt a b = shown a b.
Proof. destruct a; reflexivity. Qed.

Lemma Forall2_map_r {A B} (P : A -> B -> Prop) (f : A -> B) l :
  (forall a, P a (f a)) -> Forall2 P l (map f l).
Proof.
  intros H. induction l as [|a l IH]; [constructor|].
  cbn [map]. constructor; [apply H | exact IH].
Qed.

Lemma formatApplication_row (app : Populated) :
  let r := Dashboard.formatApplication app in
  Dashboard.r_id r = _id (fst app)
  /\ Dashboard.r_company r
     = shown (option_map company (snd app)) "Unknown Company"
  /\ Dashboard.r_position r
     = shown (option_map title (snd app)) "Unknown Position"
  /\ Dashboard.r_status r = status (fst app)
  /\ Dashboard.r_date r = createdAt (fst app)
  /\ Dashboard.r_logo r = Dashboard.charAt0 (Dashboard.r_company r)
  /\ Dashboard.r_company r <> ""
  /\ Dashboard.r_position r <> "".
Proof.
  unfold Dashboard.formatApplication.
  cbn [Dashboard.r_id Dashboard.r_status Dashboard.r_date Dashboard.r_company
       Dashboard.r_position Dashboard.r_logo].
  split; [reflexivity|].
  split; [apply orDefault_opt_shown|].
  split; [apply orDefault_opt_shown|].
  split; [reflexivity|]. split; [reflexivity|].
  split.
  { destruct (snd app) as [j|]; [|reflexivity].
    cbn [option_map Dashboard.orDefault_opt]. unfold Dashboard.orDefault.
    destruct (company j) as [|c r]; reflexivity. }
  split; apply orDefault_opt_truthy; discriminate.
Qed.

(** X21.  The dashboard lists the user's five latest applications, or all
    of them when there are fewer, the latest creation first: every record
    of the user is either listed, once, or was created no later than each
    listed one.  The row of a record shows its id, status and creation
    date, and the company and the title of its job: 'Unknown Company' and
    'Unknown Position' stand for a job that is missing or a text that is
    empty, so that neither is ever empty; the logo is the first character
    of the company shown ('U' for 'Unknown Company'). *)
Theorem recent_applications_latest_five env s userId :
  isObjectId env userId = true ->
  exists d listed rest,
    dashboardOf env s userId = Some d
    /\ Permutation (listed ++ rest) (recordsOf userId s)
    /\ List.length listed = Nat.min 5 (List.length (recordsOf userId s))
    /\ (forall a b, In a listed -> In b rest -> createdAt b <= createdAt a)
    /\ StronglySorted (fun a b => Dashboard.r_date b <= Dashboard.r_date a)
         (Dashboard.recentApplications d)
    /\ Forall2
         (fun a r =>
            let job := snd (join s a) in
            Dashboard.r_id r = _id a
            /\ Dashboard.r_company r
               = shown (option_map company job) "Unknown Company"
            /\ Dashboard.r_position r
               = shown (option_map title job) "Unknown Position"
            /\ Dashboard.r_status r = status a
            /\ Dashboard.r_date r = createdAt a
            /\ Dashboard.r_logo r = Dashboard.charAt0 (Dashboard.r_company r)
            /\ Dashboard.r_company r <> ""
            /\ Dashboard.r_position r <> "")
         listed (Dashboard.recentApplications d).
Proof.
  intros Hu.
  set (sorted := JS.sort Dashboard.latestFirst (recordsOf userId s)).
  assert (Hp : Permutation sorted (recordsOf userId s))
    by apply (sort_perm createdAt).
  assert (Hs : StronglySorted (fun a b => createdAt b <= createdAt a) sorted)
    by apply (sort_desc createdAt).
  rewrite <- (firstn_skipn 5 sorted) in Hp, Hs.
  destruct (StronglySorted_app _ _ _ Hs) as [Hs1 Hs2].
  exists (dashboardData userId s
            (clock env (ticks s) - 30 * JSDate.msPerDay)
            (clock env (S (ticks s)) - 60 * JSDate.msPerDay)
            (clock env (S (S (S (ticks s)))))
            (clock env (S (S (ticks s))) + 7 * JSDate.msPerDay)),
         (firstn 5 sorted), (skipn 5 sorted).
  split; [apply dashboardOf_value; exact Hu|].
  split; [exact Hp|].
  unfold dashboardData. cbn [Dashboard.recentApplications].
  rewrite map_map. unfold JS.slice0. fold (recordsOf userId s). fold sorted.
  split.
  { rewrite length_firstn. f_equal. apply Permutation_length.
    apply (sort_perm createdAt). }
  split; [exact Hs2|].
  split.
  { apply StronglySorted_map
      with (R := fun a b => createdAt b <= createdAt a); [|exact Hs1].
    intros x y H. exact H. }
  apply Forall2_map_r. intros a.
  exact (formatApplication_row (join s a)).
Qed.

(** The three records of the sample, the latest first; the job of the
    oldest no longer exists. *)
Lemma recent_applications_latest_five_witness :
  exists d,
    dashboardOf Sample3.env Sample7.store "u1" = Some d
    /\ map (fun r => (Dashboard.r_id r, Dashboard.r_company r,
                      Dashboard.r_position r, Dashboard.r_logo r))
           (Dashboard.recentApplications d)
       = [("a1", "Acme", "Developer", "A"); ("a2", "Globex", "Tester", "G");
          ("a3", "Unknown Company", "Unknown Position", "U")].
Proof.
  destruct (recent_applications_latest_five Sample3.env Sample7.store "u1"
              eq_refl) as [d [listed [rest [Hd _]]]].
  exists d. split; [exact Hd|].
  vm_compute in Hd. injection Hd as <-. reflexivity.
Defined.

(** *** The interviews of the coming week *)




(** *** The quick statistics *)


Lemma count_ext {A} (p q : A -> bool) l :
  (forall x, p x = q x) -> Analytics.count p l = Analytics.count q l.
Proof.
  intros H. unfold Analytics.count. rewrite (filter_ext p q H). reflexivity.
Qed.



(* ===================================================================== *)
(** ** What the listing shows after a write *)
(* ===================================================================== *)

Lemma bucket_of_listing (listed : list Populated) st :
  In st statusEnum ->
  TrackerList.bucket
    (TrackerList.mkByStatus
       (filter (Analytics.hasStatus "saved") listed)
       (filter (Analytics.hasStatus "applied") listed)
       (filter (Analytics.hasStatus "interviewing") listed)
       (filter (Analytics.hasStatus "offer") listed)
       (filter (Analytics.hasStatus "rejected") listed)) st
  = filter (Analytics.hasStatus st) listed.
Proof.
  cbn [In statusEnum]. intros [H|[H|[H|[H|[H|[]]]]]]; subst st; reflexivity.
Qed.

Lemma In_listed s userId st x :
  In x (filter (Analytics.hasStatus st)
          (map (join s)
             (JS.sort TrackerList.newestFirst
                (filter (fun a => String.eqb (user a) userId)
                        (applications s)))))
  <-> exists a, In a (applications s) /\ user a = userId /\ status a = st
                /\ x = join s a.
Proof.
  rewrite filter_In, in_map_iff. split.
  - intros [[a [<- Ha]] Hst].
    apply (Permutation_in a (sort_perm updatedAt _)) in Ha.
    apply filter_In in Ha. destruct Ha as [Ha Hu].
    exists a. split; [exact Ha|]. split; [apply String.eqb_eq; exact Hu|].
    split; [apply String.eqb_eq; exact Hst|reflexivity].
  - intros [a [Ha [Hu [Hst ->]]]]. split.
    + exists a. split; [reflexivity|].
      apply (Permutation_in a (Permutation_sym (sort_perm updatedAt _))).
      apply filter_In. split; [exact Ha|]. apply String.eqb_eq. exact Hu.
    + unfold Analytics.hasStatus, join. cbn [fst].
      apply String.eqb_eq. exact Hst.
Qed.

Lemma listing_run env s userId :
  isObjectId env userId = true ->
  exists b,
    serve (TrackerList.getApplications userId) env s = (Success 200 b, s)
    /\ forall st, In st statusEnum ->
         TrackerList.bucket b st
         = filter (Analytics.hasStatus st)
             (map (join s)
                (JS.sort TrackerList.newestFirst
                   (filter (fun a => String.eqb (user a) userId)
                           (applications s)))).
Proof.
  intros Hu. unfold serve. rewrite getApplications_run by exact Hu.
  eexists. split; [reflexivity|].
  intros st Hst. apply bucket_of_listing. exact Hst.
Qed.

Lemma includes_orSaved st :
  JS.includes statusEnum (orSaved st) = true -> In (orSaved st) statusEnum.
Proof. apply includes_statusEnum. Qed.

(** X24.  An application that the tracker has just created is shown by the
    listing of its user, in the bucket of the status it was created with
    ('saved' when the request names none), and with the job of the request
    joined to it. *)
Theorem created_application_is_listed env s userId j st :
  JS.truthy j = true ->
  isObjectId env j = true ->
  isObjectId env userId = true ->
  jobResolves (Some j) s = true ->
  alreadyApplied userId (Some j) s = false ->
  JS.includes statusEnum (orSaved st) = true ->
  exists doc pj s1 b,
    serve (Tracker.createApplication userId (Some j) st) env s
    = (Success 201 (doc, pj), s1)
    /\ serve (TrackerList.getApplications userId) env s1 = (Success 200 b, s1)
    /\ In (doc, pj) (TrackerList.bucket b (orSaved st))
    /\ exists jb, pj = Some jb /\ job_id jb = j.
Proof.
  intros Ht Hc Hu Hr Hd Hx. unfold serve at 1.
  rewrite create_ok by assumption.
  set (doc := mkApplication _ _ _ _ _ _ _ _ _ _ _ _ _ _).
  set (s1 := mkStore _ _ _ _).
  destruct (listing_run env s1 userId Hu) as [b [Hb Hbucket]].
  exists doc, (Query.findOne (fun x => String.eqb (job_id x) j) (jobs s)), s1, b.
  split; [reflexivity|]. split; [exact Hb|]. split.
  - rewrite (Hbucket _ (includes_orSaved st Hx)). apply In_listed.
    exists doc. split; [apply in_or_app; right; left; reflexivity|].
    repeat split.
  - unfold jobResolves in Hr. rewrite find_existsb in Hr.
    unfold Query.findOne.
    destruct (find (fun x => String.eqb (job_id x) j) (jobs s)) as [jb|] eqn:E;
      [|discriminate Hr].
    exists jb. split; [reflexivity|].
    apply find_some in E. destruct E as [_ E].
    apply String.eqb_eq. exact E.
Qed.

Lemma created_application_is_listed_witness :
  exists doc pj s1 b,
    serve (Tracker.createApplication "u1" (Some "j2") None)
          Sample.env Sample.store
    = (Success 201 (doc, pj), s1)
    /\ serve (TrackerList.getApplications "u1") Sample.env s1
       = (Success 200 b, s1)
    /\ In (doc, pj) (TrackerList.bucket b (orSaved None))
    /\ exists jb, pj = Some jb /\ job_id jb = "j2".
Proof.
  apply created_application_is_listed; reflexivity.
Defined.

Lemma In_updateOne_found {D} (p : D -> bool) (f : D -> D) l a :
  find p l = Some a -> In (f a) (Query.updateOne p f l).
Proof.
  induction l as [|x l IH]; [discriminate|]. cbn [find Query.updateOne].
  destruct (p x).
  - intros H. injection H as ->. left. reflexivity.
  - intros H. right. exact (IH H).
Qed.

Lemma updateOne_unique id (f : Application -> Application) l a a' :
  NoDup (map _id l) ->
  find (hasId id) l = Some a ->
  In a' (Query.updateOne (hasId id) f l) ->
  _id a' = id ->
  a' = f a.
Proof.
  intros Hnd Hf Hin Hid. induction l as [|x l IH]; [discriminate Hf|].
  cbn [find Query.updateOne map] in *.
  inversion Hnd as [|? ? Hni Hnd']; subst.
  destruct (hasId (_id a') x) eqn:E.
  - injection Hf as ->. destruct Hin as [H|H]; [symmetry; exact H|].
    exfalso. apply Hni. unfold hasId in E. apply String.eqb_eq in E.
    rewrite E. apply in_map. exact H.
  - destruct Hin as [H|H].
    + subst x. unfold hasId in E. rewrite String.eqb_refl in E. discriminate E.
    + exact (IH Hnd' Hf H).
Qed.

(** X25.  After a change of status that went through, the listing of the
    user shows the record in the bucket of the requested status and in no
    other bucket (the ids of the stored records being distinct). *)
Theorem moved_application_changes_bucket env s id requested a :
  Tracker.includesStatus (Some requested) = true ->
  isObjectId env id = true ->
  isObjectId env (user a) = true ->
  lookup id s = Some a ->
  uniqueIds s ->
  exists v s1 b,
    serve (Tracker.updateApplicationStatus (user a) id (Some requested)) env s
    = (Success 200 v, s1)
    /\ serve (TrackerList.getApplications (user a)) env s1
       = (Success 200 b, s1)
    /\ forall st, In st statusEnum -> (listedIn b st id <-> st = requested).
Proof.
  intros Hv Hc Hu Hl Hnd. unfold serve at 1.
  destruct (update_ok env s id requested a Hv Hc Hl) as [n Hn].
  cbv zeta in Hn. rewrite Hn.
  set (u := updateDataFor env (ticks s) a requested) in *.
  set (s1 := mkStore _ _ _ _).
  destruct (listing_run env s1 (user a) Hu) as [b [Hb Hbucket]].
  do 2 eexists. exists b. split; [reflexivity|]. split; [exact Hb|].
  intros st Hst. unfold listedIn. rewrite (Hbucket st Hst). split.
  - intros [x [Hx Hid]]. apply In_listed in Hx.
    destruct Hx as [a' [Ha' [_ [Hs ->]]]]. cbn [join fst] in Hid.
    unfold lookup, Query.findOne in Hl.
    rewrite (updateOne_unique id (applyUpdate u) (applications s) a a'
               Hnd Hl Ha' Hid) in Hs.
    symmetry. exact Hs.
  - intros ->. exists (join s1 (applyUpdate u a)). split.
    + apply In_listed. exists (applyUpdate u a).
      split; [apply In_updateOne_found; exact Hl|]. repeat split.
    + cbn [join fst applyUpdate _id]. exact (find_hasId_id id _ a Hl).
Qed.

Lemma moved_application_changes_bucket_witness :
  exists v s1 b,
    serve (Tracker.updateApplicationStatus (user Sample.a1) "a1"
             (Some "applied")) Sample.env Sample.store
    = (Success 200 v, s1)
    /\ serve (TrackerList.getApplications (user Sample.a1)) Sample.env s1
       = (Success 200 b, s1)
    /\ forall st, In st statusEnum -> (listedIn b st "a1" <-> st = "applied").
Proof.
  apply (moved_application_changes_bucket Sample.env Sample.store "a1"
           "applied" Sample.a1); try reflexivity.
  repeat constructor; simpl; tauto.
Defined.

Lemma deleteOne_filter id l :
  NoDup (map _id l) ->
  Query.deleteOne (hasId id) l = filter (fun a => negb (hasId id a)) l.
Proof.
  induction l as [|x l IH]; [reflexivity|]. cbn [Query.deleteOne filter map].
  intros Hnd. inversion Hnd as [|? ? Hni Hnd']; subst.
  destruct (hasId id x) eqn:E; cbn [negb].
  - unfold hasId in E. apply String.eqb_eq in E. subst id.
    symmetry. apply forallb_filter_id. apply forallb_forall. intros y Hy.
    apply negb_true_iff. unfold hasId. apply String.eqb_neq. intros Heq.
    apply Hni. rewrite <- Heq. apply in_map. exact Hy.
  - rewrite (IH Hnd'). reflexivity.
Qed.

Lemma filter_comm {A} (p q : A -> bool) l :
  filter p (filter q l) = filter q (filter p l).
Proof.
  rewrite !filter_filter. apply filter_ext. intros x. apply andb_comm.
Qed.

Lemma filter_map_fst {A B C} (g : A -> B * C) (p : B -> bool) l :
  filter (fun x => p (fst x)) (map g l)
  = map g (filter (fun a => p (fst (g a))) l).
Proof.
  induction l as [|a l IH]; [reflexivity|]. cbn [map filter].
  destruct (p (fst (g a))); cbn [map]; rewrite IH; reflexivity.
Qed.

(** X26.  After a deletion that went through, the listing of the user no
    longer shows the record in any bucket, and every bucket holds the same
    records as before except that one (the ids of the stored records being
    distinct). *)
Theorem deleted_application_is_gone env s id a :
  isObjectId env id = true ->
  isObjectId env (user a) = true ->
  lookup id s = Some a ->
  uniqueIds s ->
  exists s1 b b1,
    serve (Tracker.deleteApplication (user a) id) env s = (Success 200 tt, s1)
    /\ serve (TrackerList.getApplications (user a)) env s = (Success 200 b, s)
    /\ serve (TrackerList.getApplications (user a)) env s1
       = (Success 200 b1, s1)
    /\ forall st, In st statusEnum ->
         Permutation (TrackerList.bucket b1 st)
                     (without id (TrackerList.bucket b st))
         /\ ~ listedIn b1 st id.
Proof.
  intros Hc Hu Hl Hnd. unfold serve at 1.
  rewrite delete_ok by assumption.
  set (s1 := mkStore _ _ _ _).
  destruct (listing_run env s (user a) Hu) as [b [Hb Hbucket]].
  destruct (listing_run env s1 (user a) Hu) as [b1 [Hb1 Hbucket1]].
  exists s1, b, b1. split; [reflexivity|]. split; [exact Hb|].
  split; [exact Hb1|]. intros st Hst.
  assert (Hid : _id a = id) by exact (find_hasId_id id _ a Hl).
  assert (Hp : Permutation (TrackerList.bucket b1 st)
                           (without id (TrackerList.bucket b st))).
  { rewrite (Hbucket st Hst), (Hbucket1 st Hst). unfold without.
    rewrite filter_comm.
    apply filter_perm.
    change (map (join s1)) with (map (join s)).
    rewrite (filter_map_fst (join s)
               (fun a0 => negb (String.eqb (_id a0) id))).
    apply Permutation_map. cbn [join fst].
    eapply Permutation_trans; [apply (sort_perm updatedAt)|].
    eapply Permutation_trans;
      [|apply filter_perm, Permutation_sym, (sort_perm updatedAt)].
    unfold s1. cbn [applications]. rewrite Hid.
    rewrite (deleteOne_filter id _ Hnd). rewrite filter_comm.
    apply Permutation_refl. }
  split; [exact Hp|].
  intros [x [Hx Hxid]].
  apply (Permutation_in x Hp) in Hx. unfold without in Hx.
  apply filter_In in Hx. destruct Hx as [_ Hx].
  rewrite Hxid, String.eqb_refl in Hx. discriminate Hx.
Qed.

Lemma deleted_application_is_gone_witness :
  exists s1 b b1,
    serve (Tracker.deleteApplication (user Sample.a1) "a1")
          Sample.env Sample.store
    = (Success 200 tt, s1)
    /\ serve (TrackerList.getApplications (user Sample.a1))
             Sample.env Sample.store
       = (Success 200 b, Sample.store)
    /\ serve (TrackerList.getApplications (user Sample.a1)) Sample.env s1
       = (Success 200 b1, s1)
    /\ forall st, In st statusEnum ->
         Permutation (TrackerList.bucket b1 st)
                     (without "a1" (TrackerList.bucket b st))
         /\ ~ listedIn b1 st "a1".
Proof.
  apply (deleted_application_is_gone Sample.env Sample.store "a1" Sample.a1);
    try reflexivity.
  repeat constructor; simpl; tauto.
Defined.

(** *** The two listings *)




(* ===================================================================== *)
(** ** The ranking of the companies *)
(* ===================================================================== *)

Lemma map_fst_filter {V} (p : string -> bool) (t : list (string * V)) :
  map fst (filter (fun e => p (fst e)) t) = filter p (map fst t).
Proof.
  induction t as [|e t IH]; [reflexivity|]. cbn [map filter].
  destruct (p (fst e)); cbn [map]; rewrite IH; reflexivity.
Qed.

(** The order in which the grouping lists the companies: first the names
    that are array indices, in ascending order, then the others, in the
    order of first occurrence. *)
Lemma groupingOrder_explicit apps :
  exists indices,
    groupingOrder apps
    = (indices ++ filter (fun c => negb (JS.isArrayIndex c))
                    (firstOccurrences (companies apps)))%list
    /\ Permutation indices
         (filter JS.isArrayIndex (firstOccurrences (companies apps)))
    /\ StronglySorted (fun a b => JS.digitsValue a <= JS.digitsValue b)
         indices.
Proof.
  destruct (companyStatsOf_spec apps) as [Hk _].
  unfold groupingOrder, JS.Object_entries. rewrite <- Hk.
  set (t := Analytics.companyStatsOf apps).
  exists (map fst (fold_right JS.insert_index []
                     (filter (fun e => JS.isArrayIndex (fst e)) t))).
  split; [|split].
  - rewrite map_app.
    rewrite (map_fst_filter (fun c => negb (JS.isArrayIndex c))).
    reflexivity.
  - rewrite <- (map_fst_filter JS.isArrayIndex).
    apply Permutation_map. apply sorted_index_perm.
  - eapply StronglySorted_map; [|apply sorted_index_sorted].
    intros x y H. exact H.
Qed.

Lemma percentage_in64 part whole :
  0 <= part <= whole -> 0 < whole <= 8796093022208 ->
  percentIn64 part whole (Analytics.percentage part whole).
Proof.
  intros Hp Hw. unfold Analytics.percentage, percentIn64, roundedPercent.
  destruct (Z.ltb_spec 0 whole) as [_|Hle]; [|lia].
  exact (Math_round_percent_nearest part whole Hp Hw).
Qed.

Lemma groupRow_in64 apps c :
  Z.of_nat (List.length apps) <= 8796093022208 ->
  In c (companies apps) ->
  let r := groupRow apps c in
  percentIn64 (Company.offers r) (Company.applications r)
    (Company.successRate r).
Proof.
  intros Hn Hc r. subst r. unfold groupRow.
  cbn [Company.offers Company.applications Company.successRate].
  pose proof (count_positive c apps Hc) as Hpos.
  pose proof (count_bounds (isCompany c) apps) as Hb.
  pose proof (count_and_le (isCompany c) (Analytics.hasStatus "offer") apps)
    as Ho.
  apply percentage_in64; lia.
Qed.

(** C5, as the code has it.  The top companies of the summary are obtained
    from the applications of the window by grouping them under the company
    string of the joined job: each company has one row, with its number of
    applications, of applications in status ['interviewing'] and in status
    ['offer'], and the percentage of offers.  The percentage is computed
    in double precision, the quotient first: it is
    [round(100 * offers / applications)], or, when [100 * offers /
    applications] is exactly halfway between two integers, possibly the
    integer below.  The rows are put in descending order of applications
    by a stable sort, so that ties stay in the order in which the grouping
    lists the companies: the names that are array indices first, in
    ascending order, then the other names in the order of first
    occurrence; the first five rows are returned.  This is for at most
    [2^43 = 8796093022208] applications. *)
Theorem top_companies_ranking env s userId range :
  isObjectId env userId = true ->
  let apps := windowApplications userId (windowStart env s range) s in
  Z.of_nat (List.length apps) <= 8796093022208 ->
  exists d indices,
    analyticsOf env s userId range = Some d
    /\ groupingOrder apps
       = (indices ++ filter (fun c => negb (JS.isArrayIndex c))
                       (firstOccurrences (companies apps)))%list
    /\ Permutation indices
         (filter JS.isArrayIndex (firstOccurrences (companies apps)))
    /\ StronglySorted (fun a b => JS.digitsValue a <= JS.digitsValue b)
         indices
    /\ topFiveOf (map (groupRow apps) (groupingOrder apps))
                 (Analytics.d_topCompanies d)
    /\ Forall (fun c =>
                 let r := groupRow apps c in
                 percentIn64 (Company.offers r) (Company.applications r)
                   (Company.successRate r))
              (groupingOrder apps).
Proof.
  intros Hu apps Hn.
  destruct (analyticsOf_run env s userId range Hu)
    as [d [Hd [_ [_ [_ [_ Ht]]]]]].
  destruct (groupingOrder_explicit apps) as [indices [Hg [Hp Hs]]].
  exists d, indices. split; [exact Hd|].
  split; [exact Hg|]. split; [exact Hp|]. split; [exact Hs|].
  split; [rewrite Ht; apply topCompanies_topFive|].
  apply Forall_forall. intros c Hc.
  apply groupRow_in64; [exact Hn|].
  apply In_firstOccurrences.
  exact (Permutation_in _ (groupingOrder_perm apps) Hc).
Qed.

(** The scenario of the spec: Acme, with three applications and one offer,
    comes before Globex, with two applications, and has a success rate of
    33. *)
Lemma top_companies_ranking_witness :
  exists d,
    analyticsOf Sample.env Sample4.store "u1" (Some "all") = Some d
    /\ Analytics.d_topCompanies d
       = [Company.mk "Acme" 3 1 1 33; Company.mk "Globex" 2 0 0 0]
    /\ groupingOrder (windowApplications "u1" 0 Sample4.store)
       = ["Globex"; "Acme"].
Proof.
  destruct (top_companies_ranking Sample.env Sample4.store "u1" (Some "all"))
    as [d [indices [Hd [Hg _]]]];
    [reflexivity | vm_compute; discriminate |].
  exists d. split; [exact Hd|]. split.
  - vm_compute in Hd. injection Hd as <-. reflexivity.
  - vm_compute. reflexivity.
Defined.

(** C5 fails as stated.  For 23 offers out of 40 applications the success
    rate is 57, and [round(100 * 23 / 40)] is 58: the quotient 23/40 is
    rounded to a double below 0.575, and so is its product with 100.  And
    an application to a company named ['constructor'] is counted in the
    total and is in no group. *)
Lemma top_companies_rate_below_the_half :
  option_map Analytics.d_topCompanies
    (analyticsOf Sample.env Sample8.forty "u1" (Some "all"))
  = Some [Company.mk "Acme" 40 0 23 57]
  /\ roundedPercent 23 40 = 58
  /\ option_map
       (fun d => (Analytics.totalApplications (Analytics.metrics d),
                  Analytics.d_topCompanies d))
       (analyticsOf Sample.env Sample8.named "u1" (Some "all"))
     = Some (1, []).
Proof. repeat split; vm_compute; reflexivity. Qed.

(** Company names that are array indices are listed first, in ascending
    order, whatever the order of the applications: of two companies with
    one application each, ['9'] comes before ['10'], although the
    application to ['10'] is the first. *)
Example index_names_come_first :
  option_map Analytics.d_topCompanies
    (analyticsOf Sample.env Sample8.numbered "u1" (Some "all"))
  = Some [Company.mk "9" 1 0 0 0; Company.mk "10" 1 0 0 0]
  /\ firstOccurrences
       (companies (windowApplications "u1" 0 Sample8.numbered))
     = ["10"; "9"].
Proof. split; vm_compute; reflexivity. Qed.
(* ===================================================================== *)
(** ** The accuracy of the mean response time *)
(* ===================================================================== *)

Lemma powQ_nonneg x k : (0 <= x)%Q -> (0 <= powQ x k)%Q.
Proof.
  intros Hx. induction k as [|k IH]; simpl; [discriminate|].
  apply Qmult_le_0_compat; assumption.
Qed.

(** Powers of a number of [0..1] decrease, powers of a number from 1 on
    increase. *)
Lemma powQ_le_1 x k m :
  (0 <= x <= 1)%Q -> (k <= m)%nat -> (powQ x m <= powQ x k)%Q.
Proof.
  intros Hx Hkm. induction Hkm as [|m Hkm IH]; [apply Qle_refl|].
  eapply Qle_trans; [|exact IH]. simpl.
  pose proof (powQ_nonneg x m (proj1 Hx)) as Hp.
  assert (H : (x * powQ x m <= 1 * powQ x m)%Q)
    by (apply Qmult_le_compat_r; tauto).
  lra.
Qed.

Lemma powQ_ge_1 x k m :
  (1 <= x)%Q -> (k <= m)%nat -> (powQ x k <= powQ x m)%Q.
Proof.
  intros Hx Hkm. induction Hkm as [|m Hkm IH]; [apply Qle_refl|].
  eapply Qle_trans; [exact IH|]. simpl.
  assert (Hp : (0 <= powQ x m)%Q) by (apply powQ_nonneg; lra).
  assert (H : (1 * powQ x m <= x * powQ x m)%Q)
    by (apply Qmult_le_compat_r; assumption).
  lra.
Qed.

Lemma eps64_small : (0 <= 1 - eps64 <= 1 /\ 1 <= 1 + eps64)%Q.
Proof. unfold eps64. repeat split; lra. Qed.

(** One rounding of a number of the normal range moves it by at most the
    fraction [2^-51] of itself. *)
Lemma round_rel x :
  (F64.pow2 (-1022) <= x)%Q ->
  (x * (1 - eps64) <= F64.round x <= x * (1 + eps64))%Q.
Proof.
  intros Hx. pose proof (pow2_pos (-1022)) as Hp.
  assert (Hpos : (0 < x)%Q) by lra.
  destruct (ilog2_spec x Hpos) as [Hlo Hhi].
  pose proof (ilog2_ge x (-1022) Hx) as Hl.
  set (E := F64.ilog2 x - 51).
  assert (Hn : (x - F64.pow2 E <= F64.round x <= x + F64.pow2 E)%Q).
  { apply round_near; [unfold F64.emin; lia|].
    rewrite Qabs_pos by lra.
    replace (52 + E) with (F64.ilog2 x + 1) by lia. lra. }
  assert (HE : (F64.pow2 E <= x * eps64)%Q).
  { unfold E, Z.sub. rewrite pow2_add.
    change (F64.pow2 (- (51))) with eps64.
    apply Qmult_le_compat_r; [exact Hlo|]. unfold eps64. lra. }
  lra.
Qed.

Lemma round_ge_pow2 x e :
  F64.emin <= e -> (F64.pow2 e <= x)%Q -> (F64.pow2 e <= F64.round x)%Q.
Proof.
  intros He Hx. pose proof (round_ge_grid x 1 e) as H.
  change (inject_Z 1) with 1%Q in H. rewrite Qmult_1_l in H.
  apply H; [exact Hx|reflexivity|exact He].
Qed.

(** The days of a pair, as computed: zero when the two dates are the
    same, and otherwise within two roundings of the exact number. *)
Lemma days64_accurate p :
  fst p <= snd p -> upToRoundings 2 (daysOf p) (days64 p).
Proof.
  destruct p as [a r]. cbn [fst snd]. intros Har.
  unfold upToRoundings, daysOf, days64. cbn [fst snd].
  assert (HK : (0 < inject_Z 86400000)%Q) by reflexivity.
  assert (Hd0 : (0 <= inject_Z (r - a))%Q).
  { change 0%Q with (inject_Z 0). rewrite <- Zle_Qle. lia. }
  split.
  { apply Qle_shift_div_l; [exact HK|]. lra. }
  assert (Ey : (inject_Z r - inject_Z a == inject_Z (r - a))%Q).
  { unfold Z.sub. rewrite inject_Z_plus, inject_Z_opp. reflexivity. }
  rewrite (round_comp _ _ Ey).
  destruct (Z.eq_dec (r - a) 0) as [E0|Hne].
  - left. rewrite E0. split; reflexivity.
  - right.
    assert (Hd1 : (1 <= inject_Z (r - a))%Q).
    { change 1%Q with (inject_Z 1). rewrite <- Zle_Qle. lia. }
    assert (H1 : (F64.pow2 (-1022) <= inject_Z (r - a))%Q).
    { pose proof (pow2_le (-1022) 0 ltac:(lia)) as H.
      rewrite pow2_0 in H. lra. }
    pose proof (round_rel _ H1) as Hr1.
    assert (Hr1' : (1 <= F64.round (inject_Z (r - a)))%Q).
    { pose proof (round_ge_pow2 (inject_Z (r - a)) 0) as H.
      rewrite pow2_0 in H. apply H; [unfold F64.emin; lia|exact Hd1]. }
    set (d := inject_Z (r - a)) in *.
    set (d' := F64.round d) in *.
    assert (Hq : (F64.pow2 (-27) <= d' / inject_Z 86400000)%Q).
    { apply Qle_shift_div_l; [exact HK|].
      change (F64.pow2 (-27) * inject_Z 86400000)%Q
        with ((1 # 134217728) * 86400000)%Q. lra. }
    assert (H2 : (F64.pow2 (-1022) <= d' / inject_Z 86400000)%Q).
    { pose proof (pow2_le (-1022) (-27) ltac:(lia)) as H. lra. }
    pose proof (round_rel _ H2) as Hr2.
    split; [apply round_ge_pow2; [unfold F64.emin; lia|exact Hq]|].
    destruct eps64_small as [[He0 _] He1].
    assert (Hlo : (d / inject_Z 86400000 * (1 - eps64)
                   <= d' / inject_Z 86400000)%Q).
    { unfold Qdiv.
      setoid_replace (d * / inject_Z 86400000 * (1 - eps64))%Q
        with (d * (1 - eps64) * / inject_Z 86400000)%Q by ring.
      apply Qmult_le_compat_r; [tauto|].
      apply Qinv_le_0_compat. lra. }
    assert (Hhi : (d' / inject_Z 86400000
                   <= d / inject_Z 86400000 * (1 + eps64))%Q).
    { unfold Qdiv.
      setoid_replace (d * / inject_Z 86400000 * (1 + eps64))%Q
        with (d * (1 + eps64) * / inject_Z 86400000)%Q by ring.
      apply Qmult_le_compat_r; [tauto|].
      apply Qinv_le_0_compat. lra. }
    cbn [powQ].
    generalize dependent (d' / inject_Z 86400000)%Q.
    generalize (d / inject_Z 86400000)%Q. intros x y Hq H2 Hr2 Hlo Hhi.
    split.
    + assert (H : (x * (1 - eps64) * (1 - eps64) <= y * (1 - eps64))%Q)
        by (apply Qmult_le_compat_r; assumption).
      setoid_replace (x * ((1 - eps64) * ((1 - eps64) * 1)))%Q
        with (x * (1 - eps64) * (1 - eps64))%Q by ring.
      lra.
    + assert (H : (y * (1 + eps64) <= x * (1 + eps64) * (1 + eps64))%Q)
        by (apply Qmult_le_compat_r; [assumption|lra]).
      setoid_replace (x * ((1 + eps64) * ((1 + eps64) * 1)))%Q
        with (x * (1 + eps64) * (1 + eps64))%Q by ring.
      lra.
Qed.

Lemma upToRoundings_bounds k exact total :
  upToRoundings k exact total ->
  (0 <= exact)%Q /\ (0 <= total)%Q
  /\ (exact * powQ (1 - eps64) k <= total)%Q
  /\ (total <= exact * powQ (1 + eps64) k)%Q
  /\ (((total == 0)%Q /\ (exact == 0)%Q) \/ (F64.pow2 (-27) <= total)%Q).
Proof.
  intros [H0 [[Ht Hs]|[Hp [Hlo Hhi]]]].
  - split; [exact H0|]. rewrite Ht, Hs.
    split; [apply Qle_refl|]. split; [rewrite Qmult_0_l; apply Qle_refl|].
    split; [rewrite Qmult_0_l; apply Qle_refl|]. left. split; reflexivity.
  - pose proof (pow2_pos (-27)) as H. split; [exact H0|].
    split; [lra|]. split; [exact Hlo|]. split; [exact Hhi|]. right. exact Hp.
Qed.

(** Adding a term costs one more rounding. *)
Lemma add_accurate k exact total x y :
  (2 <= k)%nat ->
  upToRoundings k exact total -> upToRoundings 2 x y ->
  upToRoundings (S k) (exact + x) (F64.round (total + y)).
Proof.
  intros Hk Ht Hy.
  apply upToRoundings_bounds in Ht. apply upToRoundings_bounds in Hy.
  destruct Ht as [Hs0 [Ht0 [Htlo [Hthi Htz]]]].
  destruct Hy as [Hx0 [Hy0 [Hylo [Hyhi Hyz]]]].
  destruct eps64_small as [He He1].
  pose proof (powQ_le_1 (1 - eps64) 2 k He Hk) as Hm.
  pose proof (powQ_ge_1 (1 + eps64) 2 k He1 Hk) as Hp.
  pose proof (powQ_nonneg (1 - eps64) k (proj1 He)) as Hm0.
  assert (Hxlo : (x * powQ (1 - eps64) k <= y)%Q).
  { eapply Qle_trans; [|exact Hylo].
    rewrite !(Qmult_comm x). apply Qmult_le_compat_r; assumption. }
  assert (Hxhi : (y <= x * powQ (1 + eps64) k)%Q).
  { eapply Qle_trans; [exact Hyhi|].
    rewrite !(Qmult_comm x). apply Qmult_le_compat_r; assumption. }
  assert (Hlo : ((exact + x) * powQ (1 - eps64) k <= total + y)%Q).
  { rewrite Qmult_plus_distr_l. lra. }
  assert (Hhi : (total + y <= (exact + x) * powQ (1 + eps64) k)%Q).
  { rewrite Qmult_plus_distr_l. lra. }
  unfold upToRoundings. split; [lra|].
  assert (Hz : ((total + y == 0)%Q /\ (exact + x == 0)%Q)
               \/ (F64.pow2 (-27) <= total + y)%Q).
  { destruct Htz as [[Ht Hs]|Ht]; destruct Hyz as [[Hy Hx]|Hy].
    - left. rewrite Ht, Hs, Hy, Hx. split; reflexivity.
    - right. lra.
    - right. lra.
    - right. lra. }
  destruct Hz as [[Hz1 Hz2]|Hz].
  - left. split; [rewrite (round_zero _ Hz1); reflexivity | exact Hz2].
  - right.
    split; [apply round_ge_pow2; [unfold F64.emin; lia|exact Hz]|].
    assert (H2 : (F64.pow2 (-1022) <= total + y)%Q).
    { pose proof (pow2_le (-1022) (-27) ltac:(lia)) as H. lra. }
    destruct (round_rel _ H2) as [Hr1 Hr2].
    cbn [powQ]. split.
    + eapply Qle_trans; [|exact Hr1].
      setoid_replace ((exact + x) * ((1 - eps64) * powQ (1 - eps64) k))%Q
        with ((exact + x) * powQ (1 - eps64) k * (1 - eps64))%Q by ring.
      apply Qmult_le_compat_r; [exact Hlo|tauto].
    + eapply Qle_trans; [exact Hr2|].
      setoid_replace ((exact + x) * ((1 + eps64) * powQ (1 + eps64) k))%Q
        with ((exact + x) * powQ (1 + eps64) k * (1 + eps64))%Q by ring.
      apply Qmult_le_compat_r; [exact Hhi|lra].
Qed.

(** The sum of the days, as computed, from a sum so far. *)
Lemma sum64_accurate pairs :
  Forall (fun p => fst p <= snd p) pairs ->
  forall k exact total,
    (2 <= k)%nat -> upToRoundings k exact total ->
    upToRoundings (k + List.length pairs)
      (fold_left (fun s x => s + x)%Q (map daysOf pairs) exact)
      (fold_left (fun t x => F64.round (t + x)%Q) (map days64 pairs) total).
Proof.
  induction 1 as [|p pairs Hp Hps IH]; intros k exact total Hk Ht.
  - cbn [List.length map fold_left]. rewrite Nat.add_0_r. exact Ht.
  - cbn [List.length map fold_left].
    replace (k + S (List.length pairs))%nat
      with (S k + List.length pairs)%nat by lia.
    apply IH; [lia|].
    apply add_accurate; [exact Hk | exact Ht | apply days64_accurate; exact Hp].
Qed.

Lemma sum_daysOf pairs : forall acc : Q,
  (fold_left (fun s x => s + x) (map daysOf pairs) acc
   == acc + inject_Z (sumZ (map (fun p => (snd p - fst p)%Z) pairs))
            / inject_Z 86400000)%Q.
Proof.
  induction pairs as [|p pairs IH]; intros acc; cbn [map fold_left sumZ fold_right].
  - unfold Qdiv. change (inject_Z 0) with 0%Q. ring.
  - rewrite IH. unfold daysOf.
    change (sumZ (map (fun p0 : Z * Z => snd p0 - fst p0) pairs))
      with (fold_right Z.add 0 (map (fun p0 : Z * Z => snd p0 - fst p0) pairs)).
    rewrite inject_Z_plus. unfold Qdiv. ring.
Qed.

Lemma upToRoundings_zero k : upToRoundings k 0 0.
Proof. split; [apply Qle_refl|]. left. split; reflexivity. Qed.

(** The mean that is computed is within [n + 3] roundings of the exact
    mean, for [n] pairs of dates in their order, [n] being at most
    [2^32]. *)
Lemma mean64_accurate l :
  Forall (fun p => fst p <= snd p) (datedPairs l) ->
  Z.of_nat (List.length (datedPairs l)) <= 4294967296 ->
  (meanResponseDays l * powQ (1 - eps64) (List.length (datedPairs l) + 3)
   <= mean64 (datedPairs l)
   <= meanResponseDays l * powQ (1 + eps64) (List.length (datedPairs l) + 3))%Q.
Proof.
  intros Hf Hn. unfold meanResponseDays, mean64, sum64.
  generalize dependent (datedPairs l). clear l. intros pairs Hf Hn.
  destruct (Nat.eq_dec (List.length pairs) 0) as [E0|Hne].
  { destruct pairs; [|discriminate E0].
    cbn [List.length map fold_left sumZ fold_right Nat.add powQ].
    split; vm_compute; discriminate. }
  pose proof (sum64_accurate pairs Hf 2 0%Q 0%Q (le_n 2) (upToRoundings_zero 2))
    as Hs.
  apply upToRoundings_bounds in Hs.
  destruct Hs as [Hs0 [Ht0 [Hlo [Hhi Hz]]]].
  pose proof (sum_daysOf pairs 0) as Hsum. rewrite Qplus_0_l in Hsum.
  set (n := List.length pairs) in *.
  assert (HN1 : (1 <= inject_Z (Z.of_nat n))%Q).
  { change 1%Q with (inject_Z 1). rewrite <- Zle_Qle. lia. }
  assert (HN2 : (inject_Z (Z.of_nat n) <= 4294967296)%Q).
  { change 4294967296%Q with (inject_Z 4294967296). rewrite <- Zle_Qle.
    exact Hn. }
  assert (Em : (inject_Z (sumZ (map (fun p => (snd p - fst p)%Z) pairs))
                / inject_Z (86400000 * Z.of_nat n)
                == fold_left (fun s x => s + x) (map daysOf pairs) 0
                   / inject_Z (Z.of_nat n))%Q).
  { rewrite Hsum, inject_Z_mult. field. intro H0. lra. }
  rewrite Em. clear Em Hsum.
  replace (n + 3)%nat with (S (2 + n)) by lia. cbn [powQ].
  destruct eps64_small as [[He0 _] He1].
  revert Hs0 Ht0 Hlo Hhi Hz.
  generalize (fold_left (fun t x => F64.round (t + x)%Q) (map days64 pairs) 0%Q).
  generalize (fold_left (fun s x => (s + x)%Q) (map daysOf pairs) 0%Q).
  generalize dependent (inject_Z (Z.of_nat n)).
  generalize (powQ (1 - eps64) (2 + n)) (powQ (1 + eps64) (2 + n)).
  intros Pm Pp N HN1 HN2 S t Hs0 Ht0 Hlo Hhi Hz.
  assert (HNi : (0 < / N)%Q) by (apply Qinv_lt_0_compat; lra).
  assert (Hylo : (S / N * Pm <= t / N)%Q).
  { unfold Qdiv.
    setoid_replace (S * / N * Pm)%Q with (S * Pm * / N)%Q by ring.
    apply Qmult_le_compat_r; [exact Hlo|lra]. }
  assert (Hyhi : (t / N <= S / N * Pp)%Q).
  { unfold Qdiv.
    setoid_replace (S * / N * Pp)%Q with (S * Pp * / N)%Q by ring.
    apply Qmult_le_compat_r; [exact Hhi|lra]. }
  destruct Hz as [[Ht Hs]|Ht].
  - assert (Ey : (t / N == 0)%Q) by (rewrite Ht; unfold Qdiv; ring).
    rewrite (round_zero _ Ey).
    assert (Em : (S / N == 0)%Q) by (rewrite Hs; unfold Qdiv; ring).
    rewrite Em. split; rewrite Qmult_0_l; apply Qle_refl.
  - assert (Hy : (F64.pow2 (-1022) <= t / N)%Q).
    { apply Qle_shift_div_l; [lra|].
      pose proof (pow2_le (-1022) (-59) ltac:(lia)) as H1.
      assert (H2 : (F64.pow2 (-59) * N <= F64.pow2 (-59) * 4294967296)%Q).
      { apply Qmult_le_l; [apply pow2_pos|exact HN2]. }
      assert (H3 : (F64.pow2 (-59) * 4294967296 == F64.pow2 (-27))%Q)
        by reflexivity.
      assert (H4 : (F64.pow2 (-1022) * N <= F64.pow2 (-59) * N)%Q).
      { apply Qmult_le_compat_r; [exact H1|lra]. }
      lra. }
    destruct (round_rel _ Hy) as [Hr1 Hr2]. split.
    + eapply Qle_trans; [|exact Hr1].
      setoid_replace (S / N * ((1 - eps64) * Pm))%Q
        with (S / N * Pm * (1 - eps64))%Q by ring.
      apply Qmult_le_compat_r; [exact Hylo|exact He0].
    + eapply Qle_trans; [exact Hr2|].
      setoid_replace (S / N * ((1 + eps64) * Pp))%Q
        with (S / N * Pp * (1 + eps64))%Q by ring.
      apply Qmult_le_compat_r; [exact Hyhi|lra].
Qed.

(** C6, as the code has it.  The response-time metric is the mean of
    [responseDate - appliedDate], in days, over the applications of the
    window that have both dates, computed in double precision and printed
    with one decimal: it is the tenth nearest to the computed mean.  The
    computed mean of [n] response times, none of them negative, is within
    [n + 3] roundings of the exact mean, each of a relative error of at
    most [2^-51].  A record without [appliedDate] does not count, whatever
    its [responseDate]; the metric is 0 when no record has both dates. *)
Theorem averageResponseTime_rounded_mean env s userId range :
  isObjectId env userId = true ->
  let apps := windowApplications userId (windowStart env s range) s in
  let n := List.length (datedPairs apps) in
  exists d,
    analyticsOf env s userId range = Some d
    /\ Analytics.m_averageResponseTime (Analytics.metrics d)
       = match datedPairs apps with
         | [] => 0%Q
         | _ => (inject_Z (JS.toFixed1 (mean64 (datedPairs apps))) / 10)%Q
         end
    /\ nearestTenth (mean64 (datedPairs apps))
         (JS.toFixed1 (mean64 (datedPairs apps)))
    /\ (Forall (fun p => fst p <= snd p) (datedPairs apps) ->
        Z.of_nat n <= 4294967296 ->
        (meanResponseDays apps * powQ (1 - eps64) (n + 3)
         <= mean64 (datedPairs apps)
         <= meanResponseDays apps * powQ (1 + eps64) (n + 3))%Q)
    /\ (forall l1 x l2,
          appliedDate (fst x) = None ->
          Analytics.averageResponseTime (l1 ++ x :: l2)
          = Analytics.averageResponseTime (l1 ++ l2)).
Proof.
  intros Hu apps n.
  destruct (analyticsOf_run env s userId range Hu)
    as [d [Hd [_ [Hr _]]]].
  exists d. split; [exact Hd|]. split.
  { rewrite Hr. apply averageResponseTime_mean. }
  split; [apply toFixed1_nearest|].
  split; [apply mean64_accurate|].
  intros l1 x l2 Hx. unfold Analytics.averageResponseTime.
  rewrite filter_responded_skip; [reflexivity|].
  unfold bothDates. rewrite Hx. reflexivity.
Qed.

(** One record answered after an hour and one record with a response date
    only: the metric is 0.0. *)
Lemma averageResponseTime_rounded_mean_witness :
  exists d,
    analyticsOf Sample.env Sample2.answered "u1" (Some "all") = Some d
    /\ (Analytics.m_averageResponseTime (Analytics.metrics d) == 0)%Q.
Proof.
  destruct (averageResponseTime_rounded_mean Sample.env Sample2.answered "u1"
              (Some "all")) as [d [H1 [H2 _]]]; [reflexivity|].
  exists d. split; [exact H1|]. rewrite H2. vm_compute. reflexivity.
Defined.

(** C6 fails as stated.  For the one record with both dates, answered an
    hour after it was sent, the mean is 1/24 of a day and the metric is
    0.0. *)
Lemma averageResponseTime_not_the_mean :
  exists d,
    analyticsOf Sample.env Sample2.answered "u1" (Some "all") = Some d
    /\ (Analytics.m_averageResponseTime (Analytics.metrics d) == 0)%Q
    /\ (averageResponseTime_as_stated
          (windowApplications "u1" 0 Sample2.answered) == 1 # 24)%Q
    /\ ~ (Analytics.m_averageResponseTime (Analytics.metrics d)
          == averageResponseTime_as_stated
               (windowApplications "u1" 0 Sample2.answered))%Q.
Proof.
  destruct (analyticsOf Sample.env Sample2.answered "u1" (Some "all"))
    as [d|] eqn:E; [|vm_compute in E; discriminate E].
  exists d. vm_compute in E. injection E as <-.
  split; [reflexivity|]. split; [reflexivity|]. split; [reflexivity|].
  vm_compute. discriminate.
Qed.

(** The tenth that is printed is the one nearest to the double, which
    need not be the one nearest to the exact mean: a record answered after
    12960000 ms, that is 0.15 day, shows 0.1, the double nearest to 0.15
    being below it. *)
Example averageResponseTime_below_a_tie :
  let app : Populated :=
    (mkApplication "a1" "j1" "u1" "rejected" (Some 0) (Some 12960000) None
       None 0 0 None None None None, None) in
  (meanResponseDays [app] == 15 # 100)%Q
  /\ (mean64 (datedPairs [app]) < 15 # 100)%Q
  /\ (Analytics.averageResponseTime [app] == 1 # 10)%Q.
Proof. repeat split; vm_compute; reflexivity. Qed.
